(** * CertificateNFT: a shallow embedding of the certificate registry

    The registry is the Solidity contract [CertificateNFT]
    (contracts/CertificateNFT.sol), which inherits OpenZeppelin's
    [ERC721URIStorage], [AccessControl] and [Pausable] (v5 layout:
    [utils/Pausable.sol]).  Storage is an explicit record, every external
    function is a computation in a state-and-revert monad, and a reverted
    call leaves the storage of the caller's pre-state, as on the EVM.

    Conventions
    - [uint256] and [address] are [Z]; [address(0)] is [0].  Checked
      arithmetic (Solidity 0.8) is written out: an increment past
      [MAX_UINT256] reverts with [Panic 0x11]; the [unchecked] balance
      arithmetic of ERC721 wraps.
    - A Solidity [mapping] is a [gmap] read through a default value.
    - The event log is a list, oldest record first.
    - [_safeMint] and [safeTransferFrom] call the recipient's
      [onERC721Received] hook when the recipient is a contract.  The hook
      is foreign code: it runs in the middle of the registry's function,
      on the storage as it is at that point, and may call back into the
      registry before it answers.  The environment field
      [onERC721Received] is that code, as a computation on the registry's
      storage.
    - None of the registry's functions is [payable]: a call that carries
      value reverts, with no data, before the function's modifiers run
      ([nonPayable], [message]). *)

From stdpp Require Import gmap strings pretty list fin_maps relations.
From Stdlib Require Import ZArith Lia.

Open Scope Z_scope.

(** ** Basic types *)

Abbreviation address := Z (only parsing).
Abbreviation uint256 := Z (only parsing).

(** [2^256], the modulus of [uint256] arithmetic. *)
Definition UINT256_MODULUS : Z := 2 ^ 256.
Definition MAX_UINT256 : Z := UINT256_MODULUS - 1.

(** [bytes32] role identifiers.  The three [keccak256] constants and the
    zero role [DEFAULT_ADMIN_ROLE] are pairwise distinct; any other
    identifier is [OtherRole]. *)
Inductive Role :=
  | DEFAULT_ADMIN_ROLE
  | MINTER_ROLE
  | ADMIN_ROLE
  | VERIFIER_ROLE
  | OtherRole (id : Z).

#[global] Instance Role_eq_dec : EqDecision Role.
Proof. solve_decision. Defined.

#[global] Instance Role_countable : Countable Role.
Proof.
  refine (inj_countable'
    (λ r, match r with
          | DEFAULT_ADMIN_ROLE => inl 0%nat
          | MINTER_ROLE => inl 1%nat
          | ADMIN_ROLE => inl 2%nat
          | VERIFIER_ROLE => inl 3%nat
          | OtherRole z => inr z
          end)
    (λ x, match x with
          | inl 0%nat => DEFAULT_ADMIN_ROLE
          | inl 1%nat => MINTER_ROLE
          | inl 2%nat => ADMIN_ROLE
          | inl _ => VERIFIER_ROLE
          | inr z => OtherRole z
          end) _).
  by intros [].
Defined.

(** [enum CertificateType { REGULAR, SEMESTER, ACHIEVEMENT, CUSTOM }] *)
Inductive CertificateType := REGULAR | SEMESTER | ACHIEVEMENT | CUSTOM.

#[global] Instance CertificateType_eq_dec : EqDecision CertificateType.
Proof. solve_decision. Defined.

Record CertificateConfig := mkConfig {
  certType : CertificateType;
  isRevoked : bool;
  issuer : address;
  issueDate : uint256
}.

(** The value of an unwritten [certConfigs] slot. *)
Definition zeroConfig : CertificateConfig :=
  {| certType := REGULAR; isRevoked := false; issuer := 0; issueDate := 0 |}.

Record SemesterParams := mkSemesterParams {
  serialNo : string;
  memoNo : string;
  regdNo : string;
  branch : string;
  examination : string;
  sgpa : uint256
}.

(** Revert reasons: the contract's custom errors, then those of the
    inherited OpenZeppelin contracts, then compiler panics. *)
Inductive Error :=
  | InvalidInput
  | Unauthorized
  | NotFound
  | AlreadyExists
  | Revoked
  | BatchLimit
  | LengthMismatch
  | AccessControlUnauthorizedAccount (account : address) (role : Role)
  | AccessControlBadConfirmation
  | EnforcedPause
  | ExpectedPause
  | ERC721InvalidReceiver (receiver : address)
  | ERC721InvalidSender (sender : address)
  | ERC721NonexistentToken (tokenId : uint256)
  | ERC721IncorrectOwner (sender : address) (tokenId : uint256) (owner : address)
  | ERC721InsufficientApproval (operator : address) (tokenId : uint256)
  | ERC721InvalidApprover (approver : address)
  | ERC721InvalidOperator (operator : address)
  | Panic (code : Z)
  (* a revert without data: value sent to a function that is not
     payable, a call to a function the callee does not have *)
  | EmptyRevert
  (* revert data that is none of the above, raised by foreign code *)
  | Foreign (data : string).

Inductive Event :=
  | CertificateIssued (tokenId : uint256) (student : address) (ipfsHash : string)
      (cType : CertificateType) (timestamp : uint256)
  | RegularCertDetails (id : uint256) (course grade : string)
  | SemesterCertDetails (id : uint256) (serial memo : string) (sgpaVal : uint256)
  | AchievementCertDetails (id : uint256) (title category : string)
  | CustomCertDetails (id : uint256) (templateId : string)
  | CertRevoked (tokenId : uint256) (admin : address)
  | CertVerified (tokenId : uint256) (verifier : address) (isValid : bool)
  | Transfer (from to : address) (tokenId : uint256)
  | Approval (owner approved : address) (tokenId : uint256)
  | ApprovalForAll (owner operator : address) (approved : bool)
  | MetadataUpdate (tokenId : uint256)
  | RoleGranted (role : Role) (account sender : address)
  | RoleRevoked (role : Role) (account sender : address)
  | Paused (account : address)
  | Unpaused (account : address).

(** ** Storage *)

Record State := mkState {
  (* CertificateNFT *)
  tokenIdCounter : uint256;
  baseTokenURI : string;
  certConfigs : gmap Z CertificateConfig;
  studentCertificates : gmap Z (list Z);
  usedHashes : gmap string bool;
  usedUniqueIdentifiers : gmap string bool;
  (* ERC721 / ERC721URIStorage *)
  owners : gmap Z Z;
  balances : gmap Z Z;
  tokenApprovals : gmap Z Z;
  operatorApprovals : gmap (Z * Z) bool;
  tokenURIs : gmap Z string;
  (* AccessControl, Pausable *)
  roles : gmap (Role * Z) bool;
  paused : bool;
  (* event log *)
  logs : list Event
}.

Definition set_tokenIdCounter (v : uint256) (s : State) : State :=
  mkState v (baseTokenURI s) (certConfigs s) (studentCertificates s) (usedHashes s)
    (usedUniqueIdentifiers s) (owners s) (balances s) (tokenApprovals s)
    (operatorApprovals s) (tokenURIs s) (roles s) (paused s) (logs s).
Definition set_baseTokenURI (v : string) (s : State) : State :=
  mkState (tokenIdCounter s) v (certConfigs s) (studentCertificates s) (usedHashes s)
    (usedUniqueIdentifiers s) (owners s) (balances s) (tokenApprovals s)
    (operatorApprovals s) (tokenURIs s) (roles s) (paused s) (logs s).
Definition set_certConfigs (v : gmap Z CertificateConfig) (s : State) : State :=
  mkState (tokenIdCounter s) (baseTokenURI s) v (studentCertificates s) (usedHashes s)
    (usedUniqueIdentifiers s) (owners s) (balances s) (tokenApprovals s)
    (operatorApprovals s) (tokenURIs s) (roles s) (paused s) (logs s).
Definition set_studentCertificates (v : gmap Z (list Z)) (s : State) : State :=
  mkState (tokenIdCounter s) (baseTokenURI s) (certConfigs s) v (usedHashes s)
    (usedUniqueIdentifiers s) (owners s) (balances s) (tokenApprovals s)
    (operatorApprovals s) (tokenURIs s) (roles s) (paused s) (logs s).
Definition set_usedHashes (v : gmap string bool) (s : State) : State :=
  mkState (tokenIdCounter s) (baseTokenURI s) (certConfigs s) (studentCertificates s) v
    (usedUniqueIdentifiers s) (owners s) (balances s) (tokenApprovals s)
    (operatorApprovals s) (tokenURIs s) (roles s) (paused s) (logs s).
Definition set_usedUniqueIdentifiers (v : gmap string bool) (s : State) : State :=
  mkState (tokenIdCounter s) (baseTokenURI s) (certConfigs s) (studentCertificates s)
    (usedHashes s) v (owners s) (balances s) (tokenApprovals s)
    (operatorApprovals s) (tokenURIs s) (roles s) (paused s) (logs s).
Definition set_owners (v : gmap Z Z) (s : State) : State :=
  mkState (tokenIdCounter s) (baseTokenURI s) (certConfigs s) (studentCertificates s)
    (usedHashes s) (usedUniqueIdentifiers s) v (balances s) (tokenApprovals s)
    (operatorApprovals s) (tokenURIs s) (roles s) (paused s) (logs s).
Definition set_balances (v : gmap Z Z) (s : State) : State :=
  mkState (tokenIdCounter s) (baseTokenURI s) (certConfigs s) (studentCertificates s)
    (usedHashes s) (usedUniqueIdentifiers s) (owners s) v (tokenApprovals s)
    (operatorApprovals s) (tokenURIs s) (roles s) (paused s) (logs s).
Definition set_tokenApprovals (v : gmap Z Z) (s : State) : State :=
  mkState (tokenIdCounter s) (baseTokenURI s) (certConfigs s) (studentCertificates s)
    (usedHashes s) (usedUniqueIdentifiers s) (owners s) (balances s) v
    (operatorApprovals s) (tokenURIs s) (roles s) (paused s) (logs s).
Definition set_operatorApprovals (v : gmap (Z * Z) bool) (s : State) : State :=
  mkState (tokenIdCounter s) (baseTokenURI s) (certConfigs s) (studentCertificates s)
    (usedHashes s) (usedUniqueIdentifiers s) (owners s) (balances s) (tokenApprovals s)
    v (tokenURIs s) (roles s) (paused s) (logs s).
Definition set_tokenURIs (v : gmap Z string) (s : State) : State :=
  mkState (tokenIdCounter s) (baseTokenURI s) (certConfigs s) (studentCertificates s)
    (usedHashes s) (usedUniqueIdentifiers s) (owners s) (balances s) (tokenApprovals s)
    (operatorApprovals s) v (roles s) (paused s) (logs s).
Definition set_roles (v : gmap (Role * Z) bool) (s : State) : State :=
  mkState (tokenIdCounter s) (baseTokenURI s) (certConfigs s) (studentCertificates s)
    (usedHashes s) (usedUniqueIdentifiers s) (owners s) (balances s) (tokenApprovals s)
    (operatorApprovals s) (tokenURIs s) v (paused s) (logs s).
Definition set_paused (v : bool) (s : State) : State :=
  mkState (tokenIdCounter s) (baseTokenURI s) (certConfigs s) (studentCertificates s)
    (usedHashes s) (usedUniqueIdentifiers s) (owners s) (balances s) (tokenApprovals s)
    (operatorApprovals s) (tokenURIs s) (roles s) v (logs s).
Definition set_logs (v : list Event) (s : State) : State :=
  mkState (tokenIdCounter s) (baseTokenURI s) (certConfigs s) (studentCertificates s)
    (usedHashes s) (usedUniqueIdentifiers s) (owners s) (balances s) (tokenApprovals s)
    (operatorApprovals s) (tokenURIs s) (roles s) (paused s) v.

(** Storage before the constructor runs: every slot is zero. *)
Definition emptyState : State :=
  mkState 0 "" ∅ ∅ ∅ ∅ ∅ ∅ ∅ ∅ ∅ ∅ false [].

(** Mapping reads, with Solidity's default for an unwritten key. *)
Definition certConfigs_at (s : State) (tokenId : uint256) : CertificateConfig :=
  default zeroConfig (certConfigs s !! tokenId).
Definition studentCertificates_at (s : State) (student : address) : list Z :=
  default [] (studentCertificates s !! student).
Definition usedHashes_at (s : State) (h : string) : bool :=
  default false (usedHashes s !! h).
Definition usedUniqueIdentifiers_at (s : State) (k : string) : bool :=
  default false (usedUniqueIdentifiers s !! k).
Definition balances_at (s : State) (a : address) : uint256 :=
  default 0 (balances s !! a).
Definition tokenApprovals_at (s : State) (tokenId : uint256) : address :=
  default 0 (tokenApprovals s !! tokenId).
Definition operatorApprovals_at (s : State) (owner operator : address) : bool :=
  default false (operatorApprovals s !! (owner, operator)).
Definition tokenURIs_at (s : State) (tokenId : uint256) : string :=
  default "" (tokenURIs s !! tokenId).

(** ** The state-and-revert monad *)

Inductive Result (A : Type) :=
  | Ok (a : A)
  | Err (e : Error).
Arguments Ok {A} a.
Arguments Err {A} e.

Definition M (A : Type) : Type := State -> Result (A * State).

#[global] Instance M_ret : MRet M := λ A a s, Ok (a, s).
#[global] Instance M_bind : MBind M := λ A B f m s,
  match m s with
  | Ok (a, s') => f a s'
  | Err e => Err e
  end.

Definition revert {A} (e : Error) : M A := λ _, Err e.
Definition gets {A} (f : State -> A) : M A := λ s, Ok (f s, s).
Definition modify (f : State -> State) : M unit := λ s, Ok (tt, f s).
Definition emit (e : Event) : M unit := modify (λ s, set_logs (logs s ++ [e]) s).

(** [if (c) revert e;] *)
Definition revertIf (c : bool) (e : Error) : M unit :=
  if c then revert e else mret tt.

(** ** Call environment *)

Record Env := mkEnv {
  msg_sender : address;
  msg_value : uint256;
  block_timestamp : uint256;
  (** [onERC721Received env to operator from tokenId]: what the call
      [IERC721Receiver(to).onERC721Received(operator, from, tokenId, "")]
      does.  The recipient's code runs on the storage as the registry
      left it at the call and may call the registry before it answers.
      The result is the storage after those calls together with whether
      the returned value is the [onERC721Received] selector, or the data
      the recipient reverted with.  To an account without code no call
      is made: its hook is [mret true]. *)
  onERC721Received : address -> address -> address -> uint256 -> M bool
}.

(** An external call as a transaction: a revert discards every effect of
    the call, so the storage afterwards is the storage before. *)
Definition transact {A} (m : M A) (s : State) : Result A * State :=
  match m s with
  | Ok (a, s') => (Ok a, s')
  | Err e => (Err e, s)
  end.

(** [for (uint256 i = start; i < start + count; i++) body(i)] *)
Fixpoint for_range (start count : nat) (body : nat -> M unit) : M unit :=
  match count with
  | O => mret tt
  | S k => body start ;; for_range (S start) k body
  end.

(** A calldata array read [a[i]]; out of range is [Panic(0x32)]. *)
Definition index {A} (a : list A) (i : nat) : M A :=
  match a !! i with
  | Some x => mret x
  | None => revert (Panic 50)
  end.

(** ** Inherited OpenZeppelin logic

    [AccessControl], [Pausable], [ERC721] and [ERC721URIStorage] are a
    dependency of the repository; the definitions below follow the v5
    library functions the contract calls or exposes. *)

Section Inherited.
Context (env : Env).

(* AccessControl *)

Definition hasRole (s : State) (role : Role) (account : address) : bool :=
  default false (roles s !! (role, account)).

(** [onlyRole(role)]: [_checkRole(role, _msgSender())] *)
Definition onlyRole (role : Role) : M unit :=
  ok ← gets (λ s, hasRole s role (msg_sender env));
  revertIf (negb ok) (AccessControlUnauthorizedAccount (msg_sender env) role).

(** No role admin is ever set, so every role is administered by
    [DEFAULT_ADMIN_ROLE]. *)
Definition getRoleAdmin (role : Role) : Role := DEFAULT_ADMIN_ROLE.

Definition _grantRole (role : Role) (account : address) : M bool :=
  has ← gets (λ s, hasRole s role account);
  if negb has then
    modify (λ s, set_roles (<[(role, account) := true]> (roles s)) s) ;;
    emit (RoleGranted role account (msg_sender env)) ;;
    mret true
  else mret false.

Definition _revokeRole (role : Role) (account : address) : M bool :=
  has ← gets (λ s, hasRole s role account);
  if (has : bool) then
    modify (λ s, set_roles (<[(role, account) := false]> (roles s)) s) ;;
    emit (RoleRevoked role account (msg_sender env)) ;;
    mret true
  else mret false.

Definition grantRole (role : Role) (account : address) : M unit :=
  onlyRole (getRoleAdmin role) ;;
  _grantRole role account ;; mret tt.

Definition revokeRole (role : Role) (account : address) : M unit :=
  onlyRole (getRoleAdmin role) ;;
  _revokeRole role account ;; mret tt.

Definition renounceRole (role : Role) (callerConfirmation : address) : M unit :=
  revertIf (negb (bool_decide (callerConfirmation = msg_sender env)))
    AccessControlBadConfirmation ;;
  _revokeRole role callerConfirmation ;; mret tt.

(* Pausable *)

Definition whenNotPaused : M unit :=
  p ← gets paused; revertIf p EnforcedPause.

Definition whenPaused : M unit :=
  p ← gets paused; revertIf (negb p) ExpectedPause.

Definition _pause : M unit :=
  whenNotPaused ;;
  modify (set_paused true) ;;
  emit (Paused (msg_sender env)).

Definition _unpause : M unit :=
  whenPaused ;;
  modify (set_paused false) ;;
  emit (Unpaused (msg_sender env)).

(* ERC721 *)

Definition _ownerOf (s : State) (tokenId : uint256) : address :=
  default 0 (owners s !! tokenId).

Definition _requireOwned (tokenId : uint256) : M address :=
  owner ← gets (λ s, _ownerOf s tokenId);
  revertIf (bool_decide (owner = 0)) (ERC721NonexistentToken tokenId) ;;
  mret owner.

Definition isApprovedForAll (s : State) (owner operator : address) : bool :=
  operatorApprovals_at s owner operator.

Definition _isAuthorized (s : State) (owner spender : address) (tokenId : uint256) : bool :=
  negb (bool_decide (spender = 0)) &&
  (bool_decide (owner = spender) || isApprovedForAll s owner spender
   || bool_decide (tokenApprovals_at s tokenId = spender)).

Definition _checkAuthorized (owner spender : address) (tokenId : uint256) : M unit :=
  ok ← gets (λ s, _isAuthorized s owner spender tokenId);
  if negb ok then
    if bool_decide (owner = 0) then revert (ERC721NonexistentToken tokenId)
    else revert (ERC721InsufficientApproval spender tokenId)
  else mret tt.

(** [_approve(to, tokenId, auth, emitEvent)] *)
Definition _approve (to : address) (tokenId : uint256) (auth : address)
    (emitEvent : bool) : M unit :=
  (if emitEvent || negb (bool_decide (auth = 0)) then
     owner ← _requireOwned tokenId;
     approvedAll ← gets (λ s, isApprovedForAll s owner auth);
     revertIf (negb (bool_decide (auth = 0)) && negb (bool_decide (owner = auth))
               && negb approvedAll) (ERC721InvalidApprover auth) ;;
     (if emitEvent then emit (Approval owner to tokenId) else mret tt)
   else mret tt) ;;
  modify (λ s, set_tokenApprovals (<[tokenId := to]> (tokenApprovals s)) s).

(** [_update(to, tokenId, auth)]; the balance arithmetic is [unchecked]. *)
Definition _update (to : address) (tokenId : uint256) (auth : address) : M address :=
  from ← gets (λ s, _ownerOf s tokenId);
  (if negb (bool_decide (auth = 0)) then _checkAuthorized from auth tokenId else mret tt) ;;
  (if negb (bool_decide (from = 0)) then
     _approve 0 tokenId 0 false ;;
     modify (λ s, set_balances
       (<[from := (balances_at s from - 1) mod UINT256_MODULUS]> (balances s)) s)
   else mret tt) ;;
  (if negb (bool_decide (to = 0)) then
     modify (λ s, set_balances
       (<[to := (balances_at s to + 1) mod UINT256_MODULUS]> (balances s)) s)
   else mret tt) ;;
  modify (λ s, set_owners (<[tokenId := to]> (owners s)) s) ;;
  emit (Transfer from to tokenId) ;;
  mret from.

Definition _mint (to : address) (tokenId : uint256) : M unit :=
  revertIf (bool_decide (to = 0)) (ERC721InvalidReceiver 0) ;;
  previousOwner ← _update to tokenId 0;
  revertIf (negb (bool_decide (previousOwner = 0))) (ERC721InvalidSender 0).

(** [ERC721Utils.checkOnERC721Received(_msgSender(), from, to, tokenId, "")]:
    a returned value other than the selector and a revert without data
    both give [ERC721InvalidReceiver(to)]; any other revert data is passed
    on as it is. *)
Definition checkOnERC721Received (from to : address) (tokenId : uint256) : M unit :=
  λ s, match onERC721Received env to (msg_sender env) from tokenId s with
       | Ok (retvalIsSelector, s') =>
           if (retvalIsSelector : bool) then Ok (tt, s')
           else Err (ERC721InvalidReceiver to)
       | Err EmptyRevert => Err (ERC721InvalidReceiver to)
       | Err reason => Err reason
       end.

Definition _safeMint (to : address) (tokenId : uint256) : M unit :=
  _mint to tokenId ;;
  checkOnERC721Received 0 to tokenId.

Definition approve (to : address) (tokenId : uint256) : M unit :=
  _approve to tokenId (msg_sender env) true.

Definition setApprovalForAll (operator : address) (approved : bool) : M unit :=
  revertIf (bool_decide (operator = 0)) (ERC721InvalidOperator operator) ;;
  modify (λ s, set_operatorApprovals
    (<[(msg_sender env, operator) := approved]> (operatorApprovals s)) s) ;;
  emit (ApprovalForAll (msg_sender env) operator approved).

Definition transferFrom (from to : address) (tokenId : uint256) : M unit :=
  revertIf (bool_decide (to = 0)) (ERC721InvalidReceiver 0) ;;
  previousOwner ← _update to tokenId (msg_sender env);
  revertIf (negb (bool_decide (previousOwner = from)))
    (ERC721IncorrectOwner from tokenId previousOwner).

Definition safeTransferFrom (from to : address) (tokenId : uint256) : M unit :=
  transferFrom from to tokenId ;;
  checkOnERC721Received from to tokenId.

(* ERC721URIStorage *)

(** [ERC721._baseURI()]; the contract does not override it
    ([_baseTokenURI] is written by [setBaseURI] and never read). *)
Definition _baseURI : string := "".

Definition _setTokenURI (tokenId : uint256) (_tokenURI : string) : M unit :=
  modify (λ s, set_tokenURIs (<[tokenId := _tokenURI]> (tokenURIs s)) s) ;;
  emit (MetadataUpdate tokenId).

(** [ERC721.tokenURI]: the base followed by the decimal token id, or
    the empty string when the base is empty. *)
Definition ERC721_tokenURI (tokenId : uint256) : M string :=
  _requireOwned tokenId ;;
  let baseURI := _baseURI in
  if bool_decide (0 < String.length baseURI)%nat
  then mret (baseURI +:+ pretty tokenId)
  else mret "".

(** [ERC721URIStorage.tokenURI], which the contract's [tokenURI] calls
    as [super.tokenURI].  With an empty base the stored string is
    returned as it is. *)
Definition super_tokenURI (tokenId : uint256) : M string :=
  _requireOwned tokenId ;;
  _tokenURI ← gets (λ s, tokenURIs_at s tokenId);
  let base := _baseURI in
  if bool_decide (String.length base = 0%nat) then mret _tokenURI
  else if bool_decide (0 < String.length _tokenURI)%nat
       then mret (base +:+ _tokenURI)
       else ERC721_tokenURI tokenId.

End Inherited.

(** ** The contract *)

Definition MAX_BATCH_SIZE : Z := 50.

Definition set_isRevoked (v : bool) (c : CertificateConfig) : CertificateConfig :=
  {| certType := certType c; isRevoked := v; issuer := issuer c; issueDate := issueDate c |}.

Section Contract.
Context (env : Env).

Definition constructor : M unit :=
  _grantRole env DEFAULT_ADMIN_ROLE (msg_sender env) ;;
  _grantRole env ADMIN_ROLE (msg_sender env) ;;
  _grantRole env MINTER_ROLE (msg_sender env) ;;
  mret tt.

(* --- Core Internal Logic --- *)

Definition _mintBase (to : address) (ipfsHash : string) (cType : CertificateType)
    : M uint256 :=
  revertIf (bool_decide (to = 0)) InvalidInput ;;
  revertIf (bool_decide (String.length ipfsHash = 0%nat)) InvalidInput ;;
  used ← gets (λ s, usedHashes_at s ipfsHash);
  revertIf used AlreadyExists ;;
  (* _tokenIdCounter++ *)
  c ← gets tokenIdCounter;
  revertIf (bool_decide (c + 1 > MAX_UINT256)) (Panic 17) ;;
  modify (set_tokenIdCounter (c + 1)) ;;
  tokenId ← gets tokenIdCounter;
  _safeMint env to tokenId ;;
  _setTokenURI tokenId ipfsHash ;;
  modify (λ s, set_certConfigs
    (<[tokenId := {| certType := cType; isRevoked := false;
                     issuer := msg_sender env;
                     issueDate := block_timestamp env |}]> (certConfigs s)) s) ;;
  modify (λ s, set_studentCertificates
    (<[to := studentCertificates_at s to ++ [tokenId]]> (studentCertificates s)) s) ;;
  modify (λ s, set_usedHashes (<[ipfsHash := true]> (usedHashes s)) s) ;;
  emit (CertificateIssued tokenId to ipfsHash cType (block_timestamp env)) ;;
  mret tokenId.

(* --- Public Minting Functions --- *)

(** The body of the batch loop at index [i]. *)
Definition batchBody (students : list address)
    (courseNames grades ipfsHashes : list string) (i : nat) : M unit :=
  student ← index students i;
  ipfsHash ← index ipfsHashes i;
  tid ← _mintBase student ipfsHash REGULAR;
  courseName ← index courseNames i;
  grade ← index grades i;
  emit (RegularCertDetails tid courseName grade).

Definition mintCertificatesBatch (students : list address)
    (courseNames grades ipfsHashes : list string) : M unit :=
  onlyRole env MINTER_ROLE ;;
  whenNotPaused ;;
  let len := length students in
  revertIf (bool_decide (Z.of_nat len > MAX_BATCH_SIZE)) BatchLimit ;;
  revertIf (negb (bool_decide (length courseNames = len))
            || negb (bool_decide (length grades = len))
            || negb (bool_decide (length ipfsHashes = len))) LengthMismatch ;;
  for_range 0 len (batchBody students courseNames grades ipfsHashes).

Definition mintCertificate (student : address) (courseName grade ipfsHash : string)
    : M uint256 :=
  onlyRole env MINTER_ROLE ;;
  whenNotPaused ;;
  tid ← _mintBase student ipfsHash REGULAR;
  emit (RegularCertDetails tid courseName grade) ;;
  mret tid.

Definition mintSemesterCertificate (student : address) (params : SemesterParams)
    (ipfsHash : string) : M uint256 :=
  onlyRole env MINTER_ROLE ;;
  whenNotPaused ;;
  usedSerial ← gets (λ s, usedUniqueIdentifiers_at s (serialNo params));
  usedMemo ← gets (λ s, usedUniqueIdentifiers_at s (memoNo params));
  revertIf (usedSerial || usedMemo) AlreadyExists ;;
  tid ← _mintBase student ipfsHash SEMESTER;
  modify (λ s, set_usedUniqueIdentifiers
    (<[serialNo params := true]> (usedUniqueIdentifiers s)) s) ;;
  modify (λ s, set_usedUniqueIdentifiers
    (<[memoNo params := true]> (usedUniqueIdentifiers s)) s) ;;
  emit (SemesterCertDetails tid (serialNo params) (memoNo params) (sgpa params)) ;;
  mret tid.

(** The last argument, [verifiers], is unnamed in the source. *)
Definition mintAchievementCertificate (student : address)
    (title category ipfsHash : string) (_ : list address) : M uint256 :=
  onlyRole env MINTER_ROLE ;;
  whenNotPaused ;;
  tid ← _mintBase student ipfsHash ACHIEVEMENT;
  emit (AchievementCertDetails tid title category) ;;
  mret tid.

(** [fieldNames] and [fieldValues] are unnamed in the source. *)
Definition mintCustomCertificate (student : address) (templateId : string)
    (_ _ : list string) (ipfsHash : string) : M uint256 :=
  onlyRole env MINTER_ROLE ;;
  whenNotPaused ;;
  tid ← _mintBase student ipfsHash CUSTOM;
  emit (CustomCertDetails tid templateId) ;;
  mret tid.

(* --- Admin & Verification --- *)

Definition revokeCertificate (tokenId : uint256) : M unit :=
  onlyRole env ADMIN_ROLE ;;
  owner ← gets (λ s, _ownerOf s tokenId);
  revertIf (bool_decide (owner = 0)) NotFound ;;
  conf ← gets (λ s, certConfigs_at s tokenId);
  revertIf (isRevoked conf) Revoked ;;
  modify (λ s, set_certConfigs
    (<[tokenId := set_isRevoked true (certConfigs_at s tokenId)]> (certConfigs s)) s) ;;
  emit (CertRevoked tokenId (msg_sender env)).

Definition tokenURI (tokenId : uint256) : M string :=
  super_tokenURI tokenId.

Definition verifyCertificate (tokenId : uint256)
    : M (bool * string * CertificateType) :=
  owner ← gets (λ s, _ownerOf s tokenId);
  if bool_decide (owner = 0) then mret (false, "", REGULAR)
  else
    conf ← gets (λ s, certConfigs_at s tokenId);
    if isRevoked conf then mret (false, "", certType conf)
    else
      uri ← tokenURI tokenId;
      mret (true, uri, certType conf).

Definition verifyCertificateByVerifier (tokenId : uint256)
    : M (bool * CertificateType) :=
  onlyRole env VERIFIER_ROLE ;;
  r ← verifyCertificate tokenId;
  let '(valid, _, cType) := r in
  emit (CertVerified tokenId (msg_sender env) valid) ;;
  mret (valid, cType).

Definition getStudentCertificates (student : address) : M (list uint256) :=
  gets (λ s, studentCertificates_at s student).

Definition setBaseURI (baseURI : string) : M unit :=
  onlyRole env ADMIN_ROLE ;;
  modify (set_baseTokenURI baseURI).

Definition pause : M unit := onlyRole env ADMIN_ROLE ;; _pause env.
Definition unpause : M unit := onlyRole env ADMIN_ROLE ;; _unpause env.

End Contract.

(** ** The external interface as a transition system *)

(** The state-changing entry points of the deployed contract: its own
    functions and the ones inherited from ERC721 and AccessControl. *)
Inductive Call :=
  | MintCertificatesBatch (students : list address)
      (courseNames grades ipfsHashes : list string)
  | MintCertificate (student : address) (courseName grade ipfsHash : string)
  | MintSemesterCertificate (student : address) (params : SemesterParams)
      (ipfsHash : string)
  | MintAchievementCertificate (student : address) (title category ipfsHash : string)
      (verifiers : list address)
  | MintCustomCertificate (student : address) (templateId : string)
      (fieldNames fieldValues : list string) (ipfsHash : string)
  | RevokeCertificate (tokenId : uint256)
  | VerifyCertificateByVerifier (tokenId : uint256)
  | SetBaseURI (baseURI : string)
  | Pause
  | Unpause
  | GrantRole (role : Role) (account : address)
  | RevokeRole (role : Role) (account : address)
  | RenounceRole (role : Role) (callerConfirmation : address)
  | Approve (to : address) (tokenId : uint256)
  | SetApprovalForAll (operator : address) (approved : bool)
  | TransferFrom (from to : address) (tokenId : uint256)
  | SafeTransferFrom (from to : address) (tokenId : uint256).

Definition void {A} (m : M A) : M unit := m ;; mret tt.

Definition dispatch (env : Env) (c : Call) : M unit :=
  match c with
  | MintCertificatesBatch st cn gr hs => mintCertificatesBatch env st cn gr hs
  | MintCertificate st cn gr h => void (mintCertificate env st cn gr h)
  | MintSemesterCertificate st p h => void (mintSemesterCertificate env st p h)
  | MintAchievementCertificate st t c h vs =>
      void (mintAchievementCertificate env st t c h vs)
  | MintCustomCertificate st t fn fv h => void (mintCustomCertificate env st t fn fv h)
  | RevokeCertificate tokenId => revokeCertificate env tokenId
  | VerifyCertificateByVerifier tokenId => void (verifyCertificateByVerifier env tokenId)
  | SetBaseURI b => setBaseURI env b
  | Pause => pause env
  | Unpause => unpause env
  | GrantRole r a => grantRole env r a
  | RevokeRole r a => revokeRole env r a
  | RenounceRole r a => renounceRole env r a
  | Approve to tokenId => approve env to tokenId
  | SetApprovalForAll o a => setApprovalForAll env o a
  | TransferFrom f t tokenId => transferFrom env f t tokenId
  | SafeTransferFrom f t tokenId => safeTransferFrom env f t tokenId
  end.

(** The five minting entry points. *)
Definition isMint (c : Call) : bool :=
  match c with
  | MintCertificatesBatch _ _ _ _ | MintCertificate _ _ _ _
  | MintSemesterCertificate _ _ _ | MintAchievementCertificate _ _ _ _ _
  | MintCustomCertificate _ _ _ _ _ => true
  | _ => false
  end.

(** The four entry points that mint one certificate and return its id. *)
Definition singleMint (env : Env) (c : Call) : option (M uint256) :=
  match c with
  | MintCertificate st cn gr h => Some (mintCertificate env st cn gr h)
  | MintSemesterCertificate st p h => Some (mintSemesterCertificate env st p h)
  | MintAchievementCertificate st t c h vs =>
      Some (mintAchievementCertificate env st t c h vs)
  | MintCustomCertificate st t fn fv h => Some (mintCustomCertificate env st t fn fv h)
  | _ => None
  end.

(** The student a single-mint call names. *)
Definition recipient (c : Call) : address :=
  match c with
  | MintCertificate st _ _ _ | MintSemesterCertificate st _ _
  | MintAchievementCertificate st _ _ _ _ | MintCustomCertificate st _ _ _ _ => st
  | _ => 0
  end.

(** The content hash a single-mint call names. *)
Definition contentHash (c : Call) : string :=
  match c with
  | MintCertificate _ _ _ h | MintSemesterCertificate _ _ h
  | MintAchievementCertificate _ _ _ h _ | MintCustomCertificate _ _ _ _ h => h
  | _ => ""
  end.

(** The entry of a function that is not [payable]: a call that carries
    value reverts without data. *)
Definition nonPayable {A} (env : Env) (body : M A) : M A :=
  if bool_decide (msg_value env = 0) then body else revert EmptyRevert.

(** A call message to the deployed contract. *)
Definition message (env : Env) (c : Call) : M unit :=
  nonPayable env (dispatch env c).


(** ** What recipient hooks can do

    A hook changes the registry's storage only by calling the registry.
    [hooksWithin R env]: whenever a hook of [env] returns, the storage
    before and after it is related by [R]. *)
Definition hooksWithin (R : State -> State -> Prop) (env : Env) : Prop :=
  ∀ to operator from tokenId s r s',
    onERC721Received env to operator from tokenId s = Ok (r, s') → R s s'.

(** Hooks that do not call the registry: accounts without code, and
    contracts that answer without calling back. *)
Definition passive (env : Env) : Prop := hooksWithin eq env.

(** [nested depth s s']: [s'] comes from [s] by a sequence of successful
    calls to the registry, by callers other than the zero address, whose
    own hooks nest calls at most [depth - 1] deep. *)
Fixpoint nested (depth : nat) (s s' : State) : Prop :=
  match depth with
  | O => s = s'
  | S d =>
      rtc (λ a b, ∃ env c, msg_sender env ≠ 0 ∧ hooksWithin (nested d) env ∧
                           message env c a = Ok (tt, b)) s s'
  end.

(** The hooks of [env] are code: what they do to the storage, they do
    through calls to the registry, nested to some finite depth. *)
Definition admissible (env : Env) : Prop :=
  ∃ depth, hooksWithin (nested depth) env.

(** One committed transaction. *)
Definition step (s s' : State) : Prop :=
  ∃ env c, admissible env ∧ message env c s = Ok (tt, s').

(** Any number of committed transactions, by any callers. *)
Definition steps : State -> State -> Prop := rtc step.

(** The storage right after deployment by some account; the constructor
    is not [payable] either. *)
Definition deployed (s : State) : Prop :=
  ∃ env, nonPayable env (constructor env) emptyState = Ok (tt, s).

Definition reachable (s : State) : Prop :=
  ∃ s0, deployed s0 ∧ steps s0 s.

(** ** Test scenarios *)

Module Scenario.
Definition admin : address := 1000.
Definition alice : address := 2001.
Definition bob : address := 2002.
(** No recipient of the scenarios has code, unless said otherwise. *)
Definition noCode : address -> address -> address -> uint256 -> M bool :=
  λ _ _ _ _, mret true.
Definition env_admin : Env := mkEnv admin 0 1700000000 noCode.

(** Runs [m] and keeps the resulting storage; a revert keeps [s]. *)
Definition after {A} (m : M A) (s : State) : State := (transact m s).2.

Definition s0 : State := after (constructor env_admin) emptyState.
Definition s1 : State := after (mintCertificate env_admin alice "Course" "A" "H1") s0.
Definition s1_paused : State := after (pause env_admin) s1.
Definition s2 : State := after (mintCertificate env_admin bob "Course" "B" "H2") s1.
Definition semester1 : SemesterParams :=
  mkSemesterParams "SN-1" "MEMO-1" "R1" "CSE" "Sem 1" 912.
Definition semester2 : SemesterParams :=
  mkSemesterParams "SN-1" "MEMO-2" "R2" "ECE" "Sem 1" 850.
Definition carol : address := 2003.
(** Twelve certificates in one batch; the 5th, 9th and 12th go to carol. *)
Definition batch12 : Call :=
  MintCertificatesBatch
    [bob; bob; bob; bob; carol; bob; bob; bob; carol; bob; bob; carol]
    ["c1"; "c2"; "c3"; "c4"; "c5"; "c6"; "c7"; "c8"; "c9"; "c10"; "c11"; "c12"]
    ["A"; "A"; "A"; "A"; "A"; "A"; "A"; "A"; "A"; "A"; "A"; "A"]
    ["h1"; "h2"; "h3"; "h4"; "h5"; "h6"; "h7"; "h8"; "h9"; "h10"; "h11"; "h12"].
Definition s_batch : State := after (dispatch env_admin batch12) s0.
Definition s_sem : State :=
  after (mintSemesterCertificate env_admin alice semester1 "HS1") s0.
End Scenario.
(** * Verification *)

(** ** Running the monad *)

Lemma bind_Ok {A B} (m : M A) (f : A -> M B) (s : State) (r : B * State) :
  (m ≫= f) s = Ok r ↔ ∃ a s1, m s = Ok (a, s1) ∧ f a s1 = Ok r.
Proof.
  unfold mbind, M_bind. destruct (m s) as [[a s1]|e]; split.
  - eauto.
  - intros (a' & s1' & [= -> ->] & H). done.
  - done.
  - intros (? & ? & [=] & _).
Qed.

Lemma transact_Err {A} (m : M A) (s : State) (e : Error) :
  m s = Err e → transact m s = (Err e, s).
Proof. unfold transact. by intros ->. Qed.

Lemma transact_Ok {A} (m : M A) (s s' : State) (a : A) :
  m s = Ok (a, s') → transact m s = (Ok a, s').
Proof. unfold transact. by intros ->. Qed.

Lemma void_Ok {A} (m : M A) (s s' : State) :
  void m s = Ok (tt, s') ↔ ∃ a, m s = Ok (a, s').
Proof.
  unfold void. rewrite bind_Ok. split.
  - intros (a & s1 & H & [= ->]). eauto.
  - intros (a & H). eauto.
Qed.

Lemma void_Err {A} (m : M A) (s : State) (e : Error) :
  void m s = Err e ↔ m s = Err e.
Proof.
  unfold void, mbind, M_bind, mret, M_ret.
  destruct (m s) as [[]|]; split; congruence.
Qed.

(** Unfolds the monad operations so that a straight-line computation
    reduces by [simpl]. *)
Ltac munfold :=
  unfold mbind, M_bind, mret, M_ret, gets, modify, emit, revertIf, revert in *.

(** Two storages are equal when their fields are.  Nested setters are
    compared field by field, never unfolded as a whole. *)
Lemma State_eq (s1 s2 : State) :
  tokenIdCounter s1 = tokenIdCounter s2 →
  baseTokenURI s1 = baseTokenURI s2 →
  certConfigs s1 = certConfigs s2 →
  studentCertificates s1 = studentCertificates s2 →
  usedHashes s1 = usedHashes s2 →
  usedUniqueIdentifiers s1 = usedUniqueIdentifiers s2 →
  owners s1 = owners s2 →
  balances s1 = balances s2 →
  tokenApprovals s1 = tokenApprovals s2 →
  operatorApprovals s1 = operatorApprovals s2 →
  tokenURIs s1 = tokenURIs s2 →
  roles s1 = roles s2 →
  paused s1 = paused s2 →
  logs s1 = logs s2 →
  s1 = s2.
Proof. destruct s1, s2. simpl. by intros -> -> -> -> -> -> -> -> -> -> -> -> -> ->. Qed.

(** ** The modifiers *)

Lemma onlyRole_run env role s :
  onlyRole env role s =
    if hasRole s role (msg_sender env) then Ok (tt, s)
    else Err (AccessControlUnauthorizedAccount (msg_sender env) role).
Proof. unfold onlyRole. munfold. by destruct (hasRole _ _ _). Qed.

Lemma whenNotPaused_run s :
  whenNotPaused s = if paused s then Err EnforcedPause else Ok (tt, s).
Proof. unfold whenNotPaused. munfold. by destruct (paused s). Qed.


(** ** Messages *)

Lemma nonPayable_Ok {A} env (m : M A) s r :
  nonPayable env m s = Ok r ↔ msg_value env = 0 ∧ m s = Ok r.
Proof.
  unfold nonPayable. case_bool_decide; split; try done.
  - by intros [_ ?].
  - by intros [? _].
Qed.

Lemma nonPayable_valued {A} env (m : M A) s :
  msg_value env ≠ 0 → nonPayable env m s = Err EmptyRevert.
Proof. intros Hv. unfold nonPayable. by rewrite bool_decide_eq_false_2. Qed.

Lemma nonPayable_plain {A} env (m : M A) s :
  msg_value env = 0 → nonPayable env m s = m s.
Proof. intros Hv. unfold nonPayable. by rewrite bool_decide_eq_true_2. Qed.

Lemma message_Ok env c s r :
  message env c s = Ok r ↔ msg_value env = 0 ∧ dispatch env c s = Ok r.
Proof. apply nonPayable_Ok. Qed.

(** ** The recipient hook *)

Lemma checkOnERC721Received_Ok env from to tokenId s s' :
  checkOnERC721Received env from to tokenId s = Ok (tt, s') ↔
  onERC721Received env to (msg_sender env) from tokenId s = Ok (true, s').
Proof.
  unfold checkOnERC721Received.
  destruct (onERC721Received _ _ _ _ _ _) as [[[] s1]|[]]; split; congruence.
Qed.

Lemma checkOnERC721Received_within R env from to tokenId s s' :
  hooksWithin R env → checkOnERC721Received env from to tokenId s = Ok (tt, s') → R s s'.
Proof. intros HR H%checkOnERC721Received_Ok. by eapply HR. Qed.

Lemma passive_admissible env : passive env → admissible env.
Proof. intros Hp. by exists 0%nat. Qed.

Lemma noCode_passive sender value timestamp :
  passive (mkEnv sender value timestamp Scenario.noCode).
Proof. by intros to operator from tokenId s r s' [= _ ->]. Qed.

(** ** [_mintBase] in closed form

    [_mintBase] checks its arguments, takes the next id and mints the
    token ([allocated]); then the recipient's hook runs; then the URI, the
    configuration, the student's index, the hash and the
    [CertificateIssued] record are written ([finalized]) to whatever
    storage the hook left. *)

(** The checks of [_mintBase] before the hook, in the order of the code;
    the last one is [_mint]'s, on the id about to be used. *)
Definition mintBase_entry (to : address) (ipfsHash : string) (s : State)
    : option Error :=
  if bool_decide (to = 0) then Some InvalidInput
  else if bool_decide (String.length ipfsHash = 0%nat) then Some InvalidInput
  else if usedHashes_at s ipfsHash then Some AlreadyExists
  else if bool_decide (tokenIdCounter s + 1 > MAX_UINT256) then Some (Panic 17)
  else if negb (bool_decide (_ownerOf s (tokenIdCounter s + 1) = 0))
       then Some (ERC721InvalidSender 0)
  else None.

(** The storage when the hook is called: the counter is incremented and
    the token belongs to [to]. *)
Definition allocated (to : address) (s : State) : State :=
  let tokenId := tokenIdCounter s + 1 in
  mkState tokenId (baseTokenURI s) (certConfigs s) (studentCertificates s)
    (usedHashes s) (usedUniqueIdentifiers s)
    (<[tokenId := to]> (owners s))
    (<[to := (balances_at s to + 1) mod UINT256_MODULUS]> (balances s))
    (tokenApprovals s) (operatorApprovals s) (tokenURIs s) (roles s) (paused s)
    (logs s ++ [Transfer 0 to tokenId]).

(** What [_mintBase] writes after the hook has returned. *)
Definition finalized (env : Env) (to : address) (tokenId : uint256)
    (ipfsHash : string) (cType : CertificateType) (s : State) : State :=
  mkState (tokenIdCounter s) (baseTokenURI s)
    (<[tokenId := {| certType := cType; isRevoked := false;
                     issuer := msg_sender env;
                     issueDate := block_timestamp env |}]> (certConfigs s))
    (<[to := studentCertificates_at s to ++ [tokenId]]> (studentCertificates s))
    (<[ipfsHash := true]> (usedHashes s))
    (usedUniqueIdentifiers s) (owners s) (balances s)
    (tokenApprovals s) (operatorApprovals s)
    (<[tokenId := ipfsHash]> (tokenURIs s))
    (roles s) (paused s)
    (logs s ++ [MetadataUpdate tokenId;
                CertificateIssued tokenId to ipfsHash cType (block_timestamp env)]).

Lemma _ownerOf_set_tokenIdCounter v s id :
  _ownerOf (set_tokenIdCounter v s) id = _ownerOf s id.
Proof. done. Qed.

Lemma _mintBase_run env to h cType s :
  _mintBase env to h cType s =
    match mintBase_entry to h s with
    | Some e => Err e
    | None =>
        match checkOnERC721Received env 0 to (tokenIdCounter s + 1) (allocated to s) with
        | Ok (_, s1) =>
            Ok (tokenIdCounter s + 1,
                finalized env to (tokenIdCounter s + 1) h cType s1)
        | Err e => Err e
        end
    end.
Proof.
  unfold _mintBase, mintBase_entry.
  munfold. simpl.
  case_bool_decide; [done|]. simpl.
  case_bool_decide; [done|]. simpl.
  destruct (usedHashes_at s h); [done|]. simpl.
  case_bool_decide; [done|]. simpl.
  unfold _safeMint, _mint, _update. munfold. simpl.
  rewrite bool_decide_eq_false_2 by done. simpl.
  rewrite _ownerOf_set_tokenIdCounter.
  destruct (decide (_ownerOf s (tokenIdCounter s + 1) = 0)) as [Ho|Ho].
  2:{ rewrite !(bool_decide_eq_false_2 _ Ho). simpl.
      by rewrite !(bool_decide_eq_false_2 _ Ho). }
  rewrite !(bool_decide_eq_true_2 _ Ho). simpl.
  rewrite !(bool_decide_eq_true_2 _ Ho). simpl.
  match goal with
  | |- context [checkOnERC721Received env 0 to _ ?mid] =>
      replace mid with (allocated to s) by (rewrite Ho; by apply State_eq)
  end.
  destruct (checkOnERC721Received _ _ _ _ _) as [[[] s1]|e]; [|done].
  do 2 f_equal. apply State_eq; simpl; try done. by rewrite <- !app_assoc.
Qed.

Lemma mintBase_entry_None to h s :
  mintBase_entry to h s = None ↔
  to ≠ 0 ∧ h ≠ "" ∧ usedHashes_at s h = false ∧
  tokenIdCounter s + 1 ≤ MAX_UINT256 ∧ _ownerOf s (tokenIdCounter s + 1) = 0.
Proof.
  unfold mintBase_entry.
  destruct (bool_decide_reflect (to = 0));
    [split; [done | by intros (? & _)]|].
  destruct (bool_decide_reflect (String.length h = 0%nat)) as [Hl|Hl];
    [split; [done | intros (_ & Hh & _); by destruct h]|].
  destruct (usedHashes_at s h);
    [split; [done | by intros (_ & _ & ? & _)]|].
  destruct (bool_decide_reflect (tokenIdCounter s + 1 > MAX_UINT256));
    [split; [done | intros (_ & _ & _ & ? & _); lia]|].
  destruct (bool_decide_reflect (_ownerOf s (tokenIdCounter s + 1) = 0)); simpl;
    [|split; [done | by intros (_ & _ & _ & _ & ?)]].
  split; [intros _; repeat split; auto; try lia; by intros -> | done].
Qed.

(** A [_mintBase] that returns: the checks passed, the hook returned the
    selector, and the rest was written to the storage the hook left. *)
Lemma _mintBase_Ok env to h cType s tid s' :
  _mintBase env to h cType s = Ok (tid, s') ↔
  mintBase_entry to h s = None ∧ tid = tokenIdCounter s + 1 ∧
  ∃ s1, onERC721Received env to (msg_sender env) 0 tid (allocated to s) = Ok (true, s1) ∧
        s' = finalized env to tid h cType s1.
Proof.
  rewrite _mintBase_run.
  destruct (mintBase_entry to h s); [split; [done | by intros ([=] & _)]|].
  destruct (checkOnERC721Received _ _ _ _ _) as [[[] s1]|e] eqn:Hc.
  - apply checkOnERC721Received_Ok in Hc. split.
    + intros [= <- <-]. eauto.
    + intros (_ & -> & s2 & Hs2 & ->). rewrite Hc in Hs2. by injection Hs2 as <-.
  - split; [done|]. intros (_ & -> & s2 & Hs2%checkOnERC721Received_Ok & _). congruence.
Qed.

(** ** The issuance log *)

Definition issuedOf (e : Event) : option (uint256 * address) :=
  match e with
  | CertificateIssued tokenId student _ _ _ => Some (tokenId, student)
  | _ => None
  end.

(** The [(tokenId, student)] pairs of the [CertificateIssued] records of
    a log, oldest first. *)
Definition issued (l : list Event) : list (uint256 * address) := omap issuedOf l.

(** The token ids issued to [student] according to a log, oldest first. *)
Definition issuedTo (student : address) (l : list Event) : list uint256 :=
  (filter (λ p, p.2 = student) (issued l)).*1.

Lemma issued_app l1 l2 : issued (l1 ++ l2) = issued l1 ++ issued l2.
Proof. apply omap_app. Qed.

Lemma issuedTo_app a l1 l2 : issuedTo a (l1 ++ l2) = issuedTo a l1 ++ issuedTo a l2.
Proof. unfold issuedTo. by rewrite issued_app, filter_app, fmap_app. Qed.

Lemma issuedTo_quiet a l : issued l = [] → issuedTo a l = [].
Proof. unfold issuedTo. by intros ->. Qed.

(** ** Changes that allocate no token id *)

Record quiet (s s' : State) : Prop := mkQuiet {
  quiet_counter : tokenIdCounter s' = tokenIdCounter s;
  quiet_students : studentCertificates s' = studentCertificates s;
  quiet_hashes : usedHashes s' = usedHashes s;
  quiet_uris : tokenURIs s' = tokenURIs s;
  quiet_ids : ∀ k, usedUniqueIdentifiers_at s k = true →
                   usedUniqueIdentifiers_at s' k = true;
  quiet_owned : ∀ id, _ownerOf s id ≠ 0 → _ownerOf s' id ≠ 0;
  quiet_configs : ∀ id, certConfigs_at s' id = certConfigs_at s id ∨
                        certConfigs_at s' id = set_isRevoked true (certConfigs_at s id);
  quiet_logs : ∃ evs, logs s' = logs s ++ evs ∧ issued evs = []
}.

(** Log bookkeeping for [quiet] goals: the new log is the old one
    followed by records that are not [CertificateIssued]. *)
Ltac quiet_logs :=
  first
    [ by (exists []; rewrite app_nil_r)
    | by (eexists; split; [rewrite <- ?app_assoc; reflexivity | done]) ].

Ltac quiet_frame :=
  constructor; simpl in *; try done; auto; try quiet_logs.

(** Case analysis on the guards met while running a function whose result
    is assumed to be [Ok]. *)
Ltac run_guards H :=
  munfold; simpl in H;
  repeat (first
    [ discriminate H
    | match type of H with
      | context [bool_decide ?P] => destruct (bool_decide_reflect P); simpl in H
      | context [if ?b then _ else _] => destruct b eqn:?; simpl in H
      | context [match ?x with Some _ => _ | None => _ end] =>
          destruct x eqn:?; simpl in H
      end ]).

Lemma owned_insert (m : gmap Z Z) tokenId to id :
  default 0 (m !! id) ≠ 0 → to ≠ 0 → default 0 (<[tokenId := to]> m !! id) ≠ 0.
Proof.
  intros Hid Hto. destruct (decide (tokenId = id)) as [->|Hne].
  - by rewrite lookup_insert_eq.
  - by rewrite lookup_insert_ne.
Qed.

Lemma used_insert (m : gmap string bool) k k' :
  default false (m !! k) = true → default false (<[k' := true]> m !! k) = true.
Proof.
  intros H. destruct (decide (k' = k)) as [->|Hne].
  - by rewrite lookup_insert_eq.
  - by rewrite lookup_insert_ne.
Qed.

Lemma quiet_refl s : quiet s s.
Proof. quiet_frame. Qed.

(** ** The entry points that call no hook are quiet *)

Lemma revokeCertificate_quiet env tokenId s s' :
  revokeCertificate env tokenId s = Ok (tt, s') → quiet s s'.
Proof.
  unfold revokeCertificate, onlyRole. intros H. run_guards H.
  injection H as <-. quiet_frame.
  intros id. unfold certConfigs_at. simpl.
  destruct (decide (tokenId = id)) as [->|Hne].
  - rewrite lookup_insert_eq. auto.
  - rewrite lookup_insert_ne by done. auto.
Qed.

Lemma verifyCertificate_run tokenId s :
  verifyCertificate tokenId s =
    Ok (if bool_decide (_ownerOf s tokenId = 0) then (false, "", REGULAR)
        else if isRevoked (certConfigs_at s tokenId)
             then (false, "", certType (certConfigs_at s tokenId))
             else (true, tokenURIs_at s tokenId, certType (certConfigs_at s tokenId)),
        s).
Proof.
  unfold verifyCertificate, tokenURI, super_tokenURI, _requireOwned, _baseURI.
  munfold. simpl.
  destruct (decide (_ownerOf s tokenId = 0)) as [Ho|Ho].
  - by rewrite !(bool_decide_eq_true_2 _ Ho).
  - rewrite !(bool_decide_eq_false_2 _ Ho). simpl.
    destruct (isRevoked (certConfigs_at s tokenId)); [done|]. simpl.
    by rewrite !(bool_decide_eq_false_2 _ Ho).
Qed.

Lemma verifyCertificateByVerifier_quiet env tokenId s r s' :
  verifyCertificateByVerifier env tokenId s = Ok (r, s') → quiet s s'.
Proof.
  unfold verifyCertificateByVerifier.
  intros H. apply bind_Ok in H as ([] & s1 & H1 & H).
  rewrite onlyRole_run in H1.
  destruct (hasRole _ _ _); [|done]. injection H1 as <-.
  apply bind_Ok in H as (v & s2 & H2 & H).
  rewrite verifyCertificate_run in H2. injection H2 as <- <-.
  destruct (if bool_decide _ then _ else _) as [[valid uri] cType].
  munfold. simpl in H. injection H as <- <-. quiet_frame.
Qed.

Lemma setBaseURI_quiet env baseURI s s' :
  setBaseURI env baseURI s = Ok (tt, s') → quiet s s'.
Proof.
  unfold setBaseURI, onlyRole. intros H. run_guards H.
  injection H as <-. quiet_frame.
Qed.

Lemma pause_quiet env s s' : pause env s = Ok (tt, s') → quiet s s'.
Proof.
  unfold pause, _pause, whenNotPaused, onlyRole. intros H. run_guards H.
  injection H as <-. quiet_frame.
Qed.

Lemma unpause_quiet env s s' : unpause env s = Ok (tt, s') → quiet s s'.
Proof.
  unfold unpause, _unpause, whenPaused, onlyRole. intros H. run_guards H.
  injection H as <-. quiet_frame.
Qed.

Lemma grantRole_quiet env role account s s' :
  grantRole env role account s = Ok (tt, s') → quiet s s'.
Proof.
  unfold grantRole, _grantRole, onlyRole. intros H. run_guards H;
  injection H as <-; quiet_frame.
Qed.

Lemma _revokeRole_quiet env role account s r s' :
  _revokeRole env role account s = Ok (r, s') → quiet s s'.
Proof.
  unfold _revokeRole. intros H. run_guards H; injection H as <- <-; quiet_frame.
Qed.

Lemma revokeRole_quiet env role account s s' :
  revokeRole env role account s = Ok (tt, s') → quiet s s'.
Proof.
  unfold revokeRole. intros H.
  apply bind_Ok in H as ([] & s1 & H1 & H).
  rewrite onlyRole_run in H1.
  destruct (hasRole _ _ _); [|done]. injection H1 as <-.
  apply bind_Ok in H as (r & s2 & H2 & H). injection H as <-.
  eauto using _revokeRole_quiet.
Qed.

Lemma renounceRole_quiet env role account s s' :
  renounceRole env role account s = Ok (tt, s') → quiet s s'.
Proof.
  unfold renounceRole. intros H.
  apply bind_Ok in H as ([] & s1 & H1 & H).
  unfold revertIf in H1. destruct (negb _); [done|]. injection H1 as <-.
  apply bind_Ok in H as (r & s2 & H2 & H). injection H as <-.
  eauto using _revokeRole_quiet.
Qed.

Lemma _approve_quiet to tokenId auth emitEvent s s' :
  _approve to tokenId auth emitEvent s = Ok (tt, s') → quiet s s'.
Proof.
  unfold _approve, _requireOwned. intros H. run_guards H;
  injection H as <-; quiet_frame.
Qed.

Lemma setApprovalForAll_quiet env operator approved s s' :
  setApprovalForAll env operator approved s = Ok (tt, s') → quiet s s'.
Proof.
  unfold setApprovalForAll. intros H. run_guards H.
  injection H as <-. quiet_frame.
Qed.

Lemma _update_quiet to tokenId auth s from s' :
  to ≠ 0 → _update to tokenId auth s = Ok (from, s') → quiet s s'.
Proof.
  intros Hto. unfold _update, _checkAuthorized, _approve. intros H.
  run_guards H; injection H as <- <-; quiet_frame;
  intros id Hid; unfold _ownerOf in *; simpl; by apply owned_insert.
Qed.

Lemma transferFrom_quiet env from to tokenId s s' :
  transferFrom env from to tokenId s = Ok (tt, s') → quiet s s'.
Proof.
  unfold transferFrom. intros H.
  apply bind_Ok in H as ([] & s1 & H1 & H).
  unfold revertIf in H1. case_bool_decide; [done|]. injection H1 as <-.
  apply bind_Ok in H as (prev & s2 & H2 & H).
  unfold revertIf in H. destruct (negb _); [done|]. injection H as <-.
  eauto using _update_quiet.
Qed.

(** The calls during which no recipient hook runs. *)
Definition hookless (c : Call) : bool :=
  match c with
  | MintCertificatesBatch _ _ _ _ | MintCertificate _ _ _ _
  | MintSemesterCertificate _ _ _ | MintAchievementCertificate _ _ _ _ _
  | MintCustomCertificate _ _ _ _ _ | SafeTransferFrom _ _ _ => false
  | _ => true
  end.

Lemma dispatch_quiet env c s s' :
  hookless c = true → dispatch env c s = Ok (tt, s') → quiet s s'.
Proof.
  destruct c; simpl; intros Hm H; try discriminate Hm.
  - eauto using revokeCertificate_quiet.
  - apply void_Ok in H as (r & H). eauto using verifyCertificateByVerifier_quiet.
  - eauto using setBaseURI_quiet.
  - eauto using pause_quiet.
  - eauto using unpause_quiet.
  - eauto using grantRole_quiet.
  - eauto using revokeRole_quiet.
  - eauto using renounceRole_quiet.
  - eauto using _approve_quiet.
  - eauto using setApprovalForAll_quiet.
  - eauto using transferFrom_quiet.
Qed.

(** ** The minting entry points *)

(** [onlyRole(MINTER_ROLE) whenNotPaused]: the role is checked first. *)
Definition minterGate (env : Env) (s : State) : option Error :=
  if hasRole s MINTER_ROLE (msg_sender env) then
    if paused s then Some EnforcedPause else None
  else Some (AccessControlUnauthorizedAccount (msg_sender env) MINTER_ROLE).

Definition appendLog (e : Event) (s : State) : State :=
  set_logs (logs s ++ [e]) s.

Lemma minterGate_run {A} env (k : M A) s :
  (onlyRole env MINTER_ROLE ;; whenNotPaused ;; k) s =
    match minterGate env s with
    | Some e => Err e
    | None => k s
    end.
Proof.
  unfold minterGate, mbind, M_bind. rewrite onlyRole_run.
  destruct (hasRole _ _ _); [|done].
  rewrite whenNotPaused_run. by destruct (paused s).
Qed.

Lemma minterGate_None env s :
  minterGate env s = None ↔
  hasRole s MINTER_ROLE (msg_sender env) = true ∧ paused s = false.
Proof.
  unfold minterGate. destruct (hasRole _ _ _), (paused s);
    (split; [intros Hg; by try discriminate Hg | by intros [? ?]]).
Qed.

Lemma mintCertificate_run env student courseName grade h s :
  mintCertificate env student courseName grade h s =
    match minterGate env s with
    | Some e => Err e
    | None =>
        match _mintBase env student h REGULAR s with
        | Ok (tid, s1) => Ok (tid, appendLog (RegularCertDetails tid courseName grade) s1)
        | Err e => Err e
        end
    end.
Proof.
  unfold mintCertificate. rewrite minterGate_run.
  destruct (minterGate env s); [done|].
  unfold mbind, M_bind. by destruct (_mintBase _ _ _ _ _) as [[]|].
Qed.

Lemma mintAchievementCertificate_run env student title category h verifiers s :
  mintAchievementCertificate env student title category h verifiers s =
    match minterGate env s with
    | Some e => Err e
    | None =>
        match _mintBase env student h ACHIEVEMENT s with
        | Ok (tid, s1) => Ok (tid, appendLog (AchievementCertDetails tid title category) s1)
        | Err e => Err e
        end
    end.
Proof.
  unfold mintAchievementCertificate. rewrite minterGate_run.
  destruct (minterGate env s); [done|].
  unfold mbind, M_bind. by destruct (_mintBase _ _ _ _ _) as [[]|].
Qed.

Lemma mintCustomCertificate_run env student templateId fieldNames fieldValues h s :
  mintCustomCertificate env student templateId fieldNames fieldValues h s =
    match minterGate env s with
    | Some e => Err e
    | None =>
        match _mintBase env student h CUSTOM s with
        | Ok (tid, s1) => Ok (tid, appendLog (CustomCertDetails tid templateId) s1)
        | Err e => Err e
        end
    end.
Proof.
  unfold mintCustomCertificate. rewrite minterGate_run.
  destruct (minterGate env s); [done|].
  unfold mbind, M_bind. by destruct (_mintBase _ _ _ _ _) as [[]|].
Qed.

(** What [mintSemesterCertificate] writes after [_mintBase] returned
    [tid]. *)
Definition registered (params : SemesterParams) (tid : uint256) (s : State) : State :=
  appendLog
    (SemesterCertDetails tid (serialNo params) (memoNo params) (sgpa params))
    (set_usedUniqueIdentifiers
       (<[memoNo params := true]>
          (<[serialNo params := true]> (usedUniqueIdentifiers s))) s).

Lemma mintSemesterCertificate_run env student params h s :
  mintSemesterCertificate env student params h s =
    match minterGate env s with
    | Some e => Err e
    | None =>
        if usedUniqueIdentifiers_at s (serialNo params)
           || usedUniqueIdentifiers_at s (memoNo params)
        then Err AlreadyExists
        else
          match _mintBase env student h SEMESTER s with
          | Ok (tid, s1) => Ok (tid, registered params tid s1)
          | Err e => Err e
          end
    end.
Proof.
  unfold mintSemesterCertificate. rewrite minterGate_run.
  destruct (minterGate env s); [done|].
  munfold. simpl.
  destruct (usedUniqueIdentifiers_at s (serialNo params)
            || usedUniqueIdentifiers_at s (memoNo params)); [done|]. simpl.
  by destruct (_mintBase _ _ _ _ _) as [[]|].
Qed.

Lemma batchBody_run env students courseNames grades ipfsHashes i s :
  batchBody env students courseNames grades ipfsHashes i s =
    match students !! i, ipfsHashes !! i with
    | Some student, Some h =>
        match _mintBase env student h REGULAR s with
        | Ok (tid, s1) =>
            match courseNames !! i, grades !! i with
            | Some courseName, Some grade =>
                Ok (tt, appendLog (RegularCertDetails tid courseName grade) s1)
            | _, _ => Err (Panic 50)
            end
        | Err e => Err e
        end
    | _, _ => Err (Panic 50)
    end.
Proof.
  unfold batchBody, index. munfold.
  destruct (students !! i); [|done].
  destruct (ipfsHashes !! i); [|done].
  destruct (_mintBase _ _ _ _ _) as [[tid s1]|]; [|done].
  destruct (courseNames !! i); [|done].
  by destruct (grades !! i).
Qed.

(** The checks that [mintCertificatesBatch] makes on the array lengths,
    in the order of the code. *)
Definition batchShape (students : list address)
    (courseNames grades ipfsHashes : list string) : option Error :=
  if bool_decide (Z.of_nat (length students) > MAX_BATCH_SIZE) then Some BatchLimit
  else if negb (bool_decide (length courseNames = length students))
          || negb (bool_decide (length grades = length students))
          || negb (bool_decide (length ipfsHashes = length students))
       then Some LengthMismatch
  else None.

Lemma mintCertificatesBatch_run env students courseNames grades ipfsHashes s :
  mintCertificatesBatch env students courseNames grades ipfsHashes s =
    match minterGate env s with
    | Some e => Err e
    | None =>
        match batchShape students courseNames grades ipfsHashes with
        | Some e => Err e
        | None =>
            for_range 0 (length students)
              (batchBody env students courseNames grades ipfsHashes) s
        end
    end.
Proof.
  unfold mintCertificatesBatch. rewrite minterGate_run.
  destruct (minterGate env s); [done|].
  unfold batchShape. munfold.
  case_bool_decide; [done|]. simpl.
  by destruct (_ || _ || _).
Qed.

Lemma batchShape_None students courseNames grades ipfsHashes :
  batchShape students courseNames grades ipfsHashes = None ↔
  Z.of_nat (length students) ≤ MAX_BATCH_SIZE ∧
  length courseNames = length students ∧
  length grades = length students ∧
  length ipfsHashes = length students.
Proof.
  unfold batchShape. repeat case_bool_decide; simpl;
    (split; [intros Hs; try discriminate Hs; repeat split; (done || lia)
            | intros (? & ? & ? & ?); first [done | lia | congruence]]).
Qed.

(** ** The shape of a call

    Whatever the hooks do, a call that returns has changed the storage
    by a sequence of: changes that allocate no id, what a hook did, and
    mints -- each mint an allocation, then its recipient's hook, then the
    writes for the id it allocated.  [R] bounds what the hooks do. *)

Inductive run (R : State -> State -> Prop) : State -> State -> Prop :=
  | run_quiet s s' :
      quiet s s' → run R s s'
  | run_hook s s' :
      R s s' → run R s s'
  | run_mint env to h cType s s1 :
      mintBase_entry to h s = None →
      R (allocated to s) s1 →
      run R s (finalized env to (tokenIdCounter s + 1) h cType s1)
  | run_trans s1 s2 s3 :
      run R s1 s2 → run R s2 s3 → run R s1 s3.

Lemma appendLog_quiet e s : issuedOf e = None → quiet s (appendLog e s).
Proof.
  intros He. unfold appendLog. quiet_frame.
  exists [e]. split; [done|]. unfold issued. simpl. by rewrite He.
Qed.

Lemma registered_quiet params tid s : quiet s (registered params tid s).
Proof.
  unfold registered, appendLog. quiet_frame.
  intros k Hk. unfold usedUniqueIdentifiers_at in *. simpl.
  by do 2 apply used_insert.
Qed.

Lemma _mintBase_runs R env to h cType s tid s' :
  hooksWithin R env → _mintBase env to h cType s = Ok (tid, s') → run R s s'.
Proof.
  intros HR H. apply _mintBase_Ok in H as (Hentry & -> & s1 & Hhook & ->).
  apply run_mint; [done|]. by eapply HR.
Qed.

Lemma batchBody_runs R env students courseNames grades ipfsHashes i s s' :
  hooksWithin R env →
  batchBody env students courseNames grades ipfsHashes i s = Ok (tt, s') → run R s s'.
Proof.
  intros HR H. rewrite batchBody_run in H.
  destruct (students !! i); [|done].
  destruct (ipfsHashes !! i); [|done].
  destruct (_mintBase _ _ _ _ _) as [[tid s1]|] eqn:Hm; [|done].
  destruct (courseNames !! i); [|done].
  destruct (grades !! i); [|done].
  injection H as <-.
  eapply run_trans; [by eapply _mintBase_runs|].
  by apply run_quiet, appendLog_quiet.
Qed.

Lemma for_range_runs R env students courseNames grades ipfsHashes count :
  hooksWithin R env →
  ∀ start s s',
    for_range start count (batchBody env students courseNames grades ipfsHashes) s
      = Ok (tt, s') →
    run R s s'.
Proof.
  intros HR. induction count as [|k IH]; intros start s s' H; simpl in H.
  - injection H as <-. apply run_quiet, quiet_refl.
  - apply bind_Ok in H as ([] & s1 & H1 & H).
    eapply run_trans; [by eapply batchBody_runs | by eapply IH].
Qed.

Lemma dispatch_runs R env c s s' :
  hooksWithin R env → dispatch env c s = Ok (tt, s') → run R s s'.
Proof.
  intros HR H.
  destruct (hookless c) eqn:Hc; [by eapply run_quiet, dispatch_quiet|].
  destruct c; try discriminate Hc; simpl in H.
  - rewrite mintCertificatesBatch_run in H.
    destruct (minterGate env s); [done|].
    destruct (batchShape _ _ _ _); [done|].
    by eapply for_range_runs.
  - apply void_Ok in H as (tid & H). rewrite mintCertificate_run in H.
    destruct (minterGate env s); [done|].
    destruct (_mintBase _ _ _ _ _) as [[t s1]|] eqn:Hm; [|done]. injection H as <- <-.
    eapply run_trans; [by eapply _mintBase_runs|].
    by apply run_quiet, appendLog_quiet.
  - apply void_Ok in H as (tid & H). rewrite mintSemesterCertificate_run in H.
    destruct (minterGate env s); [done|].
    destruct (_ || _); [done|].
    destruct (_mintBase _ _ _ _ _) as [[t s1]|] eqn:Hm; [|done]. injection H as <- <-.
    eapply run_trans; [by eapply _mintBase_runs|].
    apply run_quiet, registered_quiet.
  - apply void_Ok in H as (tid & H). rewrite mintAchievementCertificate_run in H.
    destruct (minterGate env s); [done|].
    destruct (_mintBase _ _ _ _ _) as [[t s1]|] eqn:Hm; [|done]. injection H as <- <-.
    eapply run_trans; [by eapply _mintBase_runs|].
    by apply run_quiet, appendLog_quiet.
  - apply void_Ok in H as (tid & H). rewrite mintCustomCertificate_run in H.
    destruct (minterGate env s); [done|].
    destruct (_mintBase _ _ _ _ _) as [[t s1]|] eqn:Hm; [|done]. injection H as <- <-.
    eapply run_trans; [by eapply _mintBase_runs|].
    by apply run_quiet, appendLog_quiet.
  - unfold safeTransferFrom in H. apply bind_Ok in H as ([] & s1 & H1 & H).
    eapply run_trans; [by eapply run_quiet, transferFrom_quiet|].
    by eapply run_hook, checkOnERC721Received_within.
Qed.

(** What holds of every step of a [nested] chain holds of the chain. *)
Lemma nested_ind_rel (P : State -> State -> Prop) :
  (∀ s, P s s) →
  (∀ s1 s2 s3, P s1 s2 → P s2 s3 → P s1 s3) →
  (∀ env c s s',
     msg_sender env ≠ 0 → hooksWithin P env → dispatch env c s = Ok (tt, s') → P s s') →
  ∀ depth s s', nested depth s s' → P s s'.
Proof.
  intros Hrefl Htrans Hcall. induction depth as [|d IH]; simpl; intros s s' H.
  - by subst.
  - induction H as [|a b c (env & cl & Hsender & Hhooks & Hm) _ IHrtc]; [done|].
    apply message_Ok in Hm as [_ Hm].
    eapply Htrans; [|exact IHrtc].
    eapply Hcall; [done| |done].
    intros to operator from tokenId x r y Hh. eapply IH, Hhooks, Hh.
Qed.

(** ** What no call undoes *)

Definition isRevokedAt (s : State) (tokenId : uint256) : bool :=
  isRevoked (certConfigs_at s tokenId).

(** The part of a token's record that is written once. *)
Definition tokenRecord (s : State) (tokenId : uint256)
    : string * CertificateType * address * uint256 :=
  (tokenURIs_at s tokenId, certType (certConfigs_at s tokenId),
   issuer (certConfigs_at s tokenId), issueDate (certConfigs_at s tokenId)).

(** [extends s s']: the counter has not gone back; hashes and identifiers
    that were registered still are; a token that existed in [s] still
    exists, has the record it had, and is still revoked if it was; each
    student's index has only grown at its end. *)
Record extends (s s' : State) : Prop := mkExtends {
  ext_counter : tokenIdCounter s ≤ tokenIdCounter s';
  ext_hashes : ∀ h, usedHashes_at s h = true → usedHashes_at s' h = true;
  ext_ids : ∀ k, usedUniqueIdentifiers_at s k = true →
                 usedUniqueIdentifiers_at s' k = true;
  ext_owned : ∀ id, _ownerOf s id ≠ 0 → _ownerOf s' id ≠ 0;
  ext_revoked : ∀ id, _ownerOf s id ≠ 0 → isRevokedAt s id = true →
                      isRevokedAt s' id = true;
  ext_record : ∀ id, _ownerOf s id ≠ 0 → tokenRecord s' id = tokenRecord s id;
  ext_index : ∀ a, studentCertificates_at s a `prefix_of` studentCertificates_at s' a
}.

Lemma extends_refl s : extends s s.
Proof. constructor; auto. lia. Qed.

Lemma extends_trans s1 s2 s3 : extends s1 s2 → extends s2 s3 → extends s1 s3.
Proof.
  intros [Hc1 Hh1 Hi1 Ho1 Hr1 Hrec1 Hx1] [Hc2 Hh2 Hi2 Ho2 Hr2 Hrec2 Hx2].
  constructor; auto; [lia| |].
  - intros id Hid. rewrite Hrec2, Hrec1; auto.
  - intros a. etrans; [apply Hx1 | apply Hx2].
Qed.

Lemma ext_certType s s' id :
  extends s s' → _ownerOf s id ≠ 0 →
  certType (certConfigs_at s' id) = certType (certConfigs_at s id).
Proof. intros Hext Hid. by pose proof (ext_record _ _ Hext id Hid) as [= _ ? _ _]. Qed.

Lemma quiet_extends s s' : quiet s s' → extends s s'.
Proof.
  intros [Hc Hst Hh Hu Hi Ho Hg Hl].
  constructor; unfold usedHashes_at, isRevokedAt, tokenRecord, tokenURIs_at,
    studentCertificates_at in *; auto.
  - lia.
  - intros h. by rewrite Hh.
  - intros id _ Hr. destruct (Hg id) as [-> | ->]; [done|].
    by destruct (certConfigs_at s id).
  - intros id _. rewrite Hu. destruct (Hg id) as [-> | ->]; [done|].
    by destruct (certConfigs_at s id).
  - intros a. by rewrite Hst.
Qed.

(** A mint extends the storage it started from, when its hook does. *)
Lemma minted_extends env to h cType s s1 :
  mintBase_entry to h s = None →
  extends (allocated to s) s1 →
  extends s (finalized env to (tokenIdCounter s + 1) h cType s1).
Proof.
  intros (Hto & _ & _ & _ & Hfree)%mintBase_entry_None [Hc Hh Hi Ho Hr Hrec Hx].
  assert (∀ id, _ownerOf s id ≠ 0 → _ownerOf (allocated to s) id ≠ 0) as Halloc.
  { intros id Hid. unfold _ownerOf, allocated in *. simpl. by apply owned_insert. }
  assert (∀ id, _ownerOf s id ≠ 0 → id ≠ tokenIdCounter s + 1) as Hne by by intros id ? ->.
  constructor; unfold finalized, usedHashes_at, usedUniqueIdentifiers_at, _ownerOf,
    isRevokedAt, tokenRecord, tokenURIs_at, certConfigs_at, studentCertificates_at in *;
    simpl in *.
  - lia.
  - intros h0 Hu. apply used_insert. by apply Hh.
  - auto.
  - auto.
  - intros id Hid Hrev. rewrite lookup_insert_ne by (symmetry; auto).
    by apply Hr; auto.
  - intros id Hid. rewrite !lookup_insert_ne by (symmetry; auto).
    by apply Hrec; auto.
  - intros a. etrans; [apply Hx|].
    destruct (decide (to = a)) as [->|].
    + rewrite lookup_insert_eq. simpl. by apply prefix_app_r.
    + by rewrite lookup_insert_ne.
Qed.

Lemma run_extends R s s' :
  (∀ a b, R a b → extends a b) → run R s s' → extends s s'.
Proof.
  intros HR. induction 1 as [s s' Hq|s s' Hh|env to h cType s s1 He Hh|s1 s2 s3 _ IH1 _ IH2].
  - by apply quiet_extends.
  - by apply HR.
  - apply minted_extends; [done|]. by apply HR.
  - by eapply extends_trans.
Qed.

Lemma dispatch_within_extends env c s s' :
  hooksWithin extends env → dispatch env c s = Ok (tt, s') → extends s s'.
Proof. intros HR H. eapply run_extends; [|by eapply dispatch_runs]. done. Qed.

Lemma nested_extends depth s s' : nested depth s s' → extends s s'.
Proof.
  apply nested_ind_rel.
  - apply extends_refl.
  - apply extends_trans.
  - intros env c a b _. apply dispatch_within_extends.
Qed.

Lemma admissible_extends env : admissible env → hooksWithin extends env.
Proof.
  intros (depth & Hd) to operator from tokenId s r s' Hh.
  eapply nested_extends, Hd, Hh.
Qed.

Lemma dispatch_extends env c s s' :
  admissible env → dispatch env c s = Ok (tt, s') → extends s s'.
Proof. intros Ha. by apply dispatch_within_extends, admissible_extends. Qed.

Lemma _mintBase_extends env to h cType s tid s' :
  admissible env → _mintBase env to h cType s = Ok (tid, s') → extends s s'.
Proof.
  intros Ha H. eapply run_extends; [|eapply _mintBase_runs; [|exact H]].
  - done.
  - by apply admissible_extends.
Qed.


Lemma step_extends s s' : step s s' → extends s s'.
Proof. intros (env & c & Ha & [_ H]%message_Ok). by eapply dispatch_extends. Qed.

Lemma steps_extends s s' : steps s s' → extends s s'.
Proof.
  induction 1 as [|s1 s2 s3 H12 _ IH]; [apply extends_refl|].
  eapply extends_trans; [by apply step_extends | done].
Qed.

(** ** Deployment *)

Definition genesis (deployer : address) : State :=
  set_logs [RoleGranted DEFAULT_ADMIN_ROLE deployer deployer;
            RoleGranted ADMIN_ROLE deployer deployer;
            RoleGranted MINTER_ROLE deployer deployer]
    (set_roles (<[(MINTER_ROLE, deployer) := true]>
                  (<[(ADMIN_ROLE, deployer) := true]>
                     (<[(DEFAULT_ADMIN_ROLE, deployer) := true]> ∅)))
       emptyState).

Lemma constructor_run env :
  constructor env emptyState = Ok (tt, genesis (msg_sender env)).
Proof.
  unfold constructor, _grantRole, hasRole. munfold. simpl.
  rewrite lookup_empty. simpl.
  rewrite lookup_insert_ne by done. rewrite lookup_empty. simpl.
  rewrite !lookup_insert_ne by done. rewrite lookup_empty. simpl.
  done.
Qed.

Lemma deployed_genesis s : deployed s ↔ ∃ deployer, s = genesis deployer.
Proof.
  split.
  - intros (env & [_ H]%nonPayable_Ok). rewrite constructor_run in H.
    injection H as <-. eauto.
  - intros (d & ->). exists (mkEnv d 0 0 Scenario.noCode).
    rewrite nonPayable_plain by done. apply constructor_run.
Qed.

Lemma reachable_step env c s s' :
  reachable s → admissible env → message env c s = Ok (tt, s') → reachable s'.
Proof.
  intros (s0 & Hd & Hs) Ha H. exists s0. split; [done|].
  eapply rtc_r; [done|]. by exists env, c.
Qed.

(** ** The batch loop *)



Lemma usedHashes_finalized env to tokenId h cType s :
  usedHashes_at (finalized env to tokenId h cType s) h = true.
Proof. unfold usedHashes_at, finalized. simpl. by rewrite lookup_insert_eq. Qed.

(** One iteration that does not revert: it minted element [i]. *)
Lemma batchBody_Ok env students courseNames grades ipfsHashes i s s' :
  batchBody env students courseNames grades ipfsHashes i s = Ok (tt, s') →
  ∃ student h courseName grade s1,
    students !! i = Some student ∧ ipfsHashes !! i = Some h ∧
    courseNames !! i = Some courseName ∧ grades !! i = Some grade ∧
    _mintBase env student h REGULAR s = Ok (tokenIdCounter s + 1, s1) ∧
    s' = appendLog (RegularCertDetails (tokenIdCounter s + 1) courseName grade) s1.
Proof.
  rewrite batchBody_run. intros H.
  destruct (students !! i) as [student|]; [|done].
  destruct (ipfsHashes !! i) as [h|]; [|done].
  destruct (_mintBase _ _ _ _ _) as [[tid s1]|] eqn:Hm; [|done].
  destruct (courseNames !! i) as [c|]; [|done].
  destruct (grades !! i) as [g|]; [|done].
  injection H as <-. exists student, h, c, g, s1.
  pose proof Hm as Hm'. apply _mintBase_Ok in Hm' as (_ & -> & _). done.
Qed.

(** An element that cannot be minted makes the loop revert: its owner is
    zero, its hash is empty, its hash is already used, or its hash occurs
    at an earlier index of the range.  Whatever the recipients of the
    earlier elements did from their hooks, the hashes registered before
    are still registered when the element is reached. *)
Lemma for_range_bad env students courseNames grades ipfsHashes count :
  admissible env →
  ∀ start s i to h,
    (start ≤ i < start + count)%nat →
    students !! i = Some to → ipfsHashes !! i = Some h →
    (to = 0 ∨ h = "" ∨ usedHashes_at s h = true ∨
     ∃ j, (start ≤ j < i)%nat ∧ ipfsHashes !! j = Some h) →
    ∃ e, for_range start count
           (batchBody env students courseNames grades ipfsHashes) s = Err e.
Proof.
  intros Ha.
  induction count as [|k IH]; intros start s i to h Hi Hst Hh Hbad; [lia|].
  simpl. unfold mbind at 1, M_bind at 1.
  destruct (batchBody _ _ _ _ _ _ _) as [[[] s1]|e] eqn:Hb; [|by eauto].
  apply batchBody_Ok in Hb as (st0 & h0 & c0 & g0 & s2 & Hst0 & Hh0 & _ & _ & Hm & ->).
  pose proof (_mintBase_extends _ _ _ _ _ _ _ Ha Hm) as Hext.
  apply _mintBase_Ok in Hm as (Hg & _ & s3 & _ & Hs2).
  apply mintBase_entry_None in Hg as (Hto & Hlen & Hused & _).
  destruct (decide (i = start)) as [->|Hne].
  - rewrite Hst in Hst0. rewrite Hh in Hh0. simplify_eq.
    destruct Hbad as [?|[->|[?|(j & ? & _)]]]; [done|done|congruence|lia].
  - apply (IH (S start) _ i to h); [lia|done|done|].
    destruct Hbad as [?|[?|[Hu|(j & Hj & Hhj)]]]; [by left|by right; left|..].
    + right; right; left. by apply (ext_hashes _ _ Hext).
    + destruct (decide (j = start)) as [->|Hjs].
      * right; right; left. rewrite Hh0 in Hhj. simplify_eq.
        apply usedHashes_finalized.
      * right; right; right. exists j. split; [lia|done].
Qed.

(** ** [revokeCertificate] in closed form *)

(** The storage after a successful [revokeCertificate]. *)
Definition revoked (env : Env) (tokenId : uint256) (s : State) : State :=
  appendLog (CertRevoked tokenId (msg_sender env))
    (set_certConfigs
       (<[tokenId := set_isRevoked true (certConfigs_at s tokenId)]> (certConfigs s)) s).

Lemma revokeCertificate_run env tokenId s :
  revokeCertificate env tokenId s =
    if negb (hasRole s ADMIN_ROLE (msg_sender env))
    then Err (AccessControlUnauthorizedAccount (msg_sender env) ADMIN_ROLE)
    else if bool_decide (_ownerOf s tokenId = 0) then Err NotFound
    else if isRevokedAt s tokenId then Err Revoked
    else Ok (tt, revoked env tokenId s).
Proof.
  unfold revokeCertificate, onlyRole, isRevokedAt. munfold. simpl.
  destruct (hasRole _ _ _); [|done]. simpl.
  case_bool_decide; [done|]. simpl.
  by destruct (isRevoked _).
Qed.

Lemma isRevokedAt_revoked env tokenId s : isRevokedAt (revoked env tokenId s) tokenId = true.
Proof.
  unfold isRevokedAt, revoked, certConfigs_at. simpl. by rewrite lookup_insert_eq.
Qed.

(** The life of one certificate: minted with hash ["H1"] it gets id 1
    and verifies with that reference; once revoked it no longer does. *)
Example certificate_lifecycle :
  let s1 := Scenario.s1 in
  let s2 := Scenario.after (revokeCertificate Scenario.env_admin 1) s1 in
  (transact (mintCertificate Scenario.env_admin Scenario.alice "Course" "A" "H1")
     Scenario.s0).1 = Ok 1 ∧
  (transact (verifyCertificate 1) s1).1 = Ok (true, "H1", REGULAR) ∧
  (transact (revokeCertificate Scenario.env_admin 1) s1).1 = Ok tt ∧
  (transact (verifyCertificate 1) s2).1 = Ok (false, "", REGULAR) ∧
  (transact (revokeCertificate Scenario.env_admin 1) s2).1 = Err Revoked ∧
  (transact (revokeCertificate Scenario.env_admin 2) s2).1 = Err NotFound.
Proof. vm_compute. by repeat split. Qed.

(** ** Batch minting *)

(** C1.  Batch minting is all-or-nothing.  If some element of the batch
    cannot be minted -- its owner is the zero address, its content hash is
    empty, its hash is already registered, or its hash repeats an earlier
    element of the same batch -- then [mintCertificatesBatch] reverts and
    the storage after the call is the storage before it: the [tokenId]
    counter, the ownership ledger and the log are unchanged, so no token
    is minted.  The recipients of the earlier elements may have called
    back into the registry from their hooks ([admissible]): what they
    did is undone with the rest. *)
Theorem mintCertificatesBatch_all_or_nothing
    env s students courseNames grades ipfsHashes (i : nat) to h :
  admissible env →
  students !! i = Some to →
  ipfsHashes !! i = Some h →
  (to = 0 ∨ h = "" ∨ usedHashes_at s h = true ∨
   ∃ j, (j < i)%nat ∧ ipfsHashes !! j = Some h) →
  let r := transact (mintCertificatesBatch env students courseNames grades ipfsHashes) s in
  (∃ e, r.1 = Err e) ∧ r.2 = s ∧
  tokenIdCounter r.2 = tokenIdCounter s ∧ owners r.2 = owners s ∧ logs r.2 = logs s.
Proof.
  intros Ha Hst Hh Hbad r.
  assert (∃ e, mintCertificatesBatch env students courseNames grades ipfsHashes s = Err e)
    as (e & He).
  { rewrite mintCertificatesBatch_run.
    destruct (minterGate env s); [by eauto|].
    destruct (batchShape _ _ _ _); [by eauto|].
    apply (for_range_bad _ _ _ _ _ _ Ha 0%nat s i to h); [|done|done|].
    - apply lookup_lt_Some in Hst. lia.
    - destruct Hbad as [?|[?|[?|(j & ? & ?)]]]; auto.
      do 3 right. exists j. split; [lia|done]. }
  subst r. rewrite (transact_Err _ _ _ He). simpl. by eauto 10.
Qed.

Lemma mintCertificatesBatch_all_or_nothing_witness :
  let r := transact (mintCertificatesBatch Scenario.env_admin
                       [Scenario.alice; Scenario.bob] ["Maths"; "Physics"] ["A"; "B"]
                       ["H2"; "H1"]) Scenario.s1 in
  (∃ e, r.1 = Err e) ∧ r.2 = Scenario.s1 ∧
  tokenIdCounter r.2 = tokenIdCounter Scenario.s1 ∧
  owners r.2 = owners Scenario.s1 ∧ logs r.2 = logs Scenario.s1.
Proof.
  apply (mintCertificatesBatch_all_or_nothing Scenario.env_admin Scenario.s1
           [Scenario.alice; Scenario.bob] ["Maths"; "Physics"] ["A"; "B"] ["H2"; "H1"]
           1 Scenario.bob "H1").
  - apply passive_admissible, noCode_passive.
  - reflexivity.
  - reflexivity.
  - right. right. left. vm_compute. reflexivity.
Defined.

(** C2 (as stated, refuted).  The deployer holds [MINTER_ROLE] and the
    fresh registry is not paused, yet a batch of size 0 is accepted: the
    call returns normally and changes nothing, so it does not fail with
    [BatchLimit].  A batch whose [students] array has 51 entries and whose
    other arrays are empty has arrays of different lengths, yet it fails
    with [BatchLimit], not [LengthMismatch]: the size check comes first. *)
Lemma mintCertificatesBatch_empty_accepted :
  hasRole Scenario.s0 MINTER_ROLE (msg_sender Scenario.env_admin) = true ∧
  paused Scenario.s0 = false ∧
  transact (mintCertificatesBatch Scenario.env_admin [] [] [] []) Scenario.s0
    = (Ok tt, Scenario.s0) ∧
  (transact (mintCertificatesBatch Scenario.env_admin [] [] [] []) Scenario.s0).1
    ≠ Err BatchLimit ∧
  (transact (mintCertificatesBatch Scenario.env_admin
               (replicate 51 Scenario.alice) [] [] []) Scenario.s0).1
    = Err BatchLimit.
Proof. vm_compute. repeat split; (reflexivity || discriminate). Qed.

(** C2 (amended).  For a caller holding [MINTER_ROLE] on a registry that
    is not paused, [mintCertificatesBatch] fails with [BatchLimit]
    whenever [students.length] exceeds [MAX_BATCH_SIZE = 50], and fails
    with [LengthMismatch] whenever [students.length] is at most 50 and one
    of [courseNames], [grades], [ipfsHashes] has another length; both
    leave the storage unchanged.  The batch of size 0 passes both checks
    and returns without minting. *)
Theorem mintCertificatesBatch_shape_errors
    env s students courseNames grades ipfsHashes :
  hasRole s MINTER_ROLE (msg_sender env) = true →
  paused s = false →
  MAX_BATCH_SIZE = 50 ∧
  (Z.of_nat (length students) > MAX_BATCH_SIZE →
   transact (mintCertificatesBatch env students courseNames grades ipfsHashes) s
     = (Err BatchLimit, s)) ∧
  (Z.of_nat (length students) ≤ MAX_BATCH_SIZE →
   length courseNames ≠ length students ∨ length grades ≠ length students ∨
   length ipfsHashes ≠ length students →
   transact (mintCertificatesBatch env students courseNames grades ipfsHashes) s
     = (Err LengthMismatch, s)) ∧
  transact (mintCertificatesBatch env [] [] [] []) s = (Ok tt, s).
Proof.
  intros Hrole Hp.
  assert (minterGate env s = None) as Hgate by by apply minterGate_None.
  split; [done|]. split; [|split].
  - intros Hlen. apply transact_Err. rewrite mintCertificatesBatch_run, Hgate.
    unfold batchShape. by rewrite bool_decide_eq_true_2.
  - intros Hlen Hne. apply transact_Err. rewrite mintCertificatesBatch_run, Hgate.
    unfold batchShape. rewrite bool_decide_eq_false_2 by lia.
    destruct Hne as [Hne|[Hne|Hne]];
      rewrite (bool_decide_eq_false_2 _ Hne); simpl;
      by rewrite ?orb_true_r.
  - apply transact_Ok. by rewrite mintCertificatesBatch_run, Hgate.
Qed.

Lemma mintCertificatesBatch_shape_errors_witness :
  transact (mintCertificatesBatch Scenario.env_admin
              (replicate 51 Scenario.alice) (replicate 51 "Course")
              (replicate 51 "A") (replicate 51 "H")) Scenario.s0
    = (Err BatchLimit, Scenario.s0) ∧
  transact (mintCertificatesBatch Scenario.env_admin
              [Scenario.alice; Scenario.bob] ["Course"] ["A"; "B"] ["H2"; "H3"])
    Scenario.s0
    = (Err LengthMismatch, Scenario.s0).
Proof.
  split.
  - apply (mintCertificatesBatch_shape_errors Scenario.env_admin Scenario.s0
             (replicate 51 Scenario.alice) (replicate 51 "Course")
             (replicate 51 "A") (replicate 51 "H")).
    + vm_compute. reflexivity.
    + reflexivity.
    + vm_compute. reflexivity.
  - apply (mintCertificatesBatch_shape_errors Scenario.env_admin Scenario.s0
             [Scenario.alice; Scenario.bob] ["Course"] ["A"; "B"] ["H2"; "H3"]).
    + vm_compute. reflexivity.
    + reflexivity.
    + vm_compute. discriminate.
    + left. simpl. lia.
Defined.

(** ** Pausing *)

Lemma minterGate_paused env s :
  paused s = true →
  minterGate env s =
    Some (if hasRole s MINTER_ROLE (msg_sender env) then EnforcedPause
          else AccessControlUnauthorizedAccount (msg_sender env) MINTER_ROLE).
Proof. unfold minterGate. intros ->. by destruct (hasRole _ _ _). Qed.

(** A minting entry point stops at the gate when the gate is closed. *)
Lemma dispatch_mint_gated env c s e :
  isMint c = true → minterGate env s = Some e → dispatch env c s = Err e.
Proof.
  intros Hm Hg. destruct c; try discriminate Hm; simpl.
  - by rewrite mintCertificatesBatch_run, Hg.
  - apply void_Err. by rewrite mintCertificate_run, Hg.
  - apply void_Err. by rewrite mintSemesterCertificate_run, Hg.
  - apply void_Err. by rewrite mintAchievementCertificate_run, Hg.
  - apply void_Err. by rewrite mintCustomCertificate_run, Hg.
Qed.

(** C3 (as stated, refuted).  On a paused registry holding token 1, the
    admin's [revokeCertificate(1)] is not rejected: it returns normally
    and the token, unrevoked before the call, is revoked after it. *)
Lemma revokeCertificate_while_paused :
  paused Scenario.s1_paused = true ∧
  isRevokedAt Scenario.s1_paused 1 = false ∧
  (transact (revokeCertificate Scenario.env_admin 1) Scenario.s1_paused).1 = Ok tt ∧
  isRevokedAt
    (transact (revokeCertificate Scenario.env_admin 1) Scenario.s1_paused).2 1 = true.
Proof. vm_compute. by repeat split. Qed.

(** C3 (amended).  While the registry is paused, every mint variant
    (batch, single, semester, achievement, custom) is rejected and leaves
    the storage unchanged; the error is the paused-state error
    [EnforcedPause] when the caller holds [MINTER_ROLE], and the
    missing-role error otherwise, because the role is checked first.
    [revokeCertificate] has no pause gate: called by an [ADMIN_ROLE]
    holder on an existing, unrevoked token of a paused registry it
    succeeds and revokes the token. *)
Theorem paused_rejects_minting env s :
  paused s = true →
  (∀ c, isMint c = true →
     ∃ e, transact (dispatch env c) s = (Err e, s) ∧
          (hasRole s MINTER_ROLE (msg_sender env) = true → e = EnforcedPause) ∧
          (hasRole s MINTER_ROLE (msg_sender env) = false →
           e = AccessControlUnauthorizedAccount (msg_sender env) MINTER_ROLE)) ∧
  (∀ tokenId,
     hasRole s ADMIN_ROLE (msg_sender env) = true →
     _ownerOf s tokenId ≠ 0 →
     isRevokedAt s tokenId = false →
     transact (revokeCertificate env tokenId) s = (Ok tt, revoked env tokenId s) ∧
     isRevokedAt (revoked env tokenId s) tokenId = true ∧
     paused (revoked env tokenId s) = true).
Proof.
  intros Hp. split.
  - intros c Hm. eexists. split.
    + apply transact_Err, dispatch_mint_gated; [done|]. by apply minterGate_paused.
    + split; by intros ->.
  - intros tokenId Hrole Hown Hrev. split; [|split].
    + apply transact_Ok. rewrite revokeCertificate_run, Hrole, Hrev. simpl.
      by rewrite bool_decide_eq_false_2.
    + apply isRevokedAt_revoked.
    + done.
Qed.

Lemma paused_rejects_minting_witness :
  transact (dispatch Scenario.env_admin
              (MintCertificate Scenario.bob "Course" "B" "H2")) Scenario.s1_paused
    = (Err EnforcedPause, Scenario.s1_paused) ∧
  transact (revokeCertificate Scenario.env_admin 1) Scenario.s1_paused
    = (Ok tt, revoked Scenario.env_admin 1 Scenario.s1_paused).
Proof.
  pose proof (paused_rejects_minting Scenario.env_admin Scenario.s1_paused eq_refl)
    as [Hmint Hrevoke].
  split.
  - destruct (Hmint (MintCertificate Scenario.bob "Course" "B" "H2") eq_refl)
      as (e & He & Hminter & _).
    rewrite He. f_equal. f_equal. apply Hminter. vm_compute. reflexivity.
  - apply Hrevoke.
    + vm_compute. reflexivity.
    + vm_compute. discriminate.
    + vm_compute. reflexivity.
Defined.


(** ** Properties of every call

    A relation between storages that is reflexive and transitive, holds
    of every change that allocates no id, and is kept by a mint when it
    holds of what the recipient's hook did, holds between the storage
    before and after every call, whatever the hooks call back. *)

Section calls.
Variable P : State -> State -> Prop.
Hypothesis P_refl : ∀ s, P s s.
Hypothesis P_trans : ∀ s1 s2 s3, P s1 s2 → P s2 s3 → P s1 s3.
Hypothesis P_quiet : ∀ s s', quiet s s' → P s s'.
Hypothesis P_mint : ∀ env to h cType s s1,
  mintBase_entry to h s = None → P (allocated to s) s1 →
  P s (finalized env to (tokenIdCounter s + 1) h cType s1).

Lemma run_rel R s s' : (∀ a b, R a b → P a b) → run R s s' → P s s'.
Proof.
  intros HR. induction 1 as [s s' Hq|s s' Hh|env to h cType s s1 He Hh|s1 s2 s3 _ IH1 _ IH2].
  - by apply P_quiet.
  - by apply HR.
  - apply P_mint; [done|]. by apply HR.
  - by eapply P_trans.
Qed.

Lemma nested_rel depth s s' : nested depth s s' → P s s'.
Proof.
  apply nested_ind_rel; [done|done|].
  intros env c a b _ HR H. apply (run_rel P); [done|]. by eapply dispatch_runs.
Qed.

Lemma hooks_rel env : admissible env → hooksWithin P env.
Proof.
  intros (depth & Hd) to operator from tokenId s r s' Hh.
  eapply nested_rel, Hd, Hh.
Qed.

Lemma dispatch_rel env c s s' :
  admissible env → dispatch env c s = Ok (tt, s') → P s s'.
Proof.
  intros Ha H. apply (run_rel P); [done|].
  eapply dispatch_runs; [by apply hooks_rel | done].
Qed.

Lemma _mintBase_rel env to h cType s tid s' :
  admissible env → _mintBase env to h cType s = Ok (tid, s') → P s s'.
Proof.
  intros Ha H. apply (run_rel P); [done|].
  eapply _mintBase_runs; [by apply hooks_rel | done].
Qed.

Lemma steps_rel s s' : steps s s' → P s s'.
Proof.
  induction 1 as [|s1 s2 s3 (env & c & Ha & [_ H]%message_Ok) _ IH]; [done|].
  eapply P_trans; [by eapply dispatch_rel | done].
Qed.
End calls.

(** ** The invariant of the registry *)

(** Each student's index lists the ids of the [CertificateIssued] records
    that name the student, in the order of the log. *)
Definition indexed (s : State) : Prop :=
  ∀ a, studentCertificates_at s a = issuedTo a (logs s).

(** [issues s s']: between [s] and [s'] the counter went from [c] to
    [c'] and the ids issued are [c+1, ..., c'], each once. *)
Definition issues (s s' : State) : Prop :=
  tokenIdCounter s ≤ tokenIdCounter s' ∧
  ∃ l, issued (logs s') = issued (logs s) ++ l ∧
       l.*1 ≡ₚ seqZ (tokenIdCounter s + 1) (tokenIdCounter s' - tokenIdCounter s).

Lemma quiet_issued s s' : quiet s s' → issued (logs s') = issued (logs s).
Proof.
  intros [_ _ _ _ _ _ _ (evs & -> & Hn)]. by rewrite issued_app, Hn, app_nil_r.
Qed.

Lemma issued_allocated to s : issued (logs (allocated to s)) = issued (logs s).
Proof. unfold allocated. simpl. by rewrite issued_app, app_nil_r. Qed.

Lemma issued_finalized env to tokenId h cType s :
  issued (logs (finalized env to tokenId h cType s)) = issued (logs s) ++ [(tokenId, to)].
Proof. unfold finalized. simpl. by rewrite issued_app. Qed.

Lemma studentCertificates_finalized env to tokenId h cType s a :
  studentCertificates_at (finalized env to tokenId h cType s) a =
    studentCertificates_at s a ++ (if decide (to = a) then [tokenId] else []).
Proof.
  unfold studentCertificates_at, finalized. simpl.
  destruct (decide (to = a)) as [->|Hne].
  - by rewrite lookup_insert_eq.
  - rewrite lookup_insert_ne by done. by rewrite app_nil_r.
Qed.


Lemma indexed_quiet s s' : quiet s s' → indexed s → indexed s'.
Proof.
  intros [Hc Hst Hh Hu Hid Ho Hg (evs & Hl & Hn)] Hx a.
  specialize (Hx a). unfold studentCertificates_at in *. rewrite Hst, Hx.
  by rewrite Hl, issuedTo_app, (issuedTo_quiet a evs), app_nil_r.
Qed.

Lemma indexed_mint env to h cType s s1 :
  mintBase_entry to h s = None →
  (indexed (allocated to s) → indexed s1) →
  indexed s → indexed (finalized env to (tokenIdCounter s + 1) h cType s1).
Proof.
  intros _ IH Hx a.
  rewrite studentCertificates_finalized, IH.
  - unfold issuedTo. rewrite issued_finalized, filter_app, fmap_app.
    f_equal. rewrite filter_cons, filter_nil. simpl.
    by destruct (decide (to = a)).
  - intros b. unfold issuedTo. rewrite issued_allocated. apply Hx.
Qed.

Lemma steps_indexed s s' : steps s s' → indexed s → indexed s'.
Proof.
  revert s s'. apply (steps_rel (λ s s', indexed s → indexed s')); auto.
  - apply indexed_quiet.
  - apply indexed_mint.
Qed.

Lemma dispatch_indexed env c s s' :
  admissible env → dispatch env c s = Ok (tt, s') → indexed s → indexed s'.
Proof.
  apply (dispatch_rel (λ s s', indexed s → indexed s')); auto.
  - apply indexed_quiet.
  - apply indexed_mint.
Qed.

Lemma issues_refl s : issues s s.
Proof. split; [lia|]. exists []. by rewrite app_nil_r, Z.sub_diag. Qed.

Lemma issues_trans s1 s2 s3 : issues s1 s2 → issues s2 s3 → issues s1 s3.
Proof.
  intros (Hc1 & l1 & Hl1 & Hp1) (Hc2 & l2 & Hl2 & Hp2).
  split; [lia|]. exists (l1 ++ l2). split.
  - by rewrite Hl2, Hl1, app_assoc.
  - rewrite fmap_app, Hp1, Hp2.
    replace (tokenIdCounter s3 - tokenIdCounter s1)
      with ((tokenIdCounter s2 - tokenIdCounter s1) + (tokenIdCounter s3 - tokenIdCounter s2))
      by lia.
    rewrite seqZ_app by lia.
    by replace (tokenIdCounter s1 + 1 + (tokenIdCounter s2 - tokenIdCounter s1))
      with (tokenIdCounter s2 + 1) by lia.
Qed.

Lemma issues_quiet s s' : quiet s s' → issues s s'.
Proof.
  intros Hq. split; [rewrite (quiet_counter _ _ Hq); lia|].
  exists []. rewrite app_nil_r, (quiet_counter _ _ Hq), Z.sub_diag.
  split; [by apply quiet_issued | done].
Qed.

Lemma issues_mint env to h cType s s1 :
  mintBase_entry to h s = None →
  issues (allocated to s) s1 →
  issues s (finalized env to (tokenIdCounter s + 1) h cType s1).
Proof.
  intros _ (Hc & l & Hl & Hp).
  rewrite issued_allocated in Hl.
  change (tokenIdCounter (allocated to s)) with (tokenIdCounter s + 1) in *.
  split; [simpl; lia|].
  exists (l ++ [(tokenIdCounter s + 1, to)]). split.
  - by rewrite issued_finalized, Hl, app_assoc.
  - rewrite fmap_app, Hp. simpl.
    change (tokenIdCounter (finalized env to (tokenIdCounter s + 1) h cType s1))
      with (tokenIdCounter s1).
    rewrite (seqZ_cons (tokenIdCounter s + 1)) by lia.
    rewrite <- Permutation_cons_append.
    apply Permutation_skip.
    by replace (Z.pred (tokenIdCounter s1 - tokenIdCounter s))
      with (tokenIdCounter s1 - (tokenIdCounter s + 1)) by lia.
Qed.

Lemma steps_issues s s' : steps s s' → issues s s'.
Proof.
  apply (steps_rel issues);
    [apply issues_refl | apply issues_trans | apply issues_quiet | apply issues_mint].
Qed.

Lemma admissible_issues env : admissible env → hooksWithin issues env.
Proof.
  apply (hooks_rel issues);
    [apply issues_refl | apply issues_trans | apply issues_quiet | apply issues_mint].
Qed.

Record registryInv (s : State) : Prop := mkInv {
  inv_counter : 0 ≤ tokenIdCounter s;
  inv_issued : (issued (logs s)).*1 ≡ₚ seqZ 1 (tokenIdCounter s);
  inv_index : indexed s
}.

Lemma genesis_inv deployer : registryInv (genesis deployer).
Proof. by constructor. Qed.

Lemma reachable_inv s : reachable s → registryInv s.
Proof.
  intros (s0 & Hd & Hs). apply deployed_genesis in Hd as (d & ->).
  destruct (steps_issues _ _ Hs) as (Hc & l & Hl & Hp).
  constructor.
  - simpl in Hc. lia.
  - rewrite Hl. simpl. by rewrite Hp, Z.sub_0_r.
  - by apply (steps_indexed _ _ Hs).
Qed.

(** ** Single mints *)

(** The certificate type each single-mint entry point passes to
    [_mintBase]. *)
Definition mintType (c : Call) : CertificateType :=
  match c with
  | MintSemesterCertificate _ _ _ => SEMESTER
  | MintAchievementCertificate _ _ _ _ _ => ACHIEVEMENT
  | MintCustomCertificate _ _ _ _ _ => CUSTOM
  | _ => REGULAR
  end.

(** A single mint that returns: the caller passed the gate, [_mintBase]
    ran on the storage of the call, and the rest of the function
    allocated nothing. *)
Lemma singleMint_Ok env c m tid s s' :
  singleMint env c = Some m → m s = Ok (tid, s') →
  minterGate env s = None ∧
  ∃ s2, _mintBase env (recipient c) (contentHash c) (mintType c) s = Ok (tid, s2) ∧
        quiet s2 s'.
Proof.
  destruct c; simpl; intros [= <-] H.
  - rewrite mintCertificate_run in H.
    destruct (minterGate env s); [done|].
    destruct (_mintBase _ _ _ _ _) as [[t s2]|] eqn:Hm; [|done].
    injection H as <- <-. split; [done|]. exists s2. split; [done|].
    by apply appendLog_quiet.
  - rewrite mintSemesterCertificate_run in H.
    destruct (minterGate env s); [done|].
    destruct (_ || _); [done|].
    destruct (_mintBase _ _ _ _ _) as [[t s2]|] eqn:Hm; [|done].
    injection H as <- <-. split; [done|]. exists s2. split; [done|].
    apply registered_quiet.
  - rewrite mintAchievementCertificate_run in H.
    destruct (minterGate env s); [done|].
    destruct (_mintBase _ _ _ _ _) as [[t s2]|] eqn:Hm; [|done].
    injection H as <- <-. split; [done|]. exists s2. split; [done|].
    by apply appendLog_quiet.
  - rewrite mintCustomCertificate_run in H.
    destruct (minterGate env s); [done|].
    destruct (_mintBase _ _ _ _ _) as [[t s2]|] eqn:Hm; [|done].
    injection H as <- <-. split; [done|]. exists s2. split; [done|].
    by apply appendLog_quiet.
Qed.

(** ** Recipients that do not call back

    When no hook calls the registry, the storage [_mintBase] finishes on
    is the storage it left to the hook, and a successful mint has one
    closed form. *)

(** The storage after a successful [_mintBase] whose hook left the
    storage alone. *)
Definition minted (env : Env) (to : address) (ipfsHash : string)
    (cType : CertificateType) (s : State) : State :=
  finalized env to (tokenIdCounter s + 1) ipfsHash cType (allocated to s).

Lemma _mintBase_calm env to h cType s tid s' :
  passive env → _mintBase env to h cType s = Ok (tid, s') →
  mintBase_entry to h s = None ∧ tid = tokenIdCounter s + 1 ∧
  s' = minted env to h cType s.
Proof.
  intros Hp H. apply _mintBase_Ok in H as (He & -> & s1 & Hh & ->).
  apply Hp in Hh as <-. done.
Qed.

(** [inOrder s s']: between [s] and [s'] the ids [c+1, ..., c'] were
    issued in increasing order. *)
Definition inOrder (s s' : State) : Prop :=
  tokenIdCounter s ≤ tokenIdCounter s' ∧
  ∃ l, issued (logs s') = issued (logs s) ++ l ∧
       l.*1 = seqZ (tokenIdCounter s + 1) (tokenIdCounter s' - tokenIdCounter s).

Lemma inOrder_refl s : inOrder s s.
Proof. split; [lia|]. exists []. by rewrite app_nil_r, Z.sub_diag. Qed.

Lemma inOrder_trans s1 s2 s3 : inOrder s1 s2 → inOrder s2 s3 → inOrder s1 s3.
Proof.
  intros (Hc1 & l1 & Hl1 & Hp1) (Hc2 & l2 & Hl2 & Hp2).
  split; [lia|]. exists (l1 ++ l2). split.
  - by rewrite Hl2, Hl1, app_assoc.
  - rewrite fmap_app, Hp1, Hp2.
    replace (tokenIdCounter s3 - tokenIdCounter s1)
      with ((tokenIdCounter s2 - tokenIdCounter s1) + (tokenIdCounter s3 - tokenIdCounter s2))
      by lia.
    rewrite seqZ_app by lia.
    by replace (tokenIdCounter s1 + 1 + (tokenIdCounter s2 - tokenIdCounter s1))
      with (tokenIdCounter s2 + 1) by lia.
Qed.

Lemma run_inOrder s s' : run eq s s' → inOrder s s'.
Proof.
  induction 1 as [s s' Hq|s s' <-|env to h cType s s1 He <-|s1 s2 s3 _ IH1 _ IH2].
  - split; [rewrite (quiet_counter _ _ Hq); lia|].
    exists []. rewrite app_nil_r, (quiet_counter _ _ Hq), Z.sub_diag.
    split; [by apply quiet_issued | done].
  - apply inOrder_refl.
  - split; [simpl; lia|]. exists [(tokenIdCounter s + 1, to)]. split.
    + by rewrite issued_finalized, issued_allocated.
    + simpl. replace (tokenIdCounter s + 1 - tokenIdCounter s) with 1 by lia. done.
  - by eapply inOrder_trans.
Qed.

(** States reached from deployment by calls whose recipients never call
    back. *)
Definition calmStep (s s' : State) : Prop :=
  ∃ env c, passive env ∧ message env c s = Ok (tt, s').

Definition calm (s : State) : Prop :=
  ∃ s0, deployed s0 ∧ rtc calmStep s0 s.

Lemma calm_reachable s : calm s → reachable s.
Proof.
  intros (s0 & Hd & Hs). exists s0. split; [done|]. clear Hd.
  induction Hs as [|a b c (env & cl & Hp & Hm) _ IH]; [done|].
  eapply rtc_l; [|exact IH]. exists env, cl. split; [by apply passive_admissible | done].
Qed.

Lemma calm_inOrder s :
  calm s → (issued (logs s)).*1 = seqZ 1 (tokenIdCounter s).
Proof.
  intros (s0 & Hd & Hs). apply deployed_genesis in Hd as (d & ->).
  assert (inOrder (genesis d) s) as (_ & l & Hl & Hp).
  { induction Hs as [|a b c (env & cl & Hpass & [_ Hm]%message_Ok) _ IH];
      [apply inOrder_refl|].
    eapply inOrder_trans; [|exact IH].
    by eapply run_inOrder, dispatch_runs. }
  rewrite Hl. simpl. by rewrite Hp, Z.sub_0_r.
Qed.

(** A loop whose recipients do not call back consumed one id per
    element, in order. *)
Lemma for_range_Ok env students courseNames grades ipfsHashes count :
  passive env →
  ∀ start s s',
    for_range start count
      (batchBody env students courseNames grades ipfsHashes) s = Ok (tt, s') →
    tokenIdCounter s' = tokenIdCounter s + Z.of_nat count ∧
    issued (logs s') =
      issued (logs s) ++
      zip (seqZ (tokenIdCounter s + 1) (Z.of_nat count)) (take count (drop start students)).
Proof.
  intros Hpass.
  induction count as [|k IH]; intros start s s' H; simpl in H.
  - injection H as <-. split; [lia|]. by rewrite app_nil_r.
  - apply bind_Ok in H as ([] & s1 & Hb & H).
    apply IH in H as (Hc & Hl).
    apply batchBody_Ok in Hb as (st0 & h0 & c0 & g0 & s2 & Hst0 & Hh0 & _ & _ & Hm & ->).
    apply (_mintBase_calm _ _ _ _ _ _ _ Hpass) in Hm as (_ & _ & ->).
    split.
    + rewrite Hc. simpl. lia.
    + rewrite Hl. unfold appendLog, minted. simpl. rewrite !issued_app. simpl.
      rewrite <- !app_assoc. f_equal. simpl.
      rewrite (drop_S _ _ _ Hst0). simpl.
      rewrite (seqZ_cons (tokenIdCounter s + 1)) by lia. simpl.
      do 3 f_equal; lia.
Qed.


(** ** Recipients that call back: a scenario

    The contract at [relay] answers [onERC721Received] by sending the
    registry one call of its own, in the same block and without value,
    and then accepting the token; the other addresses have no code. *)
Module Reentry.
Definition relay : address := 3000.

Definition relayCode (c : uint256 -> Call)
    : address -> address -> address -> uint256 -> M bool :=
  λ to operator from tokenId,
    if bool_decide (to = relay)
    then message (mkEnv relay 0 1700000000 Scenario.noCode) (c tokenId) ;; mret true
    else mret true.

(** The deployer's calls in a world where [relay] runs [relayCode c]. *)
Definition env_admin (c : uint256 -> Call) : Env :=
  mkEnv Scenario.admin 0 1700000000 (relayCode c).

(** The registry after the deployer has granted [relay] a role. *)
Definition s_minter : State :=
  Scenario.after (grantRole Scenario.env_admin MINTER_ROLE relay) Scenario.s0.
Definition s_admin : State :=
  Scenario.after (grantRole Scenario.env_admin ADMIN_ROLE relay) Scenario.s0.
End Reentry.

Lemma relayCode_admissible sender value timestamp c :
  admissible (mkEnv sender value timestamp (Reentry.relayCode c)).
Proof.
  exists 1%nat. intros to operator from tokenId s r s' H.
  simpl in H. unfold Reentry.relayCode in H.
  case_bool_decide.
  - apply bind_Ok in H as ([] & s1 & H1 & [= _ <-]).
    apply rtc_once. eexists _, _. split; [|split; [|exact H1]].
    + done.
    + apply noCode_passive.
  - injection H as _ <-. apply rtc_refl.
Qed.

Lemma reachable_s0 : reachable Scenario.s0.
Proof.
  exists Scenario.s0. split; [|apply rtc_refl].
  exists Scenario.env_admin. vm_compute. reflexivity.
Qed.

Lemma reachable_s_minter : reachable Reentry.s_minter.
Proof.
  apply (reachable_step Scenario.env_admin (GrantRole MINTER_ROLE Reentry.relay)
           Scenario.s0); [apply reachable_s0 | | vm_compute; reflexivity].
  apply passive_admissible, noCode_passive.
Qed.

(** ** Token ids *)

(** C4 (as stated, refuted).  [relay] holds [MINTER_ROLE] and answers the
    receipt of a token by minting a certificate to [alice].  The deployer
    mints to [relay]: the call returns id 1, but the mint made from the
    hook has succeeded first, with id 2.  So the id returned is not one
    more than the id of the previous successful mint, and the ids of the
    [CertificateIssued] records, in the order of issue, are 2, 1. *)
Lemma nested_mint_issued_first :
  let env := Reentry.env_admin
               (λ _, MintCertificate Scenario.alice "Course" "A" "H2") in
  let r := transact (mintCertificate env Reentry.relay "Course" "B" "H1")
             Reentry.s_minter in
  reachable Reentry.s_minter ∧ admissible env ∧
  issued (logs Reentry.s_minter) = [] ∧
  r.1 = Ok 1 ∧ tokenIdCounter r.2 = 2 ∧
  issued (logs r.2) = [(2, Scenario.alice); (1, Reentry.relay)].
Proof.
  split; [apply reachable_s_minter|]. split; [apply relayCode_admissible|].
  vm_compute. by repeat split.
Qed.

(** C4 (amended).  In every state reachable from deployment, whatever
    the recipients' hooks have called back, the ids issued so far are
    exactly [1, ..., _tokenIdCounter], each issued once; none is 0.  A
    single mint by any variant returns [_tokenIdCounter + 1], an id not
    issued before; the ids issued from its recipient's hook are larger
    and their records come first.  When the recipients do not call back,
    the ids are issued in increasing order: in such a history the ids in
    the order of issue are [1, 2, ..., _tokenIdCounter], a single mint
    leaves the counter at the id it returns, and a batch of [n] consumes
    [counter+1, ..., counter+n], the i-th id going to the i-th student.
    No other entry point moves the counter or issues an id. *)
Theorem tokenId_sequence s :
  reachable s →
  (issued (logs s)).*1 ≡ₚ seqZ 1 (tokenIdCounter s) ∧
  NoDup (issued (logs s)).*1 ∧
  (calm s → (issued (logs s)).*1 = seqZ 1 (tokenIdCounter s)) ∧
  (∀ env c m tid s',
     admissible env → singleMint env c = Some m → m s = Ok (tid, s') →
     tid = tokenIdCounter s + 1 ∧ 1 ≤ tid ∧ tid ≤ tokenIdCounter s' ∧
     (tid ∉ (issued (logs s)).*1) ∧
     (∃ l, issued (logs s') = issued (logs s) ++ l ++ [(tid, recipient c)] ∧
           ∀ x, x ∈ l.*1 → tid < x) ∧
     (passive env →
      tokenIdCounter s' = tid ∧
      issued (logs s') = issued (logs s) ++ [(tid, recipient c)])) ∧
  (∀ env students courseNames grades ipfsHashes s',
     passive env →
     mintCertificatesBatch env students courseNames grades ipfsHashes s = Ok (tt, s') →
     tokenIdCounter s' = tokenIdCounter s + Z.of_nat (length students) ∧
     issued (logs s') =
       issued (logs s) ++
       zip (seqZ (tokenIdCounter s + 1) (Z.of_nat (length students))) students) ∧
  (∀ env c s',
     isMint c = false → passive env ∨ hookless c = true →
     dispatch env c s = Ok (tt, s') →
     tokenIdCounter s' = tokenIdCounter s ∧ issued (logs s') = issued (logs s)).
Proof.
  intros Hr. destruct (reachable_inv s Hr) as [Hc Hi _].
  split; [done|]. split; [by rewrite Hi; apply NoDup_seqZ|].
  split; [apply calm_inOrder|]. split; [|split].
  - intros env c m tid s' Ha Hm H.
    destruct (singleMint_Ok _ _ _ _ _ _ Hm H) as (_ & s2 & Hb & Hq).
    apply _mintBase_Ok in Hb as (_ & -> & s1 & Hh & ->).
    destruct (admissible_issues env Ha _ _ _ _ _ _ _ Hh) as (Hc1 & l & Hl & Hp).
    rewrite issued_allocated in Hl.
    change (tokenIdCounter (allocated (recipient c) s)) with (tokenIdCounter s + 1) in *.
    split; [done|]. split; [lia|]. split; [|split; [|split]].
    + rewrite (quiet_counter _ _ Hq). simpl. lia.
    + rewrite Hi. intros Hin%elem_of_seqZ. lia.
    + exists l. split.
      * by rewrite (quiet_issued _ _ Hq), issued_finalized, Hl, app_assoc.
      * intros x Hx. rewrite Hp in Hx. apply elem_of_seqZ in Hx. lia.
    + intros Hpass. apply Hpass in Hh as <-. split.
      * by rewrite (quiet_counter _ _ Hq).
      * by rewrite (quiet_issued _ _ Hq), issued_finalized, issued_allocated.
  - intros env students courseNames grades ipfsHashes s' Hpass H.
    rewrite mintCertificatesBatch_run in H.
    destruct (minterGate env s); [done|].
    destruct (batchShape _ _ _ _); [done|].
    apply (for_range_Ok _ _ _ _ _ _ Hpass) in H as (Hc' & Hl).
    by rewrite drop_0, firstn_all in Hl.
  - intros env c s' Hm Hhook H.
    assert (inOrder s s' ∧ tokenIdCounter s' = tokenIdCounter s) as [(_ & l & Hl & Hp) Hc'].
    { destruct Hhook as [Hpass|Hless].
      - pose proof (dispatch_runs eq env c s s' Hpass H) as Hrun.
        split; [by apply run_inOrder|].
        destruct (hookless c) eqn:Hless;
          [by apply (quiet_counter s s'), (dispatch_quiet env c)|].
        destruct c; try discriminate Hm; try discriminate Hless.
        simpl in H. unfold safeTransferFrom in H.
        apply bind_Ok in H as ([] & s1 & H1 & H2).
        apply checkOnERC721Received_Ok, Hpass in H2 as <-.
        by apply (quiet_counter s s1), (transferFrom_quiet env from to tokenId).
      - pose proof (dispatch_quiet _ _ _ _ Hless H) as Hq.
        split; [|apply (quiet_counter _ _ Hq)].
        by apply run_inOrder, run_quiet. }
    split; [done|]. rewrite Hc', Z.sub_diag in Hp. destruct l; [|done].
    by rewrite app_nil_r in Hl.
Qed.

Lemma calm_s1 : calm Scenario.s1.
Proof.
  exists Scenario.s0. split; [exists Scenario.env_admin; vm_compute; reflexivity|].
  apply rtc_once.
  exists Scenario.env_admin, (MintCertificate Scenario.alice "Course" "A" "H1").
  split; [apply noCode_passive | vm_compute; reflexivity].
Qed.

Lemma tokenId_sequence_witness :
  let batch := mintCertificatesBatch Scenario.env_admin [Scenario.bob; Scenario.carol]
                 ["Maths"; "Physics"] ["A"; "B"] ["H2"; "H3"] in
  (issued (logs Scenario.s1)).*1 = seqZ 1 (tokenIdCounter Scenario.s1) ∧
  (2 = tokenIdCounter Scenario.s1 + 1 ∧ tokenIdCounter Scenario.s2 = 2 ∧
   issued (logs Scenario.s2) = issued (logs Scenario.s1) ++ [(2, Scenario.bob)]) ∧
  (tokenIdCounter (Scenario.after batch Scenario.s1) = tokenIdCounter Scenario.s1 + 2 ∧
   issued (logs (Scenario.after batch Scenario.s1)) =
     issued (logs Scenario.s1) ++ [(2, Scenario.bob); (3, Scenario.carol)]).
Proof.
  intros batch.
  destruct (tokenId_sequence Scenario.s1 (calm_reachable _ calm_s1))
    as (_ & _ & Hcalm & Hsingle & Hbatch & _).
  split; [|split].
  - apply Hcalm, calm_s1.
  - destruct (Hsingle Scenario.env_admin
                (MintCertificate Scenario.bob "Course" "B" "H2")
                _ 2 Scenario.s2 (passive_admissible _ (noCode_passive _ _ _)) eq_refl)
      as (Htid & _ & _ & _ & _ & Hpass); [vm_compute; reflexivity|].
    destruct (Hpass (noCode_passive _ _ _)) as [Hc Hl]. done.
  - apply (Hbatch Scenario.env_admin [Scenario.bob; Scenario.carol]
             ["Maths"; "Physics"] ["A"; "B"] ["H2"; "H3"] (Scenario.after batch Scenario.s1)
             (noCode_passive _ _ _)).
    vm_compute. reflexivity.
Defined.

(** ** Content hashes *)










(** The mint the amended statement leaves out.  [relay] holds
    [MINTER_ROLE] and answers the receipt of a token by minting to
    [alice] with the hash of the mint in progress: [usedHashes] is
    written after the hook, so both mints pass the check, and the call
    leaves two valid certificates with content hash ["H1"]. *)
Example nested_mint_shares_hash :
  let env := Reentry.env_admin
               (λ _, MintCertificate Scenario.alice "Course" "A" "H1") in
  let r := transact (mintCertificate env Reentry.relay "Course" "B" "H1")
             Reentry.s_minter in
  r.1 = Ok 1 ∧
  (transact (verifyCertificate 1) r.2).1 = Ok (true, "H1", REGULAR) ∧
  (transact (verifyCertificate 2) r.2).1 = Ok (true, "H1", REGULAR) ∧
  _ownerOf r.2 1 = Reentry.relay ∧ _ownerOf r.2 2 = Scenario.alice.
Proof. vm_compute. by repeat split. Qed.

(** ** Revocation *)

Lemma reachable_s_admin : reachable Reentry.s_admin.
Proof.
  apply (reachable_step Scenario.env_admin (GrantRole ADMIN_ROLE Reentry.relay)
           Scenario.s0); [apply reachable_s0 | | vm_compute; reflexivity].
  apply passive_admissible, noCode_passive.
Qed.

(** C6 (the code departs from the claim).  [relay] holds [ADMIN_ROLE]
    and answers the receipt of a token by revoking it.  The deployer
    mints to [relay].  Inside the hook the revocation succeeds:
    [isRevoked] is set and [CertRevoked] is logged.  Then [_mintBase]
    writes the configuration of the token, with [isRevoked = false].
    When the mint returns the log holds the revocation of token 1, yet
    its flag is reset and [verifyCertificate] reports it valid. *)
Theorem revocation_reset_by_mint :
  let caller := mkEnv Reentry.relay 0 1700000000 Scenario.noCode in
  let env := Reentry.env_admin RevokeCertificate in
  let inHook := transact (message caller (RevokeCertificate 1))
                  (allocated Reentry.relay Reentry.s_admin) in
  let r := transact (mintCertificate env Reentry.relay "Course" "B" "H1")
             Reentry.s_admin in
  reachable Reentry.s_admin ∧ admissible env ∧
  inHook.1 = Ok tt ∧ isRevokedAt inHook.2 1 = true ∧
  r.1 = Ok 1 ∧
  drop 4 (logs r.2) =
    [Transfer 0 Reentry.relay 1; CertRevoked 1 Reentry.relay; MetadataUpdate 1;
     CertificateIssued 1 Reentry.relay "H1" REGULAR 1700000000;
     RegularCertDetails 1 "Course" "B"] ∧
  isRevokedAt r.2 1 = false ∧
  (transact (verifyCertificate 1) r.2).1 = Ok (true, "H1", REGULAR).
Proof.
  split; [apply reachable_s_admin|]. split; [apply relayCode_admissible|].
  vm_compute. by repeat split.
Qed.

(** ** Verification *)

(** C7.  [verifyCertificate] needs no capability (it takes no caller and
    reads no role) and never reverts or changes the storage.  For a token
    that does not exist or is revoked it returns [isValid = false] with
    the empty reference; for an existing, unrevoked token it returns
    [isValid = true], the stored token URI and the token's [certType]. *)
Theorem verifyCertificate_spec s tokenId :
  ∃ isValid uri cType,
    transact (verifyCertificate tokenId) s = (Ok (isValid, uri, cType), s) ∧
    (_ownerOf s tokenId = 0 ∨ isRevokedAt s tokenId = true →
     isValid = false ∧ uri = "") ∧
    (_ownerOf s tokenId ≠ 0 → isRevokedAt s tokenId = false →
     isValid = true ∧ uri = tokenURIs_at s tokenId ∧
     cType = certType (certConfigs_at s tokenId)).
Proof.
  unfold transact, isRevokedAt. rewrite verifyCertificate_run.
  destruct (bool_decide_reflect (_ownerOf s tokenId = 0)) as [Ho|Ho].
  - eexists _, _, _. split; [done|]. split; [done|]. by intros ?.
  - destruct (isRevoked (certConfigs_at s tokenId)) eqn:Hr.
    + eexists _, _, _. split; [done|]. split; [done|]. by intros _ ?.
    + eexists _, _, _. split; [done|]. split; [|done].
      by intros [?|?].
Qed.

Lemma verifyCertificate_spec_witness :
  transact (verifyCertificate 1) Scenario.s1 = (Ok (true, "H1", REGULAR), Scenario.s1) ∧
  (transact (verifyCertificate 7) Scenario.s1).1 = Ok (false, "", REGULAR).
Proof.
  split.
  - destruct (verifyCertificate_spec Scenario.s1 1)
      as (isValid & uri & cType & Hrun & _ & Hvalid).
    destruct Hvalid as (-> & -> & ->).
    + vm_compute. discriminate.
    + vm_compute. reflexivity.
    + exact Hrun.
  - destruct (verifyCertificate_spec Scenario.s1 7)
      as (isValid & uri & cType & Hrun & Hinvalid & _).
    destruct Hinvalid as (-> & ->).
    + left. vm_compute. reflexivity.
    + vm_compute. reflexivity.
Defined.

(** ** Semester certificates *)

(** The serial and memo numbers of the [SemesterCertDetails] records. *)
Definition semesterDetails (l : list Event) : list (uint256 * string * string) :=
  omap (λ e, match e with
             | SemesterCertDetails tokenId serial memo _ => Some (tokenId, serial, memo)
             | _ => None
             end) l.

(** C8 (the code departs from the claim).  [relay] holds [MINTER_ROLE]
    and answers the receipt of a token by minting a semester certificate
    to [alice] with the serial number of the mint in progress.  The
    identifiers are checked before [_mintBase] and written after it, so
    the mint made from the hook passes the check: the call leaves two
    valid semester certificates with serial number ["SN-1"]. *)
Theorem semester_serial_issued_twice :
  let env := Reentry.env_admin
               (λ _, MintSemesterCertificate Scenario.alice Scenario.semester2 "HS2") in
  let r := transact (mintSemesterCertificate env Reentry.relay Scenario.semester1 "HS1")
             Reentry.s_minter in
  reachable Reentry.s_minter ∧ admissible env ∧
  serialNo Scenario.semester2 = serialNo Scenario.semester1 ∧
  r.1 = Ok 1 ∧
  semesterDetails (logs r.2) = [(2, "SN-1", "MEMO-2"); (1, "SN-1", "MEMO-1")] ∧
  (transact (verifyCertificate 1) r.2).1 = Ok (true, "HS1", SEMESTER) ∧
  (transact (verifyCertificate 2) r.2).1 = Ok (true, "HS2", SEMESTER).
Proof.
  split; [apply reachable_s_minter|]. split; [apply relayCode_admissible|].
  vm_compute. by repeat split.
Qed.

(** ** The owner index *)

(** C9.  [getStudentCertificates] reads the owner index and changes
    nothing.  In every reachable state, whatever the recipients' hooks
    have called back, it returns for every owner the ids of the
    certificates issued to that owner, in the order they were issued
    (oldest first) -- the empty list for an owner to whom none was
    issued.  A single mint puts the id it returns at the end of the list
    of the student it names, after the ids issued to that student from
    the hook, and takes nothing off any list; when the recipient does not
    call back, it appends that one id and leaves every other list alone,
    and a batch appends, per owner, the ids of that owner's elements in
    input order.  No call removes an entry, and revocation, like every
    entry point that does not mint, changes no list. *)
Theorem getStudentCertificates_insertion_order s :
  reachable s →
  (∀ student,
     transact (getStudentCertificates student) s
       = (Ok (issuedTo student (logs s)), s)) ∧
  (∀ env c m tid s',
     admissible env → singleMint env c = Some m → m s = Ok (tid, s') →
     (∃ fromHook, studentCertificates_at s' (recipient c) =
                    studentCertificates_at s (recipient c) ++ fromHook ++ [tid]) ∧
     (passive env →
      ∀ student,
        studentCertificates_at s' student =
          studentCertificates_at s student ++
          (if decide (recipient c = student) then [tid] else []))) ∧
  (∀ env students courseNames grades ipfsHashes s',
     passive env →
     mintCertificatesBatch env students courseNames grades ipfsHashes s = Ok (tt, s') →
     ∀ student,
       studentCertificates_at s' student =
         studentCertificates_at s student ++
         (filter (λ p, p.2 = student)
            (zip (seqZ (tokenIdCounter s + 1) (Z.of_nat (length students))) students)).*1) ∧
  (∀ env c s',
     admissible env → dispatch env c s = Ok (tt, s') →
     ∀ student,
       studentCertificates_at s student `prefix_of` studentCertificates_at s' student) ∧
  (∀ env c s',
     isMint c = false → passive env ∨ hookless c = true →
     dispatch env c s = Ok (tt, s') →
     ∀ student, studentCertificates_at s' student = studentCertificates_at s student) ∧
  (∀ env tokenId s',
     revokeCertificate env tokenId s = Ok (tt, s') →
     ∀ student, studentCertificates_at s' student = studentCertificates_at s student) ∧
  (∀ student, issued (logs s) = [] → studentCertificates_at s student = []).
Proof.
  intros Hr. pose proof (reachable_inv s Hr) as [_ _ Hx].
  assert (∀ env c s', isMint c = false → passive env ∨ hookless c = true →
            dispatch env c s = Ok (tt, s') →
            ∀ student, studentCertificates_at s' student = studentCertificates_at s student)
    as Hsame.
  { intros env c s' Hm Hhook H student. unfold studentCertificates_at.
    destruct (hookless c) eqn:Hless;
      [by rewrite (quiet_students _ _ (dispatch_quiet _ _ _ _ Hless H))|].
    destruct Hhook as [Hpass|?]; [|done].
    destruct c; try discriminate Hm; try discriminate Hless.
    simpl in H. unfold safeTransferFrom in H.
    apply bind_Ok in H as ([] & s1 & H1 & H2).
    apply checkOnERC721Received_Ok, Hpass in H2 as <-.
    by rewrite (quiet_students _ _ (transferFrom_quiet _ _ _ _ _ _ H1)). }
  split; [|split; [|split; [|split; [|split; [|split]]]]].
  - intros student. unfold transact, getStudentCertificates, gets. by rewrite Hx.
  - intros env c m tid s' Ha Hm H.
    destruct (singleMint_Ok _ _ _ _ _ _ Hm H) as (_ & s2 & Hb & Hq).
    apply _mintBase_Ok in Hb as (_ & -> & s1 & Hh & ->).
    assert (∀ a, studentCertificates_at s' a =
                 studentCertificates_at s1 a ++
                 (if decide (recipient c = a) then [tokenIdCounter s + 1] else []))
      as Hend.
    { intros a. unfold studentCertificates_at at 1. rewrite (quiet_students _ _ Hq).
      apply studentCertificates_finalized. }
    split.
    + pose proof (ext_index _ _ (admissible_extends env Ha _ _ _ _ _ _ _ Hh) (recipient c))
        as (fromHook & Hgrow).
      exists fromHook. rewrite Hend, Hgrow. rewrite decide_True by done.
      by rewrite <- app_assoc.
    + intros Hpass student. apply Hpass in Hh as <-. apply Hend.
  - intros env students courseNames grades ipfsHashes s' Hpass H student.
    pose proof (dispatch_indexed env
                  (MintCertificatesBatch students courseNames grades ipfsHashes) s s'
                  (passive_admissible _ Hpass) H Hx) as Hx'.
    rewrite mintCertificatesBatch_run in H.
    destruct (minterGate env s); [done|].
    destruct (batchShape _ _ _ _); [done|].
    apply (for_range_Ok _ _ _ _ _ _ Hpass) in H as (_ & Hlog).
    rewrite drop_0, firstn_all in Hlog.
    rewrite Hx', Hx. unfold issuedTo. by rewrite Hlog, filter_app, fmap_app.
  - intros env c s' Ha H student. apply (ext_index _ _ (dispatch_extends _ _ _ _ Ha H)).
  - exact Hsame.
  - intros env tokenId s' H. by apply (Hsame env (RevokeCertificate tokenId) s'); [|right|].
  - intros student Hnone. rewrite Hx. by apply issuedTo_quiet.
Qed.

Lemma reachable_s_batch : reachable Scenario.s_batch.
Proof.
  apply (reachable_step Scenario.env_admin Scenario.batch12 Scenario.s0);
    [apply reachable_s0 | | vm_compute; reflexivity].
  apply passive_admissible, noCode_passive.
Qed.

Lemma getStudentCertificates_insertion_order_witness :
  transact (getStudentCertificates Scenario.carol) Scenario.s_batch
    = (Ok [5; 9; 12], Scenario.s_batch) ∧
  transact (getStudentCertificates Scenario.alice) Scenario.s_batch
    = (Ok [], Scenario.s_batch).
Proof.
  destruct (getStudentCertificates_insertion_order Scenario.s_batch reachable_s_batch)
    as (Hread & _).
  split.
  - rewrite (Hread Scenario.carol). vm_compute. reflexivity.
  - rewrite (Hread Scenario.alice). vm_compute. reflexivity.
Defined.

(** The list of a student to whom the hook of another mint issued a
    certificate: the deployer mints to [relay], whose hook mints to
    [alice]; [alice]'s list is [[2]] and [relay]'s is [[1]]. *)
Example index_after_nested_mint :
  let env := Reentry.env_admin
               (λ _, MintCertificate Scenario.alice "Course" "A" "H2") in
  let s' := Scenario.after (mintCertificate env Reentry.relay "Course" "B" "H1")
              Reentry.s_minter in
  (transact (getStudentCertificates Scenario.alice) s').1 = Ok [2] ∧
  (transact (getStudentCertificates Reentry.relay) s').1 = Ok [1] ∧
  issuedTo Scenario.alice (logs s') = [2] ∧ issuedTo Reentry.relay (logs s') = [1].
Proof. vm_compute. by repeat split. Qed.

(** ** Achievement certificates *)

(** C10.  [mintAchievementCertificate] ignores its [verifiers] argument:
    two calls that differ only in that array (the empty array included)
    give the same outcome -- the same returned token id or the same
    error -- the same storage and the same log. *)
Theorem mintAchievementCertificate_ignores_verifiers
    env s student title category ipfsHash (verifiers1 verifiers2 : list address) :
  transact (mintAchievementCertificate env student title category ipfsHash verifiers1) s
    = transact (mintAchievementCertificate env student title category ipfsHash verifiers2) s ∧
  transact (mintAchievementCertificate env student title category ipfsHash verifiers1) s
    = transact (mintAchievementCertificate env student title category ipfsHash []) s.
Proof. split; reflexivity. Qed.

(** * Further properties of the registry *)

(** ** What a mint stores *)

(** What the registry holds about one token: its current owner, its
    stored URI and its configuration. *)
Definition tokenView (s : State) (tokenId : uint256)
    : address * string * CertificateConfig :=
  (_ownerOf s tokenId, tokenURIs_at s tokenId, certConfigs_at s tokenId).

(** The configuration [_mintBase] writes. *)
Definition freshConfig (env : Env) (cType : CertificateType) : CertificateConfig :=
  {| certType := cType; isRevoked := false;
     issuer := msg_sender env; issueDate := block_timestamp env |}.

Lemma tokenView_finalized env to tokenId h cType s :
  tokenView (finalized env to tokenId h cType s) tokenId
    = (_ownerOf s tokenId, h, freshConfig env cType).
Proof.
  unfold tokenView, _ownerOf, tokenURIs_at, certConfigs_at, finalized. simpl.
  by rewrite !lookup_insert_eq.
Qed.

Lemma tokenView_minted env to h cType s :
  tokenView (minted env to h cType s) (tokenIdCounter s + 1)
    = (to, h, freshConfig env cType).
Proof.
  unfold tokenView, _ownerOf, tokenURIs_at, certConfigs_at, minted, finalized, allocated.
  simpl. by rewrite !lookup_insert_eq.
Qed.

Lemma tokenView_minted_ne env to h cType s id :
  id ≠ tokenIdCounter s + 1 →
  tokenView (minted env to h cType s) id = tokenView s id.
Proof.
  intros Hne.
  unfold tokenView, _ownerOf, tokenURIs_at, certConfigs_at, minted, finalized, allocated.
  simpl. by rewrite !lookup_insert_ne.
Qed.

Lemma tokenView_appendLog e s id : tokenView (appendLog e s) id = tokenView s id.
Proof. done. Qed.

Lemma tokenView_registered params tid s id :
  tokenView (registered params tid s) id = tokenView s id.
Proof. done. Qed.

Lemma verifyCertificate_view tokenId s owner uri conf :
  tokenView s tokenId = (owner, uri, conf) → owner ≠ 0 → isRevoked conf = false →
  transact (verifyCertificate tokenId) s = (Ok (true, uri, certType conf), s).
Proof.
  unfold tokenView. intros [= Ho Hu Hc] Hnz Hr. apply transact_Ok.
  rewrite verifyCertificate_run, Ho, Hu, Hc, Hr.
  by rewrite bool_decide_eq_false_2.
Qed.

(** What one successful single mint leaves behind for the new token:
    the owner the hook left, and the record of the call. *)
Lemma singleMint_view env c m tid s s' :
  singleMint env c = Some m → m s = Ok (tid, s') →
  recipient c ≠ 0 ∧
  ∃ s1, onERC721Received env (recipient c) (msg_sender env) 0 tid
          (allocated (recipient c) s) = Ok (true, s1) ∧
        tokenView s' tid = (_ownerOf s1 tid, contentHash c, freshConfig env (mintType c)).
Proof.
  intros Hm H.
  assert (∃ s2, _mintBase env (recipient c) (contentHash c) (mintType c) s = Ok (tid, s2) ∧
                tokenView s' tid = tokenView s2 tid) as (s2 & Hb & Hv).
  { destruct c; simpl in *; try discriminate Hm; injection Hm as <-.
    - rewrite mintCertificate_run in H.
      destruct (minterGate env s); [done|].
      destruct (_mintBase _ _ _ _ _) as [[t s2]|] eqn:Hb; [|done].
      injection H as <- <-. by exists s2.
    - rewrite mintSemesterCertificate_run in H.
      destruct (minterGate env s); [done|].
      destruct (_ || _); [done|].
      destruct (_mintBase _ _ _ _ _) as [[t s2]|] eqn:Hb; [|done].
      injection H as <- <-. by exists s2.
    - rewrite mintAchievementCertificate_run in H.
      destruct (minterGate env s); [done|].
      destruct (_mintBase _ _ _ _ _) as [[t s2]|] eqn:Hb; [|done].
      injection H as <- <-. by exists s2.
    - rewrite mintCustomCertificate_run in H.
      destruct (minterGate env s); [done|].
      destruct (_mintBase _ _ _ _ _) as [[t s2]|] eqn:Hb; [|done].
      injection H as <- <-. by exists s2. }
  apply _mintBase_Ok in Hb as (He & -> & s1 & Hh & ->).
  apply mintBase_entry_None in He as (Hnz & _).
  split; [done|]. exists s1. split; [done|].
  rewrite Hv. apply tokenView_finalized.
Qed.

(** X1.  Mint, then verify.  After a successful single mint by any of the
    four single-mint entry points, whatever the recipient's hook called
    back, the returned token exists, its configuration records the
    variant's certificate type, the caller as issuer, the block time as
    issue date and [isRevoked = false], and [verifyCertificate] on the
    returned id gives [isValid = true], the content hash passed to the
    mint and that certificate type.  When the hook does not call back,
    the token is owned by the student named in the call. *)
Theorem mint_then_verify env c m tid s s' :
  admissible env →
  singleMint env c = Some m →
  m s = Ok (tid, s') →
  _ownerOf s' tid ≠ 0 ∧
  certConfigs_at s' tid = freshConfig env (mintType c) ∧
  transact (verifyCertificate tid) s' = (Ok (true, contentHash c, mintType c), s') ∧
  (passive env → _ownerOf s' tid = recipient c).
Proof.
  intros Ha Hm H.
  destruct (singleMint_view _ _ _ _ _ _ Hm H) as (Hnz & s1 & Hh & Hv).
  assert (tid = tokenIdCounter s + 1) as Htid.
  { destruct (singleMint_Ok _ _ _ _ _ _ Hm H) as (_ & s2 & Hb & _).
    by apply _mintBase_Ok in Hb as (_ & -> & _). }
  assert (_ownerOf (allocated (recipient c) s) tid = recipient c) as Halloc.
  { subst tid. unfold _ownerOf, allocated. simpl. by rewrite lookup_insert_eq. }
  assert (_ownerOf s1 tid ≠ 0) as Hown.
  { apply (ext_owned _ _ (admissible_extends env Ha _ _ _ _ _ _ _ Hh)). by rewrite Halloc. }
  pose proof Hv as [= Ho _ Hc]. split; [by rewrite Ho|]. split; [done|].
  split; [by apply (verifyCertificate_view _ _ _ _ _ Hv)|].
  intros Hpass. apply Hpass in Hh as <-. by rewrite Ho.
Qed.

Lemma mint_then_verify_witness :
  _ownerOf Scenario.s_sem 1 ≠ 0 ∧
  certConfigs_at Scenario.s_sem 1 = freshConfig Scenario.env_admin SEMESTER ∧
  transact (verifyCertificate 1) Scenario.s_sem
    = (Ok (true, "HS1", SEMESTER), Scenario.s_sem) ∧
  _ownerOf Scenario.s_sem 1 = Scenario.alice.
Proof.
  destruct (mint_then_verify Scenario.env_admin
              (MintSemesterCertificate Scenario.alice Scenario.semester1 "HS1")
              _ 1 Scenario.s0 Scenario.s_sem
              (passive_admissible _ (noCode_passive _ _ _)) eq_refl)
    as (Hown & Hconf & Hverify & Hpass); [vm_compute; reflexivity|].
  split; [exact Hown|]. split; [exact Hconf|]. split; [exact Hverify|].
  apply Hpass, noCode_passive.
Defined.

(** A hook that hands the token on.  The contract at [relay] answers the
    receipt of a token by transferring it to [alice]: when the mint
    returns, the token minted to [relay] belongs to [alice], while the
    index lists it under [relay]. *)
Example hook_forwards_token :
  let env := Reentry.env_admin (TransferFrom Reentry.relay Scenario.alice) in
  let r := transact (mintCertificate env Reentry.relay "Course" "B" "H1") Scenario.s0 in
  admissible env ∧
  r.1 = Ok 1 ∧ _ownerOf r.2 1 = Scenario.alice ∧
  studentCertificates_at r.2 Reentry.relay = [1] ∧
  studentCertificates_at r.2 Scenario.alice = [] ∧
  (transact (verifyCertificate 1) r.2).1 = Ok (true, "H1", REGULAR).
Proof. split; [apply relayCode_admissible|]. vm_compute. by repeat split. Qed.

(** A batch loop whose recipients do not call back leaves the tokens
    that existed before it untouched and leaves, for each index of the
    range, a token with that index's student and hash. *)
Lemma for_range_views env students courseNames grades ipfsHashes count :
  passive env →
  ∀ start s s',
    for_range start count
      (batchBody env students courseNames grades ipfsHashes) s = Ok (tt, s') →
    (∀ id, id ≤ tokenIdCounter s → tokenView s' id = tokenView s id) ∧
    (∀ (j : nat) student h,
       (start ≤ j < start + count)%nat →
       students !! j = Some student → ipfsHashes !! j = Some h →
       student ≠ 0 ∧
       tokenView s' (tokenIdCounter s + 1 + Z.of_nat (j - start))
         = (student, h, freshConfig env REGULAR)).
Proof.
  intros Hpass.
  induction count as [|k IH]; intros start s s' H; simpl in H.
  - injection H as <-. split; [done|]. intros; lia.
  - apply bind_Ok in H as ([] & s1 & Hb & H).
    apply IH in H as (Hold & Hnew).
    apply batchBody_Ok in Hb as (st0 & h0 & c0 & g0 & s2 & Hst0 & Hh0 & _ & _ & Hm & ->).
    apply (_mintBase_calm _ _ _ _ _ _ _ Hpass) in Hm as (Hg & _ & ->).
    apply mintBase_entry_None in Hg as (Hnz & _).
    assert (tokenIdCounter
              (appendLog (RegularCertDetails (tokenIdCounter s + 1) c0 g0)
                 (minted env st0 h0 REGULAR s)) = tokenIdCounter s + 1) as Hc by done.
    split.
    + intros id Hid. rewrite Hold by (rewrite Hc; lia).
      rewrite tokenView_appendLog. apply tokenView_minted_ne. lia.
    + intros j student h Hj Hst Hh. destruct (decide (j = start)) as [->|Hne].
      * rewrite Hst0 in Hst. rewrite Hh0 in Hh. simplify_eq. split; [done|].
        rewrite Nat.sub_diag, Z.add_0_r, Hold by (rewrite Hc; lia).
        rewrite tokenView_appendLog. apply tokenView_minted.
      * destruct (Hnew j student h) as (? & Hv); [lia|done|done|].
        split; [done|]. rewrite Hc in Hv.
        replace (tokenIdCounter s + 1 + Z.of_nat (j - start))
          with (tokenIdCounter s + 1 + 1 + Z.of_nat (j - S start)) by lia.
        done.
Qed.

(** X2.  Batch mint, then verify.  After a successful
    [mintCertificatesBatch] whose recipients' hooks do not call back into
    the registry, the element at index [i] is the token [counter + 1 + i]
    (counter taken before the call): it is owned by [students[i]], its
    configuration is that of a fresh [REGULAR] certificate issued by the
    caller, and [verifyCertificate] returns [isValid = true] with
    [ipfsHashes[i]]. *)
Theorem batch_then_verify env students courseNames grades ipfsHashes s s' :
  passive env →
  mintCertificatesBatch env students courseNames grades ipfsHashes s = Ok (tt, s') →
  ∀ (i : nat) student h,
    students !! i = Some student →
    ipfsHashes !! i = Some h →
    let tid := tokenIdCounter s + 1 + Z.of_nat i in
    _ownerOf s' tid = student ∧
    certConfigs_at s' tid = freshConfig env REGULAR ∧
    transact (verifyCertificate tid) s' = (Ok (true, h, REGULAR), s').
Proof.
  intros Hpass H i student h Hst Hh tid.
  rewrite mintCertificatesBatch_run in H.
  destruct (minterGate env s); [done|].
  destruct (batchShape _ _ _ _); [done|].
  apply (for_range_views _ _ _ _ _ _ Hpass) in H as (_ & Hnew).
  pose proof (lookup_lt_Some _ _ _ Hst) as Hlt.
  destruct (Hnew i student h) as (Hnz & Hv); [lia|done|done|].
  rewrite Nat.sub_0_r in Hv. fold tid in Hv.
  pose proof Hv as [= Ho _ Hc]. split; [done|]. split; [done|].
  by apply (verifyCertificate_view _ _ _ _ _ Hv).
Qed.

Lemma batch_then_verify_witness :
  _ownerOf Scenario.s_batch 9 = Scenario.carol ∧
  certConfigs_at Scenario.s_batch 9 = freshConfig Scenario.env_admin REGULAR ∧
  transact (verifyCertificate 9) Scenario.s_batch
    = (Ok (true, "h9", REGULAR), Scenario.s_batch).
Proof.
  assert (mintCertificatesBatch Scenario.env_admin
            [Scenario.bob; Scenario.bob; Scenario.bob; Scenario.bob; Scenario.carol;
             Scenario.bob; Scenario.bob; Scenario.bob; Scenario.carol; Scenario.bob;
             Scenario.bob; Scenario.carol]
            ["c1"; "c2"; "c3"; "c4"; "c5"; "c6"; "c7"; "c8"; "c9"; "c10"; "c11"; "c12"]
            ["A"; "A"; "A"; "A"; "A"; "A"; "A"; "A"; "A"; "A"; "A"; "A"]
            ["h1"; "h2"; "h3"; "h4"; "h5"; "h6"; "h7"; "h8"; "h9"; "h10"; "h11"; "h12"]
            Scenario.s0 = Ok (tt, Scenario.s_batch)) as Hrun
    by (vm_compute; reflexivity).
  apply (batch_then_verify _ _ _ _ _ _ _ (noCode_passive _ _ _) Hrun 8 Scenario.carol "h9");
    reflexivity.
Defined.

(** ** Certificates are immutable *)

(** X3.  A certificate's record is immutable.  For a token that exists,
    no sequence of transactions -- by any callers, through any entry
    point -- changes its stored URI, its certificate type, its issuer or
    its issue date, and the token keeps existing.  So as long as the
    token has not been revoked, [verifyCertificate] keeps returning
    [isValid = true] with the same reference and type. *)
Theorem certificate_record_immutable s s' tokenId :
  steps s s' →
  _ownerOf s tokenId ≠ 0 →
  _ownerOf s' tokenId ≠ 0 ∧
  tokenRecord s' tokenId = tokenRecord s tokenId ∧
  (isRevokedAt s' tokenId = false →
   transact (verifyCertificate tokenId) s'
     = (Ok (true, tokenURIs_at s tokenId, certType (certConfigs_at s tokenId)), s')).
Proof.
  intros Hsteps Hown.
  pose proof (ext_owned _ _ (steps_extends _ _ Hsteps) _ Hown) as Hown'.
  pose proof (ext_record _ _ (steps_extends _ _ Hsteps) _ Hown) as Hrec.
  split; [done|]. split; [done|]. intros Hrev.
  injection Hrec as Hu Hc _ _. rewrite <- Hu, <- Hc.
  by apply (verifyCertificate_view tokenId s' (_ownerOf s' tokenId) _
              (certConfigs_at s' tokenId)).
Qed.

Lemma certificate_record_immutable_witness :
  _ownerOf Scenario.s2 1 ≠ 0 ∧
  tokenRecord Scenario.s2 1 = tokenRecord Scenario.s1 1 ∧
  (isRevokedAt Scenario.s2 1 = false →
   transact (verifyCertificate 1) Scenario.s2
     = (Ok (true, tokenURIs_at Scenario.s1 1,
            certType (certConfigs_at Scenario.s1 1)), Scenario.s2)).
Proof.
  apply (certificate_record_immutable Scenario.s1 Scenario.s2 1).
  - apply rtc_once.
    exists Scenario.env_admin, (MintCertificate Scenario.bob "Course" "B" "H2").
    split; [apply passive_admissible, noCode_passive | vm_compute; reflexivity].
  - vm_compute. discriminate.
Defined.


(** ** The audited verification *)

(** X4.  [verifyCertificateByVerifier] never fails for a caller holding
    [VERIFIER_ROLE], also on a token that does not exist or is revoked:
    it returns the validity and type that [verifyCertificate] reports for
    the same storage, and its only effect is one [CertVerified] record,
    carrying the token id, the caller and that validity, at the end of
    the log.  A caller without the role is rejected and nothing
    changes. *)
Theorem verifyCertificateByVerifier_spec env s tokenId :
  ∃ isValid uri cType,
    transact (verifyCertificate tokenId) s = (Ok (isValid, uri, cType), s) ∧
    transact (verifyCertificateByVerifier env tokenId) s =
      if hasRole s VERIFIER_ROLE (msg_sender env)
      then (Ok (isValid, cType),
            appendLog (CertVerified tokenId (msg_sender env) isValid) s)
      else (Err (AccessControlUnauthorizedAccount (msg_sender env) VERIFIER_ROLE), s).
Proof.
  destruct (verifyCertificate_spec s tokenId) as (isValid & uri & cType & Hv & _).
  exists isValid, uri, cType. split; [done|].
  unfold transact in *. unfold verifyCertificateByVerifier.
  unfold mbind at 1, M_bind at 1. rewrite onlyRole_run.
  destruct (hasRole _ _ _); [|done].
  unfold mbind at 1, M_bind at 1.
  destruct (verifyCertificate tokenId s) as [[[[v u] t] s1]|e]; [|done].
  by injection Hv as -> -> -> ->.
Qed.

(** ** The base URI *)

Lemma tokenURI_run tokenId s :
  tokenURI tokenId s =
    if bool_decide (_ownerOf s tokenId = 0) then Err (ERC721NonexistentToken tokenId)
    else Ok (tokenURIs_at s tokenId, s).
Proof.
  unfold tokenURI, super_tokenURI, _requireOwned, _baseURI. munfold. simpl.
  by case_bool_decide.
Qed.

(** X5.  [setBaseURI] has no effect on what the registry serves.  Called
    by an [ADMIN_ROLE] holder it succeeds and overwrites the
    [_baseTokenURI] slot only; [tokenURI] and [verifyCertificate] return
    for every token id what they returned before, whatever base was set,
    because nothing reads that slot. *)
Theorem setBaseURI_inert env s baseURI :
  hasRole s ADMIN_ROLE (msg_sender env) = true →
  transact (setBaseURI env baseURI) s = (Ok tt, set_baseTokenURI baseURI s) ∧
  ∀ tokenId,
    (transact (tokenURI tokenId) (set_baseTokenURI baseURI s)).1
      = (transact (tokenURI tokenId) s).1 ∧
    (transact (verifyCertificate tokenId) (set_baseTokenURI baseURI s)).1
      = (transact (verifyCertificate tokenId) s).1.
Proof.
  intros Hrole. split.
  - apply transact_Ok. unfold setBaseURI, mbind, M_bind.
    by rewrite onlyRole_run, Hrole.
  - intros tokenId. unfold transact.
    rewrite !tokenURI_run, !verifyCertificate_run.
    change (_ownerOf (set_baseTokenURI baseURI s) tokenId) with (_ownerOf s tokenId).
    split; [by case_bool_decide | done].
Qed.

Lemma setBaseURI_inert_witness :
  transact (setBaseURI Scenario.env_admin "ipfs://") Scenario.s1
    = (Ok tt, set_baseTokenURI "ipfs://" Scenario.s1) ∧
  (transact (tokenURI 1) (set_baseTokenURI "ipfs://" Scenario.s1)).1 = Ok "H1".
Proof.
  destruct (setBaseURI_inert Scenario.env_admin Scenario.s1 "ipfs://") as [Hrun Hsame].
  - vm_compute. reflexivity.
  - split; [exact Hrun|]. rewrite (proj1 (Hsame 1)). vm_compute. reflexivity.
Defined.

(** ** Access control *)

(** The role each entry point of the contract demands in its
    [onlyRole] modifier ([verifyCertificate] and the other views demand
    none). *)
Definition requiredRole (c : Call) : option Role :=
  match c with
  | MintCertificatesBatch _ _ _ _ | MintCertificate _ _ _ _
  | MintSemesterCertificate _ _ _ | MintAchievementCertificate _ _ _ _ _
  | MintCustomCertificate _ _ _ _ _ => Some MINTER_ROLE
  | RevokeCertificate _ | SetBaseURI _ | Pause | Unpause => Some ADMIN_ROLE
  | VerifyCertificateByVerifier _ => Some VERIFIER_ROLE
  | _ => None
  end.
(** X6.  The role check comes before everything else in the body.  A
    call that carries value reverts without data, no entry point being
    payable.  Otherwise a call to one of the contract's guarded entry
    points by an account that does not hold the role of that entry point
    fails with [AccessControlUnauthorizedAccount(caller, role)].  Either
    way nothing changes, whatever the arguments and whether or not the
    registry is paused.  Holding another role does not help: [ADMIN_ROLE]
    or [DEFAULT_ADMIN_ROLE] without [MINTER_ROLE] cannot mint, and
    [MINTER_ROLE] without [ADMIN_ROLE] cannot revoke or pause. *)
Theorem role_checked_first env c s role :
  requiredRole c = Some role →
  hasRole s role (msg_sender env) = false →
  transact (message env c) s
    = (Err (if bool_decide (msg_value env = 0)
            then AccessControlUnauthorizedAccount (msg_sender env) role
            else EmptyRevert), s).
Proof.
  intros Hreq Hrole. apply transact_Err. unfold message.
  case_bool_decide as Hv; [|by rewrite nonPayable_valued].
  rewrite nonPayable_plain by done.
  assert (∀ A (k : M A), (onlyRole env role ;; k) s
            = Err (AccessControlUnauthorizedAccount (msg_sender env) role)) as Hgate.
  { intros A k. unfold mbind, M_bind. by rewrite onlyRole_run, Hrole. }
  destruct c; simpl in Hreq; try discriminate Hreq; injection Hreq as <-; simpl;
    rewrite ?void_Err; apply Hgate.
Qed.

Lemma role_checked_first_witness :
  transact (message (mkEnv Scenario.alice 0 1700000500 Scenario.noCode)
              (RevokeCertificate 1)) Scenario.s1
    = (Err (AccessControlUnauthorizedAccount Scenario.alice ADMIN_ROLE), Scenario.s1) ∧
  transact (message (mkEnv Scenario.alice 1 1700000500 Scenario.noCode)
              (RevokeCertificate 1)) Scenario.s1
    = (Err EmptyRevert, Scenario.s1).
Proof.
  split.
  - apply (role_checked_first (mkEnv Scenario.alice 0 1700000500 Scenario.noCode)
             (RevokeCertificate 1) Scenario.s1 ADMIN_ROLE eq_refl).
    vm_compute. reflexivity.
  - apply (role_checked_first (mkEnv Scenario.alice 1 1700000500 Scenario.noCode)
             (RevokeCertificate 1) Scenario.s1 ADMIN_ROLE eq_refl).
    vm_compute. reflexivity.
Defined.

(** ** Which tokens exist *)

(** A committed call whose caller is not the zero address, as every
    caller on the chain is. *)
Definition senderStep (s s' : State) : Prop :=
  ∃ env c, msg_sender env ≠ 0 ∧ admissible env ∧ message env c s = Ok (tt, s').

(** The states the deployed registry can be in. *)
Definition live (s : State) : Prop :=
  ∃ s0, deployed s0 ∧ rtc senderStep s0 s.

(** The ownership ledger agrees with the counter: the tokens that exist
    are those numbered [1 .. _tokenIdCounter]; a token that does not
    exist carries no approval, and the zero address has no operator. *)
Record ledgerInv (s : State) : Prop := mkLedgerInv {
  led_counter : 0 ≤ tokenIdCounter s ≤ MAX_UINT256;
  led_owned : ∀ id, _ownerOf s id ≠ 0 ↔ 1 ≤ id ≤ tokenIdCounter s;
  led_approvals : ∀ id, _ownerOf s id = 0 → tokenApprovals_at s id = 0;
  led_operators : ∀ x, operatorApprovals_at s 0 x = false
}.

(** The entry points that leave the ledger and the counter alone. *)
Record ledgerFrame (s s' : State) : Prop := mkLedgerFrame {
  lf_counter : tokenIdCounter s' = tokenIdCounter s;
  lf_owners : owners s' = owners s;
  lf_tokenApprovals : tokenApprovals s' = tokenApprovals s;
  lf_operatorApprovals : operatorApprovals s' = operatorApprovals s
}.

Lemma ledgerInv_frame s s' : ledgerFrame s s' → ledgerInv s → ledgerInv s'.
Proof.
  intros [Hc Ho Ht Hp] [I1 I2 I3 I4].
  constructor; unfold _ownerOf, tokenApprovals_at, operatorApprovals_at in *;
    rewrite ?Hc, ?Ho, ?Ht, ?Hp; done.
Qed.

Lemma ledgerInv_genesis deployer : ledgerInv (genesis deployer).
Proof.
  constructor; simpl.
  - unfold MAX_UINT256, UINT256_MODULUS. lia.
  - intros id. unfold _ownerOf. simpl. rewrite lookup_empty. simpl. split; [done|lia].
  - intros id _. unfold tokenApprovals_at. simpl. by rewrite lookup_empty.
  - intros x. unfold operatorApprovals_at. simpl. by rewrite lookup_empty.
Qed.
Definition keepsLedger (s s' : State) : Prop := ledgerInv s → ledgerInv s'.

(** The ledger agrees with the counter also while the hook of a mint
    runs: the id is counted and owned. *)
Lemma ledgerInv_allocated to h s :
  mintBase_entry to h s = None → ledgerInv s → ledgerInv (allocated to s).
Proof.
  intros Hg [I1 I2 I3 I4].
  apply mintBase_entry_None in Hg as (Hto & _ & _ & Hmax & _).
  constructor; unfold _ownerOf, tokenApprovals_at, operatorApprovals_at, allocated in *;
    simpl.
  - lia.
  - intros id. destruct (decide (id = tokenIdCounter s + 1)) as [->|Hne].
    + rewrite lookup_insert_eq. simpl. split; [lia|done].
    + rewrite lookup_insert_ne by done. rewrite I2. lia.
  - intros id. destruct (decide (id = tokenIdCounter s + 1)) as [->|Hne].
    + by rewrite lookup_insert_eq.
    + rewrite lookup_insert_ne by done. apply I3.
  - done.
Qed.

Lemma ledgerFrame_finalized env to tokenId h cType s :
  ledgerFrame s (finalized env to tokenId h cType s).
Proof. by constructor. Qed.

Lemma ledgerFrame_appendLog e s : ledgerFrame s (appendLog e s).
Proof. by constructor. Qed.

Lemma ledgerFrame_registered params tid s : ledgerFrame s (registered params tid s).
Proof. by constructor. Qed.

Lemma _mintBase_ledgerInv env to h cType s tid s' :
  hooksWithin keepsLedger env →
  _mintBase env to h cType s = Ok (tid, s') → ledgerInv s → ledgerInv s'.
Proof.
  intros HR H Hinv. apply _mintBase_Ok in H as (He & -> & s1 & Hh & ->).
  eapply ledgerInv_frame; [apply ledgerFrame_finalized|].
  apply (HR _ _ _ _ _ _ _ Hh). by eapply ledgerInv_allocated.
Qed.

Lemma for_range_ledgerInv env students courseNames grades ipfsHashes count :
  hooksWithin keepsLedger env →
  ∀ start s s',
    for_range start count
      (batchBody env students courseNames grades ipfsHashes) s = Ok (tt, s') →
    ledgerInv s → ledgerInv s'.
Proof.
  intros HR.
  induction count as [|k IH]; intros start s s' H Hinv; simpl in H.
  - by injection H as <-.
  - apply bind_Ok in H as ([] & s1 & Hb & H).
    apply (IH _ _ _ H).
    apply batchBody_Ok in Hb as (st0 & h0 & c0 & g0 & s2 & _ & _ & _ & _ & Hm & ->).
    eapply ledgerInv_frame; [apply ledgerFrame_appendLog|].
    by eapply _mintBase_ledgerInv.
Qed.

Lemma _approve_owner_ledgerInv to tokenId auth emitEvent s s' :
  _approve to tokenId auth emitEvent s = Ok (tt, s') →
  _ownerOf s tokenId ≠ 0 → ledgerInv s → ledgerInv s'.
Proof.
  intros H Hown [I1 I2 I3 I4].
  assert (tokenIdCounter s' = tokenIdCounter s ∧ owners s' = owners s ∧
          operatorApprovals s' = operatorApprovals s ∧
          tokenApprovals s' = <[tokenId := to]> (tokenApprovals s)) as (Hc & Ho & Hp & Ht).
  { unfold _approve, _requireOwned in H. run_guards H; by injection H as <-. }
  constructor; unfold _ownerOf, tokenApprovals_at, operatorApprovals_at in *;
    rewrite ?Hc, ?Ho, ?Hp, ?Ht; try done.
  intros id Hid. rewrite lookup_insert_ne; [by apply I3|]. by intros <-.
Qed.

Lemma _update_ledgerInv to tokenId auth s from s' :
  auth ≠ 0 → to ≠ 0 →
  _update to tokenId auth s = Ok (from, s') →
  ledgerInv s → ledgerInv s'.
Proof.
  intros Hauth Hto H [I1 I2 I3 I4].
  assert (_ownerOf s tokenId ≠ 0 ∧
          tokenIdCounter s' = tokenIdCounter s ∧
          owners s' = <[tokenId := to]> (owners s) ∧
          operatorApprovals s' = operatorApprovals s ∧
          tokenApprovals s' = <[tokenId := 0]> (tokenApprovals s))
    as (Hown & Hc & Ho & Hp & Ht).
  { unfold _update, _checkAuthorized, _isAuthorized, _approve, isApprovedForAll in H.
    destruct (decide (_ownerOf s tokenId = 0)) as [Hz|Hnz].
    - exfalso. munfold. simpl in H.
      rewrite (bool_decide_eq_false_2 _ Hauth) in H. simpl in H.
      rewrite Hz, (I3 _ Hz), I4 in H.
      assert (0 ≠ auth) as Hauth' by lia.
      rewrite !(bool_decide_eq_false_2 _ Hauth') in H. simpl in H.
      rewrite ?bool_decide_eq_true_2 in H by done. done.
    - split; [done|]. run_guards H; by injection H as <- <-. }
  constructor; unfold _ownerOf, tokenApprovals_at, operatorApprovals_at in *;
    rewrite ?Hc, ?Ho, ?Hp, ?Ht; try done.
  - intros id. destruct (decide (tokenId = id)) as [->|Hne].
    + rewrite lookup_insert_eq. simpl. split; [intros _; by apply I2 | done].
    + rewrite lookup_insert_ne by done. apply I2.
  - intros id. destruct (decide (tokenId = id)) as [->|Hne].
    + by rewrite !lookup_insert_eq.
    + rewrite !lookup_insert_ne by done. apply I3.
Qed.

Ltac ledger_frame H := run_guards H; injection H as <-; by constructor.

Lemma transferFrom_ledgerInv env from to tokenId s s' :
  msg_sender env ≠ 0 →
  transferFrom env from to tokenId s = Ok (tt, s') →
  ledgerInv s → ledgerInv s'.
Proof.
  intros Hsender H Hinv. unfold transferFrom in H.
  apply bind_Ok in H as ([] & s1 & H1 & H).
  unfold revertIf in H1. case_bool_decide; [done|]. injection H1 as <-.
  apply bind_Ok in H as (prev & s2 & H2 & H).
  unfold revertIf in H. destruct (negb _); [done|]. injection H as <-.
  eapply _update_ledgerInv; [exact Hsender| |eassumption|exact Hinv]; done.
Qed.

Lemma dispatch_ledgerInv env c s s' :
  msg_sender env ≠ 0 →
  hooksWithin keepsLedger env →
  dispatch env c s = Ok (tt, s') →
  ledgerInv s → ledgerInv s'.
Proof.
  intros Hsender HR H Hinv. destruct c; simpl in H.
  - rewrite mintCertificatesBatch_run in H.
    destruct (minterGate env s); [done|].
    destruct (batchShape _ _ _ _); [done|].
    by eapply for_range_ledgerInv.
  - apply void_Ok in H as (tid & H). rewrite mintCertificate_run in H.
    destruct (minterGate env s); [done|].
    destruct (_mintBase _ _ _ _ _) as [[t s2]|] eqn:Hm; [|done]. injection H as <- <-.
    eapply ledgerInv_frame; [apply ledgerFrame_appendLog|].
    by eapply _mintBase_ledgerInv.
  - apply void_Ok in H as (tid & H). rewrite mintSemesterCertificate_run in H.
    destruct (minterGate env s); [done|].
    destruct (_ || _); [done|].
    destruct (_mintBase _ _ _ _ _) as [[t s2]|] eqn:Hm; [|done]. injection H as <- <-.
    eapply ledgerInv_frame; [apply ledgerFrame_registered|].
    by eapply _mintBase_ledgerInv.
  - apply void_Ok in H as (tid & H). rewrite mintAchievementCertificate_run in H.
    destruct (minterGate env s); [done|].
    destruct (_mintBase _ _ _ _ _) as [[t s2]|] eqn:Hm; [|done]. injection H as <- <-.
    eapply ledgerInv_frame; [apply ledgerFrame_appendLog|].
    by eapply _mintBase_ledgerInv.
  - apply void_Ok in H as (tid & H). rewrite mintCustomCertificate_run in H.
    destruct (minterGate env s); [done|].
    destruct (_mintBase _ _ _ _ _) as [[t s2]|] eqn:Hm; [|done]. injection H as <- <-.
    eapply ledgerInv_frame; [apply ledgerFrame_appendLog|].
    by eapply _mintBase_ledgerInv.
  - apply (ledgerInv_frame s); [|done].
    unfold revokeCertificate, onlyRole in H. ledger_frame H.
  - apply void_Ok in H as (r & H). apply (ledgerInv_frame s); [|done].
    destruct (verifyCertificateByVerifier_spec env s tokenId)
      as (v & u & t & _ & Hrun).
    unfold transact in Hrun. rewrite H in Hrun.
    destruct (hasRole _ _ _); [|done]. by injection Hrun as _ ->.
  - apply (ledgerInv_frame s); [|done].
    unfold setBaseURI, onlyRole in H. ledger_frame H.
  - apply (ledgerInv_frame s); [|done].
    unfold pause, _pause, whenNotPaused, onlyRole in H. ledger_frame H.
  - apply (ledgerInv_frame s); [|done].
    unfold unpause, _unpause, whenPaused, onlyRole in H. ledger_frame H.
  - apply (ledgerInv_frame s); [|done].
    unfold grantRole, _grantRole, onlyRole in H. run_guards H;
      injection H as <-; by constructor.
  - apply (ledgerInv_frame s); [|done].
    unfold revokeRole, _revokeRole, onlyRole in H. run_guards H;
      injection H as <-; by constructor.
  - apply (ledgerInv_frame s); [|done].
    unfold renounceRole, _revokeRole in H. run_guards H;
      injection H as <-; by constructor.
  - unfold approve in H.
    apply (_approve_owner_ledgerInv _ _ _ _ _ _ H); [|done].
    unfold _approve, _requireOwned in H. simpl in H.
    intros Hz. munfold. simpl in H. rewrite Hz in H. simpl in H.
    rewrite ?bool_decide_eq_true_2 in H by done. done.
  - unfold setApprovalForAll in H. destruct Hinv as [I1 I2 I3 I4].
    run_guards H. injection H as <-.
    constructor; try done.
    intros x. unfold operatorApprovals_at in *. simpl.
    rewrite lookup_insert_ne; [apply I4|]. by intros [= ? _].
  - by eapply transferFrom_ledgerInv.
  - unfold safeTransferFrom in H.
    apply bind_Ok in H as ([] & s1 & H & Hc).
    apply (checkOnERC721Received_within _ _ _ _ _ _ _ HR Hc).
    by eapply transferFrom_ledgerInv.
Qed.

Lemma nested_ledgerInv depth s s' : nested depth s s' → ledgerInv s → ledgerInv s'.
Proof.
  apply (nested_ind_rel keepsLedger).
  - by intros a Ha.
  - intros a b c Hab Hbc Ha. by apply Hbc, Hab.
  - intros env c a b Hsender HR H Ha. by apply (dispatch_ledgerInv env c a).
Qed.

Lemma admissible_ledgerInv env : admissible env → hooksWithin keepsLedger env.
Proof.
  intros (depth & Hd) to operator from tokenId s r s' Hh.
  intros Hinv. eapply nested_ledgerInv; [eapply Hd, Hh | done].
Qed.

Lemma live_ledgerInv s : live s → ledgerInv s.
Proof.
  intros (s0 & Hd & Hs). apply deployed_genesis in Hd as (d & ->).
  revert s Hs. apply rtc_ind_r; [apply ledgerInv_genesis|].
  intros s1 s2 _ (env & c & Hsender & Ha & [_ H]%message_Ok) IH.
  apply (dispatch_ledgerInv env c s1); [done| |done|done].
  by apply admissible_ledgerInv.
Qed.

Lemma live_step env c s s' :
  live s → msg_sender env ≠ 0 → admissible env →
  message env c s = Ok (tt, s') → live s'.
Proof.
  intros (s0 & Hd & Hs) Hsender Ha H. exists s0. split; [done|].
  eapply rtc_r; [done|]. by exists env, c.
Qed.

(** X7.  The tokens that exist are exactly those numbered
    [1 .. _tokenIdCounter].  In every state of the deployed registry a
    token id has an owner if and only if it lies in that range, and the
    counter never exceeds the largest [uint256].  For any other id
    [verifyCertificate] returns [(false, "", REGULAR)] and
    [revokeCertificate], called by an [ADMIN_ROLE] holder, fails with
    [NotFound]. *)
Theorem existing_tokens s :
  live s →
  0 ≤ tokenIdCounter s ≤ MAX_UINT256 ∧
  ∀ tokenId,
    (_ownerOf s tokenId ≠ 0 ↔ 1 ≤ tokenId ≤ tokenIdCounter s) ∧
    (¬ (1 ≤ tokenId ≤ tokenIdCounter s) →
     transact (verifyCertificate tokenId) s = (Ok (false, "", REGULAR), s) ∧
     ∀ env, hasRole s ADMIN_ROLE (msg_sender env) = true →
            transact (revokeCertificate env tokenId) s = (Err NotFound, s)).
Proof.
  intros Hlive. destruct (live_ledgerInv s Hlive) as [I1 I2 _ _].
  split; [done|]. intros tokenId. split; [apply I2|].
  intros Hout.
  assert (_ownerOf s tokenId = 0) as Hz.
  { destruct (decide (_ownerOf s tokenId = 0)) as [|Hnz]; [done|].
    by apply I2 in Hnz. }
  split.
  - apply transact_Ok. rewrite verifyCertificate_run.
    by rewrite bool_decide_eq_true_2.
  - intros env Hrole. apply transact_Err.
    rewrite revokeCertificate_run, Hrole. simpl.
    by rewrite bool_decide_eq_true_2.
Qed.

Lemma live_s1 : live Scenario.s1.
Proof.
  exists Scenario.s0. split.
  - exists Scenario.env_admin. vm_compute. reflexivity.
  - apply rtc_once.
    exists Scenario.env_admin, (MintCertificate Scenario.alice "Course" "A" "H1").
    split; [vm_compute; discriminate|].
    split; [apply passive_admissible, noCode_passive | vm_compute; reflexivity].
Defined.

Lemma existing_tokens_witness :
  (_ownerOf Scenario.s1 1 ≠ 0 ↔ 1 ≤ 1 ≤ tokenIdCounter Scenario.s1) ∧
  transact (verifyCertificate 2) Scenario.s1 = (Ok (false, "", REGULAR), Scenario.s1).
Proof.
  destruct (existing_tokens Scenario.s1 live_s1) as (_ & Htok).
  split.
  - apply (Htok 1).
  - apply (Htok 2). vm_compute. intros [_ H]. apply H. reflexivity.
Defined.

(** ** When a mint succeeds *)

(** The identifiers a semester mint needs free; the other single mints
    need none. *)
Definition identifiersFree (c : Call) (s : State) : Prop :=
  match c with
  | MintSemesterCertificate _ params _ =>
      usedUniqueIdentifiers_at s (serialNo params) = false ∧
      usedUniqueIdentifiers_at s (memoNo params) = false
  | _ => True
  end.

Lemma mintBase_entry_live to h s :
  ledgerInv s →
  (mintBase_entry to h s = None ↔
   to ≠ 0 ∧ h ≠ "" ∧ usedHashes_at s h = false ∧ tokenIdCounter s < MAX_UINT256).
Proof.
  intros [I1 I2 _ _]. rewrite mintBase_entry_None.
  assert (_ownerOf s (tokenIdCounter s + 1) = 0) as Hfree.
  { destruct (decide (_ownerOf s (tokenIdCounter s + 1) = 0)) as [|Hnz]; [done|].
    apply I2 in Hnz. lia. }
  split.
  - intros (? & ? & ? & ? & _). repeat split; try done. lia.
  - intros (? & ? & ? & ?). repeat split; try done. lia.
Qed.

(** A single mint returns exactly when the caller passes the gate, the
    identifiers are free and [_mintBase] returns. *)
Lemma singleMint_succeeds env c m s :
  singleMint env c = Some m →
  (∃ tid s', m s = Ok (tid, s')) ↔
  (minterGate env s = None ∧ identifiersFree c s ∧
   ∃ tid s2, _mintBase env (recipient c) (contentHash c) (mintType c) s = Ok (tid, s2)).
Proof.
  intros Hm.
  destruct c; simpl in *; try discriminate Hm; injection Hm as <-.
  - rewrite mintCertificate_run.
    destruct (minterGate env s), (_mintBase _ _ _ _ _) as [[t s2]|]; split;
      first [ by intros (? & ? & [=]) | by intros ([=] & _)
            | by intros (_ & _ & ? & ? & [=]) | by eauto 10 ].
  - rewrite mintSemesterCertificate_run.
    destruct (minterGate env s);
      [split; [by intros (? & ? & [=]) | by intros ([=] & _)]|].
    destruct (usedUniqueIdentifiers_at s (serialNo params)); simpl;
      [split; [by intros (? & ? & [=]) | by intros (_ & [[=] _] & _)]|].
    destruct (usedUniqueIdentifiers_at s (memoNo params)); simpl;
      [split; [by intros (? & ? & [=]) | by intros (_ & [_ [=]] & _)]|].
    destruct (_mintBase _ _ _ _ _) as [[t s2]|]; split;
      first [ by intros (? & ? & [=]) | by intros (_ & _ & ? & ? & [=]) | by eauto 10 ].
  - rewrite mintAchievementCertificate_run.
    destruct (minterGate env s), (_mintBase _ _ _ _ _) as [[t s2]|]; split;
      first [ by intros (? & ? & [=]) | by intros ([=] & _)
            | by intros (_ & _ & ? & ? & [=]) | by eauto 10 ].
  - rewrite mintCustomCertificate_run.
    destruct (minterGate env s), (_mintBase _ _ _ _ _) as [[t s2]|]; split;
      first [ by intros (? & ? & [=]) | by intros ([=] & _)
            | by intros (_ & _ & ? & ? & [=]) | by eauto 10 ].
Qed.

(** X8.  When a single mint succeeds.  On the deployed registry a call to
    [mintCertificate], [mintSemesterCertificate],
    [mintAchievementCertificate] or [mintCustomCertificate] returns a
    token id if and only if: the call carries no value, the caller holds
    [MINTER_ROLE], the registry is not paused, (for a semester
    certificate) neither the serial number nor the memo number is
    registered, the student is not the zero address, the content hash is
    not empty and not registered, the counter is below the largest
    [uint256], and the student's [onERC721Received], called once the
    token is minted to the student, returns the selector.  No other
    condition can make it fail. *)
Theorem single_mint_succeeds_iff env c m s :
  live s →
  singleMint env c = Some m →
  (∃ tid s', nonPayable env m s = Ok (tid, s')) ↔
  (msg_value env = 0 ∧
   hasRole s MINTER_ROLE (msg_sender env) = true ∧ paused s = false ∧
   identifiersFree c s ∧
   recipient c ≠ 0 ∧ contentHash c ≠ "" ∧
   usedHashes_at s (contentHash c) = false ∧
   tokenIdCounter s < MAX_UINT256 ∧
   ∃ s1, onERC721Received env (recipient c) (msg_sender env) 0 (tokenIdCounter s + 1)
           (allocated (recipient c) s) = Ok (true, s1)).
Proof.
  intros Hlive Hm. pose proof (live_ledgerInv s Hlive) as Hinv.
  assert ((∃ tid s', nonPayable env m s = Ok (tid, s')) ↔
          msg_value env = 0 ∧ ∃ tid s', m s = Ok (tid, s')) as ->.
  { split.
    - intros (tid & s' & [Hv H]%nonPayable_Ok). eauto.
    - intros (Hv & tid & s' & H). exists tid, s'. by rewrite nonPayable_plain. }
  rewrite (singleMint_succeeds _ _ _ _ Hm), minterGate_None.
  assert ((∃ tid s2, _mintBase env (recipient c) (contentHash c) (mintType c) s
                       = Ok (tid, s2)) ↔
          (recipient c ≠ 0 ∧ contentHash c ≠ "" ∧
           usedHashes_at s (contentHash c) = false ∧ tokenIdCounter s < MAX_UINT256) ∧
          ∃ s1, onERC721Received env (recipient c) (msg_sender env) 0
                  (tokenIdCounter s + 1) (allocated (recipient c) s) = Ok (true, s1))
    as ->.
  { rewrite <- (mintBase_entry_live _ _ _ Hinv). split.
    - intros (tid & s2 & Hb). apply _mintBase_Ok in Hb as (He & -> & s1 & Hh & _). eauto.
    - intros (He & s1 & Hh). eexists _, _. apply _mintBase_Ok. eauto. }
  tauto.
Qed.

Lemma single_mint_succeeds_iff_witness :
  ∃ tid s',
    nonPayable Scenario.env_admin
      (mintCertificate Scenario.env_admin Scenario.bob "Course" "B" "H2") Scenario.s1
      = Ok (tid, s').
Proof.
  apply (single_mint_succeeds_iff Scenario.env_admin
           (MintCertificate Scenario.bob "Course" "B" "H2") _ Scenario.s1
           live_s1 eq_refl).
  split; [reflexivity|].
  split; [vm_compute; reflexivity|]. split; [reflexivity|]. split; [exact I|].
  split; [vm_compute; discriminate|]. split; [discriminate|].
  split; [vm_compute; reflexivity|]. split; [vm_compute; reflexivity|].
  eexists. reflexivity.
Defined.

(** ** When a batch succeeds *)

(** Recipients whose answer to a mint depends only on the recipient and
    on the token id, not on the registry's storage: [accepts to tokenId]
    tells whether [to]'s hook returns the selector for [tokenId]. *)
Definition receivers (env : Env) (accepts : address -> uint256 -> bool) : Prop :=
  ∀ to tokenId s,
    (∃ s1, onERC721Received env to (msg_sender env) 0 tokenId s = Ok (true, s1)) ↔
    accepts to tokenId = true.

(** Every iteration of a batch loop that does not revert passed the
    receiver check, for the id it was minting. *)
Lemma for_range_accepts env accepts students courseNames grades ipfsHashes count :
  passive env → receivers env accepts →
  ∀ start s s',
    for_range start count
      (batchBody env students courseNames grades ipfsHashes) s = Ok (tt, s') →
    ∀ (j : nat) student,
      (start ≤ j < start + count)%nat → students !! j = Some student →
      accepts student (tokenIdCounter s + 1 + Z.of_nat (j - start)) = true.
Proof.
  intros Hpass Hrec.
  induction count as [|k IH]; intros start s s' H j student Hj Hst; [lia|].
  simpl in H. apply bind_Ok in H as ([] & s1 & Hb & H).
  apply batchBody_Ok in Hb as (st0 & h0 & c0 & g0 & s2 & Hst0 & _ & _ & _ & Hm & ->).
  apply _mintBase_Ok in Hm as (_ & _ & s3 & Hh & ->).
  destruct (decide (j = start)) as [->|Hne].
  - rewrite Hst in Hst0. injection Hst0 as <-.
    rewrite Nat.sub_diag, Z.add_0_r. apply (Hrec student _ (allocated student s)). eauto.
  - pose proof (IH _ _ _ H j student ltac:(lia) Hst) as Hacc.
    apply Hpass in Hh as <-.
    replace (tokenIdCounter s + 1 + Z.of_nat (j - start))
      with (tokenIdCounter s + 1 + 1 + Z.of_nat (j - S start)) by lia.
    exact Hacc.
Qed.

(** A batch loop over mintable, pairwise distinct elements does not
    revert. *)
Lemma for_range_succeeds env accepts students courseNames grades ipfsHashes count :
  passive env → receivers env accepts →
  ∀ start s,
    ledgerInv s →
    (start + count ≤ length students)%nat →
    length courseNames = length students →
    length grades = length students →
    length ipfsHashes = length students →
    (∀ (j : nat) student, (start ≤ j < start + count)%nat →
       students !! j = Some student →
       student ≠ 0 ∧
       accepts student (tokenIdCounter s + 1 + Z.of_nat (j - start)) = true) →
    (∀ (j : nat) h, (start ≤ j < start + count)%nat →
       ipfsHashes !! j = Some h → h ≠ "" ∧ usedHashes_at s h = false) →
    (∀ (i j : nat) h, (start ≤ i < j)%nat → (j < start + count)%nat →
       ipfsHashes !! i = Some h → ipfsHashes !! j ≠ Some h) →
    tokenIdCounter s + Z.of_nat count ≤ MAX_UINT256 →
    ∃ s', for_range start count
            (batchBody env students courseNames grades ipfsHashes) s = Ok (tt, s').
Proof.
  intros Hpass Hrec.
  induction count as [|k IH];
    intros start s Hinv Hlen Hcn Hgr Hhs Hstud Hhash Hdistinct Hmax; simpl.
  - by eexists.
  - destruct (lookup_lt_is_Some_2 students start) as (st0 & Hst0); [lia|].
    destruct (lookup_lt_is_Some_2 ipfsHashes start) as (h0 & Hh0); [lia|].
    destruct (lookup_lt_is_Some_2 courseNames start) as (c0 & Hc0); [lia|].
    destruct (lookup_lt_is_Some_2 grades start) as (g0 & Hg0); [lia|].
    destruct (Hstud start st0) as (Hnz & Hacc); [lia|done|].
    rewrite Nat.sub_diag, Z.add_0_r in Hacc.
    destruct (Hhash start h0) as (Hne & Hunused); [lia|done|].
    assert (mintBase_entry st0 h0 s = None) as Hentry.
    { apply (mintBase_entry_live _ _ _ Hinv). repeat split; try done. lia. }
    apply (Hrec st0 _ (allocated st0 s)) in Hacc as (s1 & Hh).
    pose proof (Hpass _ _ _ _ _ _ _ Hh) as <-.
    assert (_mintBase env st0 h0 REGULAR s
              = Ok (tokenIdCounter s + 1, minted env st0 h0 REGULAR s)) as Hm.
    { apply _mintBase_Ok. split; [done|]. split; [done|]. by eexists. }
    unfold mbind at 1, M_bind at 1.
    rewrite batchBody_run, Hst0, Hh0, Hm, Hc0, Hg0.
    apply IH; try done.
    + eapply ledgerInv_frame; [apply ledgerFrame_appendLog|].
      eapply _mintBase_ledgerInv; [|exact Hm|exact Hinv].
      intros ? ? ? ? ? ? ? Hh' Hi. by rewrite <- (Hpass _ _ _ _ _ _ _ Hh').
    + lia.
    + intros j student Hj Hst. destruct (Hstud j student) as (? & Ha); [lia|done|].
      split; [done|]. simpl.
      replace (tokenIdCounter s + 1 + 1 + Z.of_nat (j - S start))
        with (tokenIdCounter s + 1 + Z.of_nat (j - start)) by lia.
      exact Ha.
    + intros j h Hj Hh'. destruct (Hhash j h) as (? & Hu); [lia|done|].
      split; [done|]. unfold usedHashes_at, minted, finalized in *. simpl.
      rewrite lookup_insert_ne; [done|].
      intros ->. by apply (Hdistinct start j h ltac:(lia) ltac:(lia) Hh0).
    + intros i j h Hij Hj. apply Hdistinct; lia.
    + simpl. lia.
Qed.

(** X9.  When a batch succeeds.  Take recipients that do not call back
    into the registry and whose answer depends only on the recipient and
    the token id.  On the deployed registry [mintCertificatesBatch] mints
    the whole batch if and only if: the call carries no value, the caller
    holds [MINTER_ROLE], the registry is not paused, the four arrays have
    one length and it is at most 50, every student is a non-zero address
    whose hook accepts the id its element gets ([counter + 1 + i] for
    index [i]), every content hash is non-empty and not yet registered,
    no hash occurs twice in the batch, and the counter can take the whole
    batch without passing the largest [uint256].  In every other case the
    call reverts (and, a reverted call changing nothing, mints no
    token). *)
Theorem batch_succeeds_iff env accepts students courseNames grades ipfsHashes s :
  live s →
  passive env →
  receivers env accepts →
  (∃ s', message env (MintCertificatesBatch students courseNames grades ipfsHashes) s
           = Ok (tt, s')) ↔
  (msg_value env = 0 ∧
   hasRole s MINTER_ROLE (msg_sender env) = true ∧ paused s = false ∧
   Z.of_nat (length students) ≤ MAX_BATCH_SIZE ∧
   length courseNames = length students ∧
   length grades = length students ∧
   length ipfsHashes = length students ∧
   (∀ (i : nat) student, students !! i = Some student →
      student ≠ 0 ∧ accepts student (tokenIdCounter s + 1 + Z.of_nat i) = true) ∧
   (∀ h, h ∈ ipfsHashes → h ≠ "" ∧ usedHashes_at s h = false) ∧
   NoDup ipfsHashes ∧
   tokenIdCounter s + Z.of_nat (length students) ≤ MAX_UINT256).
Proof.
  intros Hlive Hpass Hrec. pose proof (live_ledgerInv s Hlive) as Hinv.
  pose proof (passive_admissible _ Hpass) as Ha.
  assert ((∃ s', message env (MintCertificatesBatch students courseNames grades ipfsHashes) s
                   = Ok (tt, s')) ↔
          msg_value env = 0 ∧
          ∃ s', mintCertificatesBatch env students courseNames grades ipfsHashes s
                  = Ok (tt, s')) as ->.
  { split.
    - intros (s' & [Hv H]%message_Ok). eauto.
    - intros (Hv & s' & H). exists s'. unfold message. by rewrite nonPayable_plain. }
  apply and_iff_compat_l.
  rewrite mintCertificatesBatch_run. split.
  - intros (s' & H).
    destruct (minterGate env s) eqn:Hgate; [done|].
    destruct (batchShape _ _ _ _) eqn:Hshape; [done|].
    apply minterGate_None in Hgate as (Hrole & Hp).
    pose proof Hshape as Hshape'.
    apply batchShape_None in Hshape' as (Hmaxlen & Hcn & Hgr & Hhs).
    split; [done|]. split; [done|]. split; [done|]. split; [done|].
    split; [done|]. split; [done|].
    assert (∀ (i : nat) to h, students !! i = Some to → ipfsHashes !! i = Some h →
              ¬ (to = 0 ∨ h = "" ∨ usedHashes_at s h = true ∨
                 ∃ j : nat, (0 ≤ j < i)%nat ∧ ipfsHashes !! j = Some h)) as Hgood.
    { intros i to h Hst Hh Hbad.
      destruct (for_range_bad env students courseNames grades ipfsHashes
                  (length students) Ha 0 s i to h) as (e & He); try done.
      - apply lookup_lt_Some in Hst. lia.
      - congruence. }
    split; [|split; [|split]].
    + intros i student Hi.
      pose proof (lookup_lt_Some _ _ _ Hi) as Hlt.
      destruct (lookup_lt_is_Some_2 ipfsHashes i) as (h & Hh); [lia|].
      split.
      * intros ->. apply (Hgood i 0 h); auto.
      * pose proof (for_range_accepts _ _ _ _ _ _ _ Hpass Hrec _ _ _ H i student
                      ltac:(lia) Hi) as Hacc.
        by rewrite Nat.sub_0_r in Hacc.
    + intros h Hin. apply list_elem_of_lookup in Hin as (i & Hi).
      pose proof (lookup_lt_Some _ _ _ Hi) as Hlt.
      destruct (lookup_lt_is_Some_2 students i) as (to & Hto); [lia|].
      split.
      * intros ->. apply (Hgood i to ""); auto.
      * destruct (usedHashes_at s h) eqn:Hu; [|done].
        exfalso. apply (Hgood i to h); auto.
    + apply NoDup_alt. intros i j h Hi Hj.
      destruct (lookup_lt_is_Some_2 students i) as (ti & Hti);
        [apply lookup_lt_Some in Hi; lia|].
      destruct (lookup_lt_is_Some_2 students j) as (tj & Htj);
        [apply lookup_lt_Some in Hj; lia|].
      destruct (Nat.lt_trichotomy i j) as [Hlt|[Heq|Hgt]]; [|done|].
      * exfalso. apply (Hgood j tj h); [done|done|].
        do 3 right. exists i. split; [lia|done].
      * exfalso. apply (Hgood i ti h); [done|done|].
        do 3 right. exists j. split; [lia|done].
    + pose proof (for_range_ledgerInv _ _ _ _ _ _ (admissible_ledgerInv _ Ha) _ _ _ H Hinv)
        as [Hc' _ _ _].
      apply (for_range_Ok _ _ _ _ _ _ Hpass) in H as (Hcount & _). lia.
  - intros (Hrole & Hp & Hmaxlen & Hcn & Hgr & Hhs & Hstud & Hhash & Hnodup & Hmax).
    rewrite (proj2 (minterGate_None env s)) by done.
    rewrite (proj2 (batchShape_None students courseNames grades ipfsHashes)) by done.
    apply (for_range_succeeds env accepts); try done.
    + intros j student _ Hst. rewrite Nat.sub_0_r. by apply Hstud.
    + intros j h _ Hh. apply Hhash. apply list_elem_of_lookup. eauto.
    + intros i j h Hij _ Hi Hj.
      pose proof (proj1 (NoDup_alt ipfsHashes) Hnodup i j h Hi Hj). lia.
Qed.

Lemma noCode_receivers sender value timestamp :
  receivers (mkEnv sender value timestamp Scenario.noCode) (λ _ _, true).
Proof. intros to tokenId s. split; [done|]. intros _. by exists s. Qed.

Lemma batch_succeeds_iff_witness :
  ∃ s', message Scenario.env_admin
          (MintCertificatesBatch [Scenario.bob; Scenario.carol] ["c1"; "c2"] ["A"; "B"]
             ["h1"; "h2"])
          Scenario.s1 = Ok (tt, s').
Proof.
  apply (batch_succeeds_iff Scenario.env_admin (λ _ _, true)
           [Scenario.bob; Scenario.carol] ["c1"; "c2"] ["A"; "B"] ["h1"; "h2"]
           Scenario.s1 live_s1 (noCode_passive _ _ _) (noCode_receivers _ _ _)).
  split; [reflexivity|].
  split; [vm_compute; reflexivity|]. split; [reflexivity|].
  split; [vm_compute; discriminate|].
  split; [reflexivity|]. split; [reflexivity|]. split; [reflexivity|].
  split; [|split; [|split]].
  - intros i student Hi. split; [|reflexivity].
    destruct i as [|[|i]]; simpl in Hi; [| |done]; injection Hi as <-;
      vm_compute; discriminate.
  - intros h Hin. apply list_elem_of_In in Hin. simpl in Hin.
    destruct Hin as [<-|[<-|[]]]; (split; [discriminate | vm_compute; reflexivity]).
  - apply NoDup_cons. split; [|apply NoDup_singleton].
    intros Hin. apply list_elem_of_In in Hin. simpl in Hin.
    destruct Hin as [|[]]; discriminate.
  - vm_compute. discriminate.
Defined.

(** A receiver that takes one token and refuses the next: the contract
    at [relay] accepts token ids up to 1 only.  A batch of two elements
    for [relay] reverts at the second with [ERC721InvalidReceiver] and
    leaves the registry as it was. *)
Example batch_receiver_refuses_second :
  let picky : address -> address -> address -> uint256 -> M bool :=
    λ to operator from tokenId,
      mret (negb (bool_decide (to = Reentry.relay)) || bool_decide (tokenId ≤ 1)) in
  let env := mkEnv Scenario.admin 0 1700000000 picky in
  transact (message env
              (MintCertificatesBatch [Reentry.relay; Reentry.relay] ["c1"; "c2"]
                 ["A"; "B"] ["h1"; "h2"])) Scenario.s0
    = (Err (ERC721InvalidReceiver Reentry.relay), Scenario.s0).
Proof. vm_compute. reflexivity. Qed.

Lemma getStudentCertificates_run student s :
  getStudentCertificates student s = Ok (studentCertificates_at s student, s).
Proof. done. Qed.

(** ** Revocations and identifiers, between calls *)

(** X26.  A revocation outlasts every later call.  Called by an
    [ADMIN_ROLE] holder on an existing, unrevoked token,
    [revokeCertificate] succeeds and sets [isRevoked].  In every state
    reached from there by a sequence of completed calls -- by any
    callers, through any entry point, whatever the recipients' hooks
    call back -- the flag is still set, [verifyCertificate] returns
    [isValid = false] with the empty reference, and a further
    [revokeCertificate] by an [ADMIN_ROLE] holder fails with [Revoked],
    changing nothing.  (The return of a mint in progress is not a
    completed call from there: a revocation made from the hook of the
    token's own mint is not covered.) *)
Theorem revocation_outlasts_calls env s tokenId :
  hasRole s ADMIN_ROLE (msg_sender env) = true →
  _ownerOf s tokenId ≠ 0 →
  isRevokedAt s tokenId = false →
  ∃ s1,
    transact (revokeCertificate env tokenId) s = (Ok tt, s1) ∧
    isRevokedAt s1 tokenId = true ∧
    ∀ s2, steps s1 s2 →
      isRevokedAt s2 tokenId = true ∧
      (∃ cType, transact (verifyCertificate tokenId) s2 = (Ok (false, "", cType), s2)) ∧
      (∀ env2, hasRole s2 ADMIN_ROLE (msg_sender env2) = true →
               transact (revokeCertificate env2 tokenId) s2 = (Err Revoked, s2)).
Proof.
  intros Hrole Hown Hrev. exists (revoked env tokenId s).
  assert (revokeCertificate env tokenId s = Ok (tt, revoked env tokenId s)) as Hrun.
  { rewrite revokeCertificate_run, Hrole, Hrev. simpl.
    by rewrite bool_decide_eq_false_2. }
  split; [by apply transact_Ok|]. split; [apply isRevokedAt_revoked|].
  intros s2 Hsteps.
  pose proof (steps_extends _ _ Hsteps) as Hext.
  assert (_ownerOf (revoked env tokenId s) tokenId ≠ 0) as Hown1 by done.
  pose proof (ext_owned _ _ Hext _ Hown1) as Hown2.
  pose proof (ext_revoked _ _ Hext _ Hown1 (isRevokedAt_revoked _ _ _)) as Hrev2.
  split; [done|]. split.
  - exists (certType (certConfigs_at s2 tokenId)).
    apply transact_Ok. rewrite verifyCertificate_run.
    rewrite bool_decide_eq_false_2 by done.
    unfold isRevokedAt in Hrev2. by rewrite Hrev2.
  - intros env2 Hrole2. apply transact_Err.
    rewrite revokeCertificate_run, Hrole2, Hrev2. simpl.
    by rewrite bool_decide_eq_false_2.
Qed.

Lemma revocation_outlasts_calls_witness :
  ∃ s1,
    transact (revokeCertificate Scenario.env_admin 1) Scenario.s1 = (Ok tt, s1) ∧
    isRevokedAt s1 1 = true ∧
    ∀ s2, steps s1 s2 →
      isRevokedAt s2 1 = true ∧
      (∃ cType, transact (verifyCertificate 1) s2 = (Ok (false, "", cType), s2)) ∧
      (∀ env2, hasRole s2 ADMIN_ROLE (msg_sender env2) = true →
               transact (revokeCertificate env2 1) s2 = (Err Revoked, s2)).
Proof.
  apply (revocation_outlasts_calls Scenario.env_admin Scenario.s1 1).
  - vm_compute. reflexivity.
  - vm_compute. discriminate.
  - vm_compute. reflexivity.
Defined.

Lemma usedUniqueIdentifiers_registered params tid s :
  usedUniqueIdentifiers_at (registered params tid s) (serialNo params) = true ∧
  usedUniqueIdentifiers_at (registered params tid s) (memoNo params) = true.
Proof.
  unfold usedUniqueIdentifiers_at, registered. simpl. split.
  - apply used_insert. by rewrite lookup_insert_eq.
  - by rewrite lookup_insert_eq.
Qed.

(** X27.  Semester identifiers, between calls.  For a caller holding
    [MINTER_ROLE] on a registry that is not paused: if [serialNo] or
    [memoNo] is already in the identifier set, [mintSemesterCertificate]
    fails with [AlreadyExists] and changes no state.  When the call has
    returned, both identifiers are in the set; after any further
    completed calls, whatever the recipients' hooks call back, a
    [mintSemesterCertificate] by a [MINTER_ROLE] holder (registry not
    paused) that reuses the serial number or the memo number -- for any
    student, with any content hash -- fails with [AlreadyExists] and
    changes no state.  (A mint made from the hook of the call itself
    comes before the identifiers are written and is not covered.) *)
Theorem semester_identifiers_stay_registered env s student params h :
  hasRole s MINTER_ROLE (msg_sender env) = true →
  paused s = false →
  (usedUniqueIdentifiers_at s (serialNo params) = true ∨
   usedUniqueIdentifiers_at s (memoNo params) = true →
   transact (mintSemesterCertificate env student params h) s = (Err AlreadyExists, s)) ∧
  (∀ tid s1,
     mintSemesterCertificate env student params h s = Ok (tid, s1) →
     tid = tokenIdCounter s + 1 ∧
     usedUniqueIdentifiers_at s1 (serialNo params) = true ∧
     usedUniqueIdentifiers_at s1 (memoNo params) = true ∧
     ∀ s2, steps s1 s2 →
     ∀ env2 student2 params2 h2,
       hasRole s2 MINTER_ROLE (msg_sender env2) = true →
       paused s2 = false →
       serialNo params2 = serialNo params ∨ memoNo params2 = memoNo params →
       transact (mintSemesterCertificate env2 student2 params2 h2) s2
         = (Err AlreadyExists, s2)).
Proof.
  intros Hrole Hp.
  assert (∀ env' s' student' params' h',
            hasRole s' MINTER_ROLE (msg_sender env') = true → paused s' = false →
            usedUniqueIdentifiers_at s' (serialNo params') = true ∨
            usedUniqueIdentifiers_at s' (memoNo params') = true →
            transact (mintSemesterCertificate env' student' params' h') s'
              = (Err AlreadyExists, s')) as Hdup.
  { intros env' s' student' params' h' Hr' Hp' Hused. apply transact_Err.
    rewrite mintSemesterCertificate_run.
    rewrite (proj2 (minterGate_None env' s')) by done.
    destruct Hused as [-> | ->]; by rewrite ?orb_true_r. }
  split; [by apply Hdup|].
  intros tid s1 H. rewrite mintSemesterCertificate_run in H.
  destruct (minterGate env s); [done|].
  destruct (_ || _); [done|].
  destruct (_mintBase _ _ _ _ _) as [[t s2]|] eqn:Hm; [|done].
  injection H as <- <-.
  apply _mintBase_Ok in Hm as (_ & -> & _).
  destruct (usedUniqueIdentifiers_registered params (tokenIdCounter s + 1) s2) as [Hs Hmemo].
  split; [done|]. split; [done|]. split; [done|].
  intros s3 Hsteps env2 student2 params2 h2 Hr2 Hp2 Hreuse.
  pose proof (steps_extends _ _ Hsteps) as Hext.
  apply Hdup; [done|done|].
  destruct Hreuse as [-> | ->]; [left | right]; by apply (ext_ids _ _ Hext).
Qed.

Lemma semester_identifiers_stay_registered_witness :
  mintSemesterCertificate Scenario.env_admin Scenario.alice Scenario.semester1 "HS1"
    Scenario.s0 = Ok (1, Scenario.s_sem) ∧
  serialNo Scenario.semester2 = serialNo Scenario.semester1 ∧
  transact (mintSemesterCertificate Scenario.env_admin Scenario.bob Scenario.semester2
              "HS2") Scenario.s_sem
    = (Err AlreadyExists, Scenario.s_sem).
Proof.
  assert (mintSemesterCertificate Scenario.env_admin Scenario.alice Scenario.semester1
            "HS1" Scenario.s0 = Ok (1, Scenario.s_sem)) as Hmint
    by (vm_compute; reflexivity).
  split; [exact Hmint|]. split; [reflexivity|].
  assert (hasRole Scenario.s0 MINTER_ROLE (msg_sender Scenario.env_admin) = true)
    as Hrole by (vm_compute; reflexivity).
  assert (paused Scenario.s0 = false) as Hp by reflexivity.
  destruct (semester_identifiers_stay_registered Scenario.env_admin Scenario.s0
              Scenario.alice Scenario.semester1 "HS1" Hrole Hp) as [_ Hok].
  destruct (Hok 1 Scenario.s_sem Hmint) as (_ & _ & _ & Hlater).
  apply (Hlater Scenario.s_sem (rtc_refl _ _)).
  - vm_compute. reflexivity.
  - vm_compute. reflexivity.
  - left. reflexivity.
Defined.

(** * ScholarshipEscrow

    The second contract of contracts/: scholarships funded in ETH, which
    students holding certificates can claim.  It reads the certificate
    registry through [getStudentCertificates].  The embedding follows
    the registry's: explicit storage, a state-and-revert monad, checked
    [uint256] arithmetic written out.  The contract's ETH balance is a
    storage field: a payable entry point adds [msg.value] to it before
    its body runs, and a successful [call{value: v}] takes [v] from it.
    The recipient of such a call is assumed not to call back into the
    escrow. *)

Module Escrow.

(** [bytes32] role identifiers of this contract. *)
Inductive EscrowRole :=
  | DEFAULT_ADMIN_ROLE
  | ADMIN_ROLE
  | SCHOLARSHIP_MANAGER_ROLE
  | OtherRole (id : Z).

#[global] Instance EscrowRole_eq_dec : EqDecision EscrowRole.
Proof. solve_decision. Defined.

#[global] Instance EscrowRole_countable : Countable EscrowRole.
Proof.
  refine (inj_countable'
    (λ r, match r with
          | DEFAULT_ADMIN_ROLE => inl 0%nat
          | ADMIN_ROLE => inl 1%nat
          | SCHOLARSHIP_MANAGER_ROLE => inl 2%nat
          | OtherRole z => inr z
          end)
    (λ x, match x with
          | inl 0%nat => DEFAULT_ADMIN_ROLE
          | inl 1%nat => ADMIN_ROLE
          | inl _ => SCHOLARSHIP_MANAGER_ROLE
          | inr z => OtherRole z
          end) _).
  by intros [].
Defined.

Record Scholarship := mkScholarship {
  name : string;
  description : string;
  totalAmount : uint256;
  claimedAmount : uint256;
  remainingAmount : uint256;
  maxRecipients : uint256;
  amountPerRecipient : uint256;
  createdAt : uint256;
  deadline : uint256;
  isActive : bool;
  createdBy : address;
  tokenAddress : address;
  tokenSymbol : string
}.

(** The value of an unwritten [scholarships] slot. *)
Definition zeroScholarship : Scholarship :=
  mkScholarship "" "" 0 0 0 0 0 0 0 false 0 0 "".

Definition set_claimedAmount (v : uint256) (x : Scholarship) : Scholarship :=
  mkScholarship (name x) (description x) (totalAmount x) v (remainingAmount x)
    (maxRecipients x) (amountPerRecipient x) (createdAt x) (deadline x) (isActive x)
    (createdBy x) (tokenAddress x) (tokenSymbol x).
Definition set_remainingAmount (v : uint256) (x : Scholarship) : Scholarship :=
  mkScholarship (name x) (description x) (totalAmount x) (claimedAmount x) v
    (maxRecipients x) (amountPerRecipient x) (createdAt x) (deadline x) (isActive x)
    (createdBy x) (tokenAddress x) (tokenSymbol x).
Definition set_isActive (v : bool) (x : Scholarship) : Scholarship :=
  mkScholarship (name x) (description x) (totalAmount x) (claimedAmount x)
    (remainingAmount x) (maxRecipients x) (amountPerRecipient x) (createdAt x)
    (deadline x) v (createdBy x) (tokenAddress x) (tokenSymbol x).

Record EligibilityCriteria := mkCriteria {
  minGPA : uint256;
  requiredCourses : list string;
  allowedDepartments : list string;
  minCertificates : uint256;
  enrollmentAfter : uint256;
  enrollmentBefore : uint256;
  requiresAllCourses : bool
}.

Definition zeroCriteria : EligibilityCriteria := mkCriteria 0 [] [] 0 0 0 false.

(** Revert reasons: [require]/[revert] with a message, the inherited
    contracts' errors, a value sent to a function that is not payable, a
    failure bubbling up from the registry, and compiler panics. *)
Inductive EscrowError :=
  | Require (message : string)
  | AccessControlUnauthorizedAccount (account : address) (role : EscrowRole)
  | EnforcedPause
  | ExpectedPause
  | AccessControlBadConfirmation
  | ReentrancyGuardReentrantCall
  | NotPayable
  | External (e : Error)
  | Panic (code : Z).

Inductive EscrowEvent :=
  | ScholarshipCreated (scholarshipId : uint256) (name : string)
      (totalAmount maxRecipients deadline timestamp : uint256)
  | ScholarshipClaimed (scholarshipId : uint256) (student : address)
      (amount timestamp : uint256)
  | ScholarshipRevoked (scholarshipId : uint256) (admin : address) (timestamp : uint256)
  | FundsDeposited (depositor : address) (amount timestamp : uint256)
  | FundsWithdrawn (admin : address) (amount timestamp : uint256)
  | RoleGranted (role : EscrowRole) (account sender : address)
  | RoleRevoked (role : EscrowRole) (account sender : address)
  | Paused (account : address)
  | Unpaused (account : address).

(** ** Storage *)

Record Storage := mkStorage {
  scholarshipIdCounter : uint256;
  scholarships : gmap Z Scholarship;
  studentScholarships : gmap Z (list Z);
  totalClaimed : gmap Z Z;
  scholarshipClaims : gmap (Z * Z) bool;
  scholarshipCriteria : gmap Z EligibilityCriteria;
  (* AccessControl, Pausable, ReentrancyGuard *)
  roles : gmap (EscrowRole * Z) bool;
  paused : bool;
  entered : bool;
  (* address(this).balance *)
  balance : uint256;
  (* event log *)
  logs : list EscrowEvent
}.

Definition set_scholarshipIdCounter (v : uint256) (s : Storage) : Storage :=
  mkStorage v (scholarships s) (studentScholarships s) (totalClaimed s)
    (scholarshipClaims s) (scholarshipCriteria s) (roles s) (paused s) (entered s)
    (balance s) (logs s).
Definition set_scholarships (v : gmap Z Scholarship) (s : Storage) : Storage :=
  mkStorage (scholarshipIdCounter s) v (studentScholarships s) (totalClaimed s)
    (scholarshipClaims s) (scholarshipCriteria s) (roles s) (paused s) (entered s)
    (balance s) (logs s).
Definition set_studentScholarships (v : gmap Z (list Z)) (s : Storage) : Storage :=
  mkStorage (scholarshipIdCounter s) (scholarships s) v (totalClaimed s)
    (scholarshipClaims s) (scholarshipCriteria s) (roles s) (paused s) (entered s)
    (balance s) (logs s).
Definition set_totalClaimed (v : gmap Z Z) (s : Storage) : Storage :=
  mkStorage (scholarshipIdCounter s) (scholarships s) (studentScholarships s) v
    (scholarshipClaims s) (scholarshipCriteria s) (roles s) (paused s) (entered s)
    (balance s) (logs s).
Definition set_scholarshipClaims (v : gmap (Z * Z) bool) (s : Storage) : Storage :=
  mkStorage (scholarshipIdCounter s) (scholarships s) (studentScholarships s)
    (totalClaimed s) v (scholarshipCriteria s) (roles s) (paused s) (entered s)
    (balance s) (logs s).
Definition set_scholarshipCriteria (v : gmap Z EligibilityCriteria) (s : Storage)
    : Storage :=
  mkStorage (scholarshipIdCounter s) (scholarships s) (studentScholarships s)
    (totalClaimed s) (scholarshipClaims s) v (roles s) (paused s) (entered s)
    (balance s) (logs s).
Definition set_roles (v : gmap (EscrowRole * Z) bool) (s : Storage) : Storage :=
  mkStorage (scholarshipIdCounter s) (scholarships s) (studentScholarships s)
    (totalClaimed s) (scholarshipClaims s) (scholarshipCriteria s) v (paused s)
    (entered s) (balance s) (logs s).
Definition set_paused (v : bool) (s : Storage) : Storage :=
  mkStorage (scholarshipIdCounter s) (scholarships s) (studentScholarships s)
    (totalClaimed s) (scholarshipClaims s) (scholarshipCriteria s) (roles s) v
    (entered s) (balance s) (logs s).
Definition set_entered (v : bool) (s : Storage) : Storage :=
  mkStorage (scholarshipIdCounter s) (scholarships s) (studentScholarships s)
    (totalClaimed s) (scholarshipClaims s) (scholarshipCriteria s) (roles s) (paused s)
    v (balance s) (logs s).
Definition set_balance (v : uint256) (s : Storage) : Storage :=
  mkStorage (scholarshipIdCounter s) (scholarships s) (studentScholarships s)
    (totalClaimed s) (scholarshipClaims s) (scholarshipCriteria s) (roles s) (paused s)
    (entered s) v (logs s).
Definition set_logs (v : list EscrowEvent) (s : Storage) : Storage :=
  mkStorage (scholarshipIdCounter s) (scholarships s) (studentScholarships s)
    (totalClaimed s) (scholarshipClaims s) (scholarshipCriteria s) (roles s) (paused s)
    (entered s) (balance s) v.

(** Storage before the constructor runs, holding [funds] wei. *)
Definition emptyStorage (funds : uint256) : Storage :=
  mkStorage 0 ∅ ∅ ∅ ∅ ∅ ∅ false false funds [].

Definition scholarships_at (s : Storage) (id : uint256) : Scholarship :=
  default zeroScholarship (scholarships s !! id).
Definition studentScholarships_at (s : Storage) (student : address) : list Z :=
  default [] (studentScholarships s !! student).
Definition totalClaimed_at (s : Storage) (student : address) : uint256 :=
  default 0 (totalClaimed s !! student).
Definition scholarshipClaims_at (s : Storage) (id : uint256) (student : address) : bool :=
  default false (scholarshipClaims s !! (id, student)).
Definition scholarshipCriteria_at (s : Storage) (id : uint256) : EligibilityCriteria :=
  default zeroCriteria (scholarshipCriteria s !! id).

(** ** Call context *)

Record Ctx := mkCtx {
  msg_sender : address;
  msg_value : uint256;
  block_timestamp : uint256;
  (** whether a plain ETH transfer to an account succeeds *)
  acceptsETH : address -> bool;
  (** the storage of the [CertificateNFT] contract whose address the
      constructor stored in [certificateNFT] *)
  certificateNFT : State
}.

(** ** The monad *)

Inductive Outcome (A : Type) :=
  | Done (a : A)
  | Fail (e : EscrowError).
Arguments Done {A} a.
Arguments Fail {A} e.

Definition EM (A : Type) : Type := Storage -> Outcome (A * Storage).

#[global] Instance EM_ret : MRet EM := λ A a s, Done (a, s).
#[global] Instance EM_bind : MBind EM := λ A B f m s,
  match m s with
  | Done (a, s') => f a s'
  | Fail e => Fail e
  end.

Definition revert {A} (e : EscrowError) : EM A := λ _, Fail e.
Definition gets {A} (f : Storage -> A) : EM A := λ s, Done (f s, s).
Definition modify (f : Storage -> Storage) : EM unit := λ s, Done (tt, f s).
Definition emit (e : EscrowEvent) : EM unit := modify (λ s, set_logs (logs s ++ [e]) s).

(** [require(c, message)] *)
Definition require (c : bool) (message : string) : EM unit :=
  if c then mret tt else revert (Require message).

(** An external call as a transaction: a revert discards every effect. *)
Definition transact {A} (m : EM A) (s : Storage) : Outcome A * Storage :=
  match m s with
  | Done (a, s') => (Done a, s')
  | Fail e => (Fail e, s)
  end.

(** Checked [uint256] arithmetic. *)
Definition checkedAdd (a b : uint256) : EM uint256 :=
  if bool_decide (a + b > MAX_UINT256) then revert (Panic 17) else mret (a + b).
Definition checkedSub (a b : uint256) : EM uint256 :=
  if bool_decide (a < b) then revert (Panic 17) else mret (a - b).
Definition checkedDiv (a b : uint256) : EM uint256 :=
  if bool_decide (b = 0) then revert (Panic 18) else mret (a / b).

(** A view call into the registry; a failure there bubbles up. *)
Definition staticcall {A} (m : M A) (callee : State) : EM A :=
  match m callee with
  | Ok (a, _) => mret a
  | Err e => revert (External e)
  end.

Section Contract.
Context (ctx : Ctx).

(** ** Inherited modifiers and calling conventions *)

Definition hasRole (s : Storage) (role : EscrowRole) (account : address) : bool :=
  default false (roles s !! (role, account)).

Definition onlyRole (role : EscrowRole) : EM unit :=
  ok ← gets (λ s, hasRole s role (msg_sender ctx));
  if (ok : bool) then mret tt
  else revert (AccessControlUnauthorizedAccount (msg_sender ctx) role).

Definition _grantRole (role : EscrowRole) (account : address) : EM bool :=
  has ← gets (λ s, hasRole s role account);
  if negb has then
    modify (λ s, set_roles (<[(role, account) := true]> (roles s)) s) ;;
    emit (RoleGranted role account (msg_sender ctx)) ;;
    mret true
  else mret false.

Definition _revokeRole (role : EscrowRole) (account : address) : EM bool :=
  has ← gets (λ s, hasRole s role account);
  if (has : bool) then
    modify (λ s, set_roles (<[(role, account) := false]> (roles s)) s) ;;
    emit (RoleRevoked role account (msg_sender ctx)) ;;
    mret true
  else mret false.

Definition whenNotPaused : EM unit :=
  p ← gets paused; if (p : bool) then revert EnforcedPause else mret tt.

Definition whenPaused : EM unit :=
  p ← gets paused; if (p : bool) then mret tt else revert ExpectedPause.

Definition _pause : EM unit :=
  whenNotPaused ;; modify (set_paused true) ;; emit (Paused (msg_sender ctx)).

Definition _unpause : EM unit :=
  whenPaused ;; modify (set_paused false) ;; emit (Unpaused (msg_sender ctx)).

(** [nonReentrant]: [_nonReentrantBefore(); body; _nonReentrantAfter()] *)
Definition nonReentrant {A} (body : EM A) : EM A :=
  e ← gets entered;
  (if (e : bool) then revert ReentrancyGuardReentrantCall else mret tt) ;;
  modify (set_entered true) ;;
  r ← body;
  modify (set_entered false) ;;
  mret r.

(** A payable entry point is credited [msg.value] on entry. *)
Definition payable {A} (body : EM A) : EM A :=
  modify (λ s, set_balance (balance s + msg_value ctx) s) ;; body.

(** An entry point that is not payable rejects a call carrying value. *)
Definition nonPayable {A} (body : EM A) : EM A :=
  (if bool_decide (msg_value ctx = 0) then mret tt else revert NotPayable) ;; body.

(** [payable(to).call{value: amount}("")]: the transfer happens when the
    recipient accepts it. *)
Definition sendValue (to : address) (amount : uint256) : EM bool :=
  if acceptsETH ctx to then
    modify (λ s, set_balance (balance s - amount) s) ;; mret true
  else mret false.

(** ** The contract *)

Definition constructor : EM unit :=
  _grantRole DEFAULT_ADMIN_ROLE (msg_sender ctx) ;;
  _grantRole ADMIN_ROLE (msg_sender ctx) ;;
  _grantRole SCHOLARSHIP_MANAGER_ROLE (msg_sender ctx) ;;
  mret tt.

Definition createScholarship (name description : string)
    (totalAmount maxRecipients deadline : uint256) (tokenAddress : address)
    (tokenSymbol : string) (criteria : EligibilityCriteria) : EM uint256 :=
  payable (
    onlyRole SCHOLARSHIP_MANAGER_ROLE ;;
    whenNotPaused ;;
    require (bool_decide (totalAmount > 0)) "Amount must be greater than 0" ;;
    require (bool_decide (maxRecipients > 0)) "Max recipients must be greater than 0" ;;
    require (bool_decide (deadline > block_timestamp ctx))
      "Deadline must be in the future" ;;
    require (bool_decide (0 < String.length name)%nat) "Name cannot be empty" ;;
    (if bool_decide (tokenAddress = 0)
     then require (bool_decide (msg_value ctx >= totalAmount)) "Insufficient ETH sent"
     else mret tt) ;;
    c ← gets scholarshipIdCounter;
    c' ← checkedAdd c 1;
    modify (set_scholarshipIdCounter c') ;;
    scholarshipId ← gets scholarshipIdCounter;
    amountPerRecipient ← checkedDiv totalAmount maxRecipients;
    modify (λ s, set_scholarships
      (<[scholarshipId :=
           {| name := name; description := description; totalAmount := totalAmount;
              claimedAmount := 0; remainingAmount := totalAmount;
              maxRecipients := maxRecipients;
              amountPerRecipient := amountPerRecipient;
              createdAt := block_timestamp ctx; deadline := deadline;
              isActive := true; createdBy := msg_sender ctx;
              tokenAddress := tokenAddress; tokenSymbol := tokenSymbol |}]>
         (scholarships s)) s) ;;
    modify (λ s, set_scholarshipCriteria
      (<[scholarshipId := criteria]> (scholarshipCriteria s)) s) ;;
    emit (ScholarshipCreated scholarshipId name totalAmount maxRecipients deadline
            (block_timestamp ctx)) ;;
    mret scholarshipId).

Definition isEligibleForScholarship (scholarshipId : uint256) (student : address)
    : EM bool :=
  criteria ← gets (λ s, scholarshipCriteria_at s scholarshipId);
  studentCerts ← staticcall (getStudentCertificates student) (certificateNFT ctx);
  if bool_decide (Z.of_nat (length studentCerts) < minCertificates criteria)
  then mret false
  else mret true.

Definition hasRequiredCertificates (student : address) : EM bool :=
  studentCerts ← staticcall (getStudentCertificates student) (certificateNFT ctx);
  mret (bool_decide (Z.of_nat (length studentCerts) > 0)).

(** Writes through the [Scholarship storage scholarship] pointer.  In
    [claimScholarship] a field read through the pointer is taken from the
    value read on entry as long as no write to that field came in
    between, and is read again ([scholarship']) after the writes. *)
Definition updateScholarship (scholarshipId : uint256)
    (f : Scholarship -> Scholarship) : EM unit :=
  modify (λ s, set_scholarships
    (<[scholarshipId := f (scholarships_at s scholarshipId)]> (scholarships s)) s).

Definition claimScholarship (scholarshipId : uint256) : EM unit :=
  nonPayable (
    whenNotPaused ;;
    nonReentrant (
      scholarship ← gets (λ s, scholarships_at s scholarshipId);
      require (isActive scholarship) "Scholarship is not active" ;;
      require (bool_decide (block_timestamp ctx <= deadline scholarship))
        "Scholarship deadline has passed" ;;
      claimed ← gets (λ s, scholarshipClaims_at s scholarshipId (msg_sender ctx));
      require (negb claimed) "Already claimed this scholarship" ;;
      require (bool_decide (remainingAmount scholarship > 0)) "No funds remaining" ;;
      require (bool_decide (claimedAmount scholarship < totalAmount scholarship))
        "Scholarship fully claimed" ;;
      eligible ← isEligibleForScholarship scholarshipId (msg_sender ctx);
      require eligible "Student not eligible for this scholarship" ;;
      let claimAmount := amountPerRecipient scholarship in
      require (bool_decide (claimAmount <= remainingAmount scholarship))
        "Insufficient funds for claim" ;;
      modify (λ s, set_scholarshipClaims
        (<[(scholarshipId, msg_sender ctx) := true]> (scholarshipClaims s)) s) ;;
      newClaimed ← checkedAdd (claimedAmount scholarship) claimAmount;
      updateScholarship scholarshipId (set_claimedAmount newClaimed) ;;
      newRemaining ← checkedSub (remainingAmount scholarship) claimAmount;
      updateScholarship scholarshipId (set_remainingAmount newRemaining) ;;
      scholarship' ← gets (λ s, scholarships_at s scholarshipId);
      (if bool_decide (remainingAmount scholarship' = 0)
          || bool_decide (claimedAmount scholarship' >= totalAmount scholarship')
       then updateScholarship scholarshipId (set_isActive false)
       else mret tt) ;;
      (if bool_decide (tokenAddress scholarship = 0) then
         bal ← gets balance;
         require (bool_decide (bal >= claimAmount)) "Insufficient contract balance" ;;
         success ← sendValue (msg_sender ctx) claimAmount;
         require success "ETH transfer failed"
       else revert (Require "ERC20 transfers not yet implemented")) ;;
      tc ← gets (λ s, totalClaimed_at s (msg_sender ctx));
      tc' ← checkedAdd tc claimAmount;
      modify (λ s, set_totalClaimed (<[msg_sender ctx := tc']> (totalClaimed s)) s) ;;
      modify (λ s, set_studentScholarships
        (<[msg_sender ctx := studentScholarships_at s (msg_sender ctx) ++ [scholarshipId]]>
           (studentScholarships s)) s) ;;
      emit (ScholarshipClaimed scholarshipId (msg_sender ctx) claimAmount
              (block_timestamp ctx)))).

Definition revokeScholarship (scholarshipId : uint256) : EM unit :=
  nonPayable (
    onlyRole ADMIN_ROLE ;;
    scholarship ← gets (λ s, scholarships_at s scholarshipId);
    require (isActive scholarship) "Scholarship is not active" ;;
    updateScholarship scholarshipId (set_isActive false) ;;
    emit (ScholarshipRevoked scholarshipId (msg_sender ctx) (block_timestamp ctx))).

Definition depositFunds : EM unit :=
  payable (
    whenNotPaused ;;
    require (bool_decide (msg_value ctx > 0)) "Amount must be greater than 0" ;;
    emit (FundsDeposited (msg_sender ctx) (msg_value ctx) (block_timestamp ctx))).

Definition withdrawFunds (amount : uint256) : EM unit :=
  nonPayable (
    onlyRole ADMIN_ROLE ;;
    nonReentrant (
      bal ← gets balance;
      require (bool_decide (amount <= bal)) "Insufficient balance" ;;
      require (bool_decide (amount > 0)) "Amount must be greater than 0" ;;
      success ← sendValue (msg_sender ctx) amount;
      require success "Transfer failed" ;;
      emit (FundsWithdrawn (msg_sender ctx) amount (block_timestamp ctx)))).

Definition getScholarship (scholarshipId : uint256) : EM Scholarship :=
  gets (λ s, scholarships_at s scholarshipId).

Definition getStudentScholarships (student : address) : EM (list uint256) :=
  gets (λ s, studentScholarships_at s student).

Definition getTotalClaimed (student : address) : EM uint256 :=
  gets (λ s, totalClaimed_at s student).

Definition getContractBalance : EM uint256 := gets balance.

Definition pause : EM unit := nonPayable (onlyRole ADMIN_ROLE ;; _pause).
Definition unpause : EM unit := nonPayable (onlyRole ADMIN_ROLE ;; _unpause).

(** [receive() external payable] *)
Definition receive : EM unit :=
  payable (emit (FundsDeposited (msg_sender ctx) (msg_value ctx) (block_timestamp ctx))).

(** Inherited from [AccessControl]; every role is administered by
    [DEFAULT_ADMIN_ROLE]. *)
Definition grantRole (role : EscrowRole) (account : address) : EM unit :=
  nonPayable (onlyRole DEFAULT_ADMIN_ROLE ;; _grantRole role account ;; mret tt).

Definition revokeRole (role : EscrowRole) (account : address) : EM unit :=
  nonPayable (onlyRole DEFAULT_ADMIN_ROLE ;; _revokeRole role account ;; mret tt).

Definition renounceRole (role : EscrowRole) (callerConfirmation : address) : EM unit :=
  nonPayable (
    (if bool_decide (callerConfirmation = msg_sender ctx) then mret tt
     else revert AccessControlBadConfirmation) ;;
    _revokeRole role callerConfirmation ;; mret tt).

End Contract.

(** ** The escrow as a transition system *)

Inductive Call :=
  | CreateScholarship (name description : string)
      (totalAmount maxRecipients deadline : uint256) (tokenAddress : address)
      (tokenSymbol : string) (criteria : EligibilityCriteria)
  | ClaimScholarship (scholarshipId : uint256)
  | RevokeScholarship (scholarshipId : uint256)
  | DepositFunds
  | WithdrawFunds (amount : uint256)
  | Pause
  | Unpause
  | Receive
  | GrantRole (role : EscrowRole) (account : address)
  | RevokeRole (role : EscrowRole) (account : address)
  | RenounceRole (role : EscrowRole) (callerConfirmation : address).

Definition void {A} (m : EM A) : EM unit := m ;; mret tt.

Definition dispatch (ctx : Ctx) (c : Call) : EM unit :=
  match c with
  | CreateScholarship n d t m dl ta ts cr =>
      void (createScholarship ctx n d t m dl ta ts cr)
  | ClaimScholarship id => claimScholarship ctx id
  | RevokeScholarship id => revokeScholarship ctx id
  | DepositFunds => depositFunds ctx
  | WithdrawFunds amount => withdrawFunds ctx amount
  | Pause => pause ctx
  | Unpause => unpause ctx
  | Receive => receive ctx
  | GrantRole r a => grantRole ctx r a
  | RevokeRole r a => revokeRole ctx r a
  | RenounceRole r a => renounceRole ctx r a
  end.

Definition isUint256 (x : Z) : Prop := 0 ≤ x ≤ MAX_UINT256.

(** The numbers of a call are [uint256] values. *)
Definition wellFormed (ctx : Ctx) (c : Call) : Prop :=
  isUint256 (msg_value ctx) ∧ isUint256 (block_timestamp ctx) ∧
  match c with
  | CreateScholarship _ _ totalAmount maxRecipients deadline _ _ _ =>
      isUint256 totalAmount ∧ isUint256 maxRecipients ∧ isUint256 deadline
  | WithdrawFunds amount => isUint256 amount
  | _ => True
  end.

(** One committed transaction. *)
Definition step (s s' : Storage) : Prop :=
  ∃ ctx c, wellFormed ctx c ∧ dispatch ctx c s = Done (tt, s').

(** The storage right after deployment; the address may already hold
    funds. *)
Definition deployed (s : Storage) : Prop :=
  ∃ ctx funds, 0 ≤ funds ∧ constructor ctx (emptyStorage funds) = Done (tt, s).

Definition reachable (s : Storage) : Prop :=
  ∃ s0, deployed s0 ∧ rtc step s0 s.

(** The students recorded by the [ScholarshipClaimed] events of one
    scholarship, oldest first. *)
Definition claimantOf (scholarshipId : uint256) (e : EscrowEvent) : option address :=
  match e with
  | ScholarshipClaimed id student _ _ =>
      if bool_decide (id = scholarshipId) then Some student else None
  | _ => None
  end.

Definition claimants (scholarshipId : uint256) (l : list EscrowEvent) : list address :=
  omap (claimantOf scholarshipId) l.

(** ** Running the escrow monad *)

Lemma bind_Done {A B} (m : EM A) (f : A -> EM B) (s : Storage) (r : B * Storage) :
  (m ≫= f) s = Done r ↔ ∃ a s1, m s = Done (a, s1) ∧ f a s1 = Done r.
Proof.
  unfold mbind, EM_bind. destruct (m s) as [[a s1]|e]; split.
  - eauto.
  - intros (a' & s1' & [= -> ->] & H). done.
  - done.
  - intros (? & ? & [=] & _).
Qed.

Lemma transact_Fail {A} (m : EM A) (s : Storage) (e : EscrowError) :
  m s = Fail e → transact m s = (Fail e, s).
Proof. unfold transact. by intros ->. Qed.

Lemma transact_Done {A} (m : EM A) (s s' : Storage) (a : A) :
  m s = Done (a, s') → transact m s = (Done a, s').
Proof. unfold transact. by intros ->. Qed.

Lemma Storage_eq (s1 s2 : Storage) :
  scholarshipIdCounter s1 = scholarshipIdCounter s2 →
  scholarships s1 = scholarships s2 →
  studentScholarships s1 = studentScholarships s2 →
  totalClaimed s1 = totalClaimed s2 →
  scholarshipClaims s1 = scholarshipClaims s2 →
  scholarshipCriteria s1 = scholarshipCriteria s2 →
  roles s1 = roles s2 →
  paused s1 = paused s2 →
  entered s1 = entered s2 →
  balance s1 = balance s2 →
  logs s1 = logs s2 →
  s1 = s2.
Proof. destruct s1, s2. simpl. by intros -> -> -> -> -> -> -> -> -> -> ->. Qed.

Ltac emunfold :=
  unfold mbind, EM_bind, mret, EM_ret, gets, modify, emit, require, revert,
    checkedAdd, checkedSub, checkedDiv in *.

Lemma nonPayable_run {A} ctx (body : EM A) s :
  nonPayable ctx body s =
    if bool_decide (msg_value ctx = 0) then body s else Fail NotPayable.
Proof. unfold nonPayable. emunfold. by case_bool_decide. Qed.

Lemma payable_run {A} ctx (body : EM A) s :
  payable ctx body s = body (set_balance (balance s + msg_value ctx) s).
Proof. done. Qed.

Lemma escrow_onlyRole_run ctx role s :
  onlyRole ctx role s =
    if hasRole s role (msg_sender ctx) then Done (tt, s)
    else Fail (AccessControlUnauthorizedAccount (msg_sender ctx) role).
Proof. unfold onlyRole. emunfold. by destruct (hasRole _ _ _). Qed.

Lemma escrow_whenNotPaused_run s :
  whenNotPaused s = if paused s then Fail EnforcedPause else Done (tt, s).
Proof. unfold whenNotPaused. emunfold. by destruct (paused s). Qed.

Lemma nonReentrant_run {A} (body : EM A) s :
  nonReentrant body s =
    if entered s then Fail ReentrancyGuardReentrantCall
    else match body (set_entered true s) with
         | Done (r, s') => Done (r, set_entered false s')
         | Fail e => Fail e
         end.
Proof.
  unfold nonReentrant. emunfold. destruct (entered s); [done|]. simpl.
  by destruct (body _) as [[]|].
Qed.

Lemma isEligibleForScholarship_run ctx scholarshipId student s :
  isEligibleForScholarship ctx scholarshipId student s =
    Done (bool_decide
            (minCertificates (scholarshipCriteria_at s scholarshipId)
             ≤ Z.of_nat (length (studentCertificates_at (certificateNFT ctx) student))),
          s).
Proof.
  unfold isEligibleForScholarship, staticcall.
  rewrite getStudentCertificates_run. emunfold.
  repeat case_bool_decide; (done || lia).
Qed.

(** ** The entry points in closed form *)

(** The checks of [createScholarship], in the order the code makes them. *)
Definition createCheck (ctx : Ctx) (name : string)
    (totalAmount maxRecipients deadline : uint256) (tokenAddress : address)
    (s : Storage) : option EscrowError :=
  if negb (hasRole s SCHOLARSHIP_MANAGER_ROLE (msg_sender ctx))
  then Some (AccessControlUnauthorizedAccount (msg_sender ctx) SCHOLARSHIP_MANAGER_ROLE)
  else if paused s then Some EnforcedPause
  else if negb (bool_decide (totalAmount > 0))
       then Some (Require "Amount must be greater than 0")
  else if negb (bool_decide (maxRecipients > 0))
       then Some (Require "Max recipients must be greater than 0")
  else if negb (bool_decide (deadline > block_timestamp ctx))
       then Some (Require "Deadline must be in the future")
  else if negb (bool_decide (0 < String.length name)%nat)
       then Some (Require "Name cannot be empty")
  else if bool_decide (tokenAddress = 0) && negb (bool_decide (msg_value ctx >= totalAmount))
       then Some (Require "Insufficient ETH sent")
  else if bool_decide (scholarshipIdCounter s + 1 > MAX_UINT256) then Some (Panic 17)
  else None.

(** The scholarship [createScholarship] stores. *)
Definition newScholarship (ctx : Ctx) (name description : string)
    (totalAmount maxRecipients deadline : uint256) (tokenAddress : address)
    (tokenSymbol : string) : Scholarship :=
  {| name := name; description := description; totalAmount := totalAmount;
     claimedAmount := 0; remainingAmount := totalAmount;
     maxRecipients := maxRecipients;
     amountPerRecipient := totalAmount / maxRecipients;
     createdAt := block_timestamp ctx; deadline := deadline;
     isActive := true; createdBy := msg_sender ctx;
     tokenAddress := tokenAddress; tokenSymbol := tokenSymbol |}.

(** The storage after a successful [createScholarship]. *)
Definition created (ctx : Ctx) (name description : string)
    (totalAmount maxRecipients deadline : uint256) (tokenAddress : address)
    (tokenSymbol : string) (criteria : EligibilityCriteria) (s : Storage) : Storage :=
  let id := scholarshipIdCounter s + 1 in
  mkStorage id
    (<[id := newScholarship ctx name description totalAmount maxRecipients deadline
               tokenAddress tokenSymbol]> (scholarships s))
    (studentScholarships s) (totalClaimed s) (scholarshipClaims s)
    (<[id := criteria]> (scholarshipCriteria s))
    (roles s) (paused s) (entered s)
    (balance s + msg_value ctx)
    (logs s ++ [ScholarshipCreated id name totalAmount maxRecipients deadline
                  (block_timestamp ctx)]).

Lemma createScholarship_run ctx name description totalAmount maxRecipients deadline
    tokenAddress tokenSymbol criteria s :
  createScholarship ctx name description totalAmount maxRecipients deadline
    tokenAddress tokenSymbol criteria s =
    match createCheck ctx name totalAmount maxRecipients deadline tokenAddress s with
    | Some e => Fail e
    | None =>
        Done (scholarshipIdCounter s + 1,
              created ctx name description totalAmount maxRecipients deadline
                tokenAddress tokenSymbol criteria s)
    end.
Proof.
  unfold createScholarship, createCheck. rewrite payable_run.
  unfold mbind at 1, EM_bind at 1. rewrite escrow_onlyRole_run.
  change (hasRole (set_balance _ s)) with (hasRole s).
  destruct (hasRole _ _ _); [|done]. simpl.
  unfold mbind at 1, EM_bind at 1. rewrite escrow_whenNotPaused_run.
  change (paused (set_balance _ s)) with (paused s).
  destruct (paused s); [done|]. simpl.
  emunfold. simpl.
  destruct (bool_decide_reflect (totalAmount > 0)); [|done]. simpl.
  destruct (bool_decide_reflect (maxRecipients > 0)) as [Hmax|]; [|done]. simpl.
  destruct (bool_decide_reflect (deadline > block_timestamp ctx)); [|done]. simpl.
  destruct (bool_decide_reflect (0 < String.length name)%nat); [|done]. simpl.
  assert (maxRecipients ≠ 0) as Hmax0 by lia.
  destruct (bool_decide_reflect (tokenAddress = 0)); simpl.
  - destruct (bool_decide_reflect (msg_value ctx >= totalAmount)); [|done]. simpl.
    destruct (bool_decide_reflect (scholarshipIdCounter s + 1 > MAX_UINT256));
      [done|]. simpl.
    rewrite (bool_decide_eq_false_2 _ Hmax0). simpl.
    done.
  - destruct (bool_decide_reflect (scholarshipIdCounter s + 1 > MAX_UINT256));
      [done|]. simpl.
    rewrite (bool_decide_eq_false_2 _ Hmax0). simpl.
    done.
Qed.

(** The checks of [claimScholarship], in the order the code makes them. *)
Definition claimCheck (ctx : Ctx) (scholarshipId : uint256) (s : Storage)
    : option EscrowError :=
  let x := scholarships_at s scholarshipId in
  let amount := amountPerRecipient x in
  if negb (bool_decide (msg_value ctx = 0)) then Some NotPayable
  else if paused s then Some EnforcedPause
  else if entered s then Some ReentrancyGuardReentrantCall
  else if negb (isActive x) then Some (Require "Scholarship is not active")
  else if negb (bool_decide (block_timestamp ctx <= deadline x))
       then Some (Require "Scholarship deadline has passed")
  else if scholarshipClaims_at s scholarshipId (msg_sender ctx)
       then Some (Require "Already claimed this scholarship")
  else if negb (bool_decide (remainingAmount x > 0))
       then Some (Require "No funds remaining")
  else if negb (bool_decide (claimedAmount x < totalAmount x))
       then Some (Require "Scholarship fully claimed")
  else if negb (bool_decide
                  (minCertificates (scholarshipCriteria_at s scholarshipId)
                   ≤ Z.of_nat (length (studentCertificates_at (certificateNFT ctx)
                                         (msg_sender ctx)))))
       then Some (Require "Student not eligible for this scholarship")
  else if negb (bool_decide (amount <= remainingAmount x))
       then Some (Require "Insufficient funds for claim")
  else if bool_decide (claimedAmount x + amount > MAX_UINT256) then Some (Panic 17)
  else if negb (bool_decide (tokenAddress x = 0))
       then Some (Require "ERC20 transfers not yet implemented")
  else if negb (bool_decide (balance s >= amount))
       then Some (Require "Insufficient contract balance")
  else if negb (acceptsETH ctx (msg_sender ctx)) then Some (Require "ETH transfer failed")
  else if bool_decide (totalClaimed_at s (msg_sender ctx) + amount > MAX_UINT256)
       then Some (Panic 17)
  else None.

(** The scholarship record after one more claim. *)
Definition claimedScholarship (x : Scholarship) : Scholarship :=
  let x1 := set_remainingAmount (remainingAmount x - amountPerRecipient x)
              (set_claimedAmount (claimedAmount x + amountPerRecipient x) x) in
  if bool_decide (remainingAmount x1 = 0)
     || bool_decide (claimedAmount x1 >= totalAmount x1)
  then set_isActive false x1 else x1.

(** The storage after a successful [claimScholarship]. *)
Definition claimed (ctx : Ctx) (scholarshipId : uint256) (s : Storage) : Storage :=
  let x := scholarships_at s scholarshipId in
  let amount := amountPerRecipient x in
  let student := msg_sender ctx in
  mkStorage (scholarshipIdCounter s)
    (<[scholarshipId := claimedScholarship x]> (scholarships s))
    (<[student := studentScholarships_at s student ++ [scholarshipId]]>
       (studentScholarships s))
    (<[student := totalClaimed_at s student + amount]> (totalClaimed s))
    (<[(scholarshipId, student) := true]> (scholarshipClaims s))
    (scholarshipCriteria s) (roles s) (paused s) false
    (balance s - amount)
    (logs s ++ [ScholarshipClaimed scholarshipId student amount (block_timestamp ctx)]).

Lemma claimScholarship_run ctx scholarshipId s :
  claimScholarship ctx scholarshipId s =
    match claimCheck ctx scholarshipId s with
    | Some e => Fail e
    | None => Done (tt, claimed ctx scholarshipId s)
    end.
Proof.
  destruct s as [c sch ss tc cl cr ro pa en ba lo].
  unfold claimScholarship, claimCheck, claimed, nonPayable, whenNotPaused,
    nonReentrant, isEligibleForScholarship, staticcall, updateScholarship, sendValue,
    claimedScholarship, scholarships_at, scholarshipClaims_at, scholarshipCriteria_at,
    totalClaimed_at, studentScholarships_at.
  rewrite getStudentCertificates_run. emunfold. simpl.
  destruct (bool_decide_reflect (msg_value ctx = 0)); simpl; [|done].
  destruct pa; simpl; [done|].
  destruct en; simpl; [done|].
  set (x := default zeroScholarship (sch !! scholarshipId)).
  set (certs := studentCertificates_at (certificateNFT ctx) (msg_sender ctx)).
  destruct (isActive x) eqn:Hactive; simpl; [|done].
  destruct (bool_decide_reflect (block_timestamp ctx <= deadline x)); simpl; [|done].
  destruct (default false (cl !! (scholarshipId, msg_sender ctx))); simpl; [done|].
  destruct (bool_decide_reflect (remainingAmount x > 0)); simpl; [|done].
  destruct (bool_decide_reflect (claimedAmount x < totalAmount x)); simpl; [|done].
  destruct (bool_decide_reflect
              (Z.of_nat (length certs) < minCertificates (default zeroCriteria (cr !! scholarshipId))));
    destruct (bool_decide_reflect
              (minCertificates (default zeroCriteria (cr !! scholarshipId)) ≤ Z.of_nat (length certs)));
    try lia; simpl; [done|].
  destruct (bool_decide_reflect (amountPerRecipient x <= remainingAmount x)); simpl; [|done].
  destruct (bool_decide_reflect (claimedAmount x + amountPerRecipient x > MAX_UINT256));
    simpl; [done|].
  destruct (bool_decide_reflect (remainingAmount x < amountPerRecipient x)); [lia|]. simpl.
  rewrite !lookup_insert_eq. simpl. fold x. rewrite !insert_insert_eq.
  destruct (bool_decide (remainingAmount x - amountPerRecipient x = 0)
            || bool_decide (claimedAmount x + amountPerRecipient x >= totalAmount x));
    simpl; rewrite ?lookup_insert_eq, ?insert_insert_eq; simpl;
    (destruct (bool_decide_reflect (tokenAddress x = 0)); simpl; [|done];
     destruct (bool_decide_reflect (ba >= amountPerRecipient x)); simpl; [|done];
     destruct (acceptsETH ctx (msg_sender ctx)); simpl; [|done];
     destruct (bool_decide_reflect
                 (default 0 (tc !! msg_sender ctx) + amountPerRecipient x > MAX_UINT256));
       simpl; done).
Qed.






(** The checks of [revokeScholarship], in the order the code makes them. *)
Definition revokeCheck (ctx : Ctx) (scholarshipId : uint256) (s : Storage)
    : option EscrowError :=
  if negb (bool_decide (msg_value ctx = 0)) then Some NotPayable
  else if negb (hasRole s ADMIN_ROLE (msg_sender ctx))
       then Some (AccessControlUnauthorizedAccount (msg_sender ctx) ADMIN_ROLE)
  else if negb (isActive (scholarships_at s scholarshipId))
       then Some (Require "Scholarship is not active")
  else None.

(** The storage after a successful [revokeScholarship]. *)
Definition revokedStorage (ctx : Ctx) (scholarshipId : uint256) (s : Storage) : Storage :=
  mkStorage (scholarshipIdCounter s)
    (<[scholarshipId := set_isActive false (scholarships_at s scholarshipId)]>
       (scholarships s))
    (studentScholarships s) (totalClaimed s) (scholarshipClaims s)
    (scholarshipCriteria s) (roles s) (paused s) (entered s) (balance s)
    (logs s ++ [ScholarshipRevoked scholarshipId (msg_sender ctx) (block_timestamp ctx)]).

Lemma revokeScholarship_run ctx scholarshipId s :
  revokeScholarship ctx scholarshipId s =
    match revokeCheck ctx scholarshipId s with
    | Some e => Fail e
    | None => Done (tt, revokedStorage ctx scholarshipId s)
    end.
Proof.
  destruct s as [c sch ss tc cl cr ro pa en ba lo].
  unfold revokeScholarship, revokeCheck, revokedStorage, nonPayable, onlyRole,
    updateScholarship, scholarships_at, hasRole.
  emunfold. simpl.
  destruct (bool_decide_reflect (msg_value ctx = 0)); simpl; [|done].
  destruct (default false (ro !! (ADMIN_ROLE, msg_sender ctx))); simpl; [|done].
  destruct (isActive (default zeroScholarship (sch !! scholarshipId))); simpl; done.
Qed.

(** The checks of [withdrawFunds], in the order the code makes them. *)
Definition withdrawCheck (ctx : Ctx) (amount : uint256) (s : Storage)
    : option EscrowError :=
  if negb (bool_decide (msg_value ctx = 0)) then Some NotPayable
  else if negb (hasRole s ADMIN_ROLE (msg_sender ctx))
       then Some (AccessControlUnauthorizedAccount (msg_sender ctx) ADMIN_ROLE)
  else if entered s then Some ReentrancyGuardReentrantCall
  else if negb (bool_decide (amount <= balance s)) then Some (Require "Insufficient balance")
  else if negb (bool_decide (amount > 0)) then Some (Require "Amount must be greater than 0")
  else if negb (acceptsETH ctx (msg_sender ctx)) then Some (Require "Transfer failed")
  else None.

(** The storage after a successful [withdrawFunds]. *)
Definition withdrawn (ctx : Ctx) (amount : uint256) (s : Storage) : Storage :=
  mkStorage (scholarshipIdCounter s) (scholarships s) (studentScholarships s)
    (totalClaimed s) (scholarshipClaims s) (scholarshipCriteria s) (roles s) (paused s)
    false (balance s - amount)
    (logs s ++ [FundsWithdrawn (msg_sender ctx) amount (block_timestamp ctx)]).

Lemma withdrawFunds_run ctx amount s :
  withdrawFunds ctx amount s =
    match withdrawCheck ctx amount s with
    | Some e => Fail e
    | None => Done (tt, withdrawn ctx amount s)
    end.
Proof.
  destruct s as [c sch ss tc cl cr ro pa en ba lo].
  unfold withdrawFunds, withdrawCheck, withdrawn, nonPayable, onlyRole, nonReentrant,
    sendValue, hasRole.
  emunfold. simpl.
  destruct (bool_decide_reflect (msg_value ctx = 0)); simpl; [|done].
  destruct (default false (ro !! (ADMIN_ROLE, msg_sender ctx))); simpl; [|done].
  destruct en; simpl; [done|].
  destruct (bool_decide_reflect (amount <= ba)); simpl; [|done].
  destruct (bool_decide_reflect (amount > 0)); simpl; [|done].
  destruct (acceptsETH ctx (msg_sender ctx)); simpl; done.
Qed.

(** The storage after a successful [depositFunds] or a plain transfer. *)
Definition deposited (ctx : Ctx) (s : Storage) : Storage :=
  mkStorage (scholarshipIdCounter s) (scholarships s) (studentScholarships s)
    (totalClaimed s) (scholarshipClaims s) (scholarshipCriteria s) (roles s) (paused s)
    (entered s) (balance s + msg_value ctx)
    (logs s ++ [FundsDeposited (msg_sender ctx) (msg_value ctx) (block_timestamp ctx)]).

Lemma depositFunds_run ctx s :
  depositFunds ctx s =
    if paused s then Fail EnforcedPause
    else if bool_decide (msg_value ctx > 0) then Done (tt, deposited ctx s)
    else Fail (Require "Amount must be greater than 0").
Proof.
  destruct s as [c sch ss tc cl cr ro pa en ba lo].
  unfold depositFunds, deposited, payable, whenNotPaused. emunfold. simpl.
  destruct pa; simpl; [done|].
  destruct (bool_decide_reflect (msg_value ctx > 0)); simpl; done.
Qed.

Lemma receive_run ctx s : receive ctx s = Done (tt, deposited ctx s).
Proof. by destruct s. Qed.

(** ** The event log as the history of payouts *)

Definition isClaim (e : EscrowEvent) : bool :=
  match e with ScholarshipClaimed _ _ _ _ => true | _ => false end.

(** What the [ScholarshipClaimed] events say was paid to [student]. *)
Definition paidTo (student : address) (l : list EscrowEvent) : Z :=
  foldr (λ e acc,
           match e with
           | ScholarshipClaimed _ st amount _ =>
               if bool_decide (st = student) then amount + acc else acc
           | _ => acc
           end) 0 l.

(** The scholarships the events say [student] claimed, oldest first. *)
Definition claimedBy (student : address) (l : list EscrowEvent) : list uint256 :=
  omap (λ e, match e with
             | ScholarshipClaimed id st _ _ =>
                 if bool_decide (st = student) then Some id else None
             | _ => None
             end) l.

Lemma paidTo_app student l l' :
  paidTo student (l ++ l') = paidTo student l + paidTo student l'.
Proof.
  induction l as [|e l IH]; simpl; [done|].
  destruct e; try done. case_bool_decide; lia.
Qed.

Lemma claimants_app id l l' : claimants id (l ++ l') = claimants id l ++ claimants id l'.
Proof. apply omap_app. Qed.

Lemma claimedBy_app student l l' :
  claimedBy student (l ++ l') = claimedBy student l ++ claimedBy student l'.
Proof. apply omap_app. Qed.

Lemma claimants_quiet id l : Forall (λ e, isClaim e = false) l → claimants id l = [].
Proof. induction 1 as [|e l He _ IH]; [done|]. destruct e; try done. Qed.

Lemma paidTo_quiet student l : Forall (λ e, isClaim e = false) l → paidTo student l = 0.
Proof. induction 1 as [|e l He _ IH]; [done|]. destruct e; try done. Qed.

Lemma claimedBy_quiet student l :
  Forall (λ e, isClaim e = false) l → claimedBy student l = [].
Proof. induction 1 as [|e l He _ IH]; [done|]. destruct e; try done. Qed.

(** ** The accounting invariant *)

(** What holds of a stored scholarship that [n] students have claimed. *)
Record scholarshipOk (x : Scholarship) (n : nat) : Prop := {
  ok_total : 0 < totalAmount x ≤ MAX_UINT256;
  ok_recipients : 0 < maxRecipients x;
  ok_share : amountPerRecipient x = totalAmount x / maxRecipients x;
  ok_claimed : claimedAmount x = amountPerRecipient x * Z.of_nat n;
  ok_sum : claimedAmount x + remainingAmount x = totalAmount x;
  ok_remaining : 0 ≤ remainingAmount x;
  ok_active : isActive x = true → 0 < remainingAmount x;
  ok_token : tokenAddress x ≠ 0 → n = 0%nat
}.

Record escrowInv (s : Storage) : Prop := {
  inv_counter : 0 ≤ scholarshipIdCounter s;
  inv_entered : entered s = false;
  inv_balance : 0 ≤ balance s;
  inv_range : ∀ id x, scholarships s !! id = Some x → 0 < id ≤ scholarshipIdCounter s;
  inv_unwritten : ∀ id, scholarships s !! id = None → claimants id (logs s) = [];
  inv_scholarship : ∀ id x,
    scholarships s !! id = Some x → scholarshipOk x (length (claimants id (logs s)));
  inv_claims : ∀ id student,
    scholarshipClaims_at s id student = true ↔ student ∈ claimants id (logs s);
  inv_nodup : ∀ id, NoDup (claimants id (logs s));
  inv_total : ∀ student, totalClaimed_at s student = paidTo student (logs s);
  inv_history : ∀ student, studentScholarships_at s student = claimedBy student (logs s)
}.

(** A transaction that leaves the scholarships and the payout records
    alone. *)
Record frame (s s' : Storage) : Prop := {
  frame_counter : scholarshipIdCounter s' = scholarshipIdCounter s;
  frame_scholarships : scholarships s' = scholarships s;
  frame_studentScholarships : studentScholarships s' = studentScholarships s;
  frame_totalClaimed : totalClaimed s' = totalClaimed s;
  frame_scholarshipClaims : scholarshipClaims s' = scholarshipClaims s;
  frame_entered : entered s = false → entered s' = false;
  frame_balance : 0 ≤ balance s → 0 ≤ balance s';
  frame_logs : ∃ l, logs s' = logs s ++ l ∧ Forall (λ e, isClaim e = false) l
}.

Lemma frame_inv s s' : escrowInv s → frame s s' → escrowInv s'.
Proof.
  intros [] [Hc Hs Hss Htc Hcl He Hb (l & Hl & Hq)].
  assert (∀ id, claimants id (logs s') = claimants id (logs s)) as Hclaimants.
  { intros id. by rewrite Hl, claimants_app, (claimants_quiet _ _ Hq), app_nil_r. }
  assert (∀ a, paidTo a (logs s') = paidTo a (logs s)) as Hpaid.
  { intros a. rewrite Hl, paidTo_app, (paidTo_quiet _ _ Hq). lia. }
  assert (∀ a, claimedBy a (logs s') = claimedBy a (logs s)) as Hby.
  { intros a. by rewrite Hl, claimedBy_app, (claimedBy_quiet _ _ Hq), app_nil_r. }
  split; unfold scholarshipClaims_at, totalClaimed_at, studentScholarships_at in *;
    intros; rewrite ?Hclaimants, ?Hpaid, ?Hby, ?Hc, ?Hs, ?Hss, ?Htc, ?Hcl in *; eauto.
Qed.

(** Case analysis on the first check of a chain of checks. *)
Ltac first_check H :=
  match type of H with
  | (if negb (bool_decide ?P) then _ else _) = None =>
      destruct (bool_decide_reflect P); simpl in H; [|discriminate H]
  | (if bool_decide ?P then _ else _) = None =>
      destruct (bool_decide_reflect P); simpl in H; [discriminate H|]
  | (if negb ?b then _ else _) = None =>
      destruct b eqn:?; simpl in H; [|discriminate H]
  | (if ?b then _ else _) = None =>
      destruct b eqn:?; simpl in H; [discriminate H|]
  end.

Ltac pass_check :=
  match goal with
  | |- (if negb (bool_decide ?P) then _ else _) = None =>
      rewrite (bool_decide_eq_true_2 P) by (done || lia); simpl
  | |- (if bool_decide ?P then _ else _) = None =>
      rewrite (bool_decide_eq_false_2 P) by (done || lia); simpl
  | |- (if negb ?b then _ else _) = None =>
      replace b with true by (symmetry; assumption); simpl
  | |- (if ?b then _ else _) = None =>
      replace b with false by (symmetry; assumption); simpl
  end.

(** When [claimScholarship] goes through. *)
Record claimable (ctx : Ctx) (scholarshipId : uint256) (s : Storage) : Prop := {
  claim_value : msg_value ctx = 0;
  claim_unpaused : paused s = false;
  claim_entered : entered s = false;
  claim_active : isActive (scholarships_at s scholarshipId) = true;
  claim_deadline : block_timestamp ctx ≤ deadline (scholarships_at s scholarshipId);
  claim_first : scholarshipClaims_at s scholarshipId (msg_sender ctx) = false;
  claim_remaining : remainingAmount (scholarships_at s scholarshipId) > 0;
  claim_notFull :
    claimedAmount (scholarships_at s scholarshipId)
    < totalAmount (scholarships_at s scholarshipId);
  claim_eligible :
    minCertificates (scholarshipCriteria_at s scholarshipId)
    ≤ Z.of_nat (length (studentCertificates_at (certificateNFT ctx) (msg_sender ctx)));
  claim_share :
    amountPerRecipient (scholarships_at s scholarshipId)
    ≤ remainingAmount (scholarships_at s scholarshipId);
  claim_noOverflow :
    ¬ claimedAmount (scholarships_at s scholarshipId)
      + amountPerRecipient (scholarships_at s scholarshipId) > MAX_UINT256;
  claim_eth : tokenAddress (scholarships_at s scholarshipId) = 0;
  claim_funds : balance s >= amountPerRecipient (scholarships_at s scholarshipId);
  claim_accepts : acceptsETH ctx (msg_sender ctx) = true;
  claim_totalNoOverflow :
    ¬ totalClaimed_at s (msg_sender ctx)
      + amountPerRecipient (scholarships_at s scholarshipId) > MAX_UINT256
}.

Lemma claimCheck_None ctx scholarshipId s :
  claimCheck ctx scholarshipId s = None ↔ claimable ctx scholarshipId s.
Proof.
  unfold claimCheck. cbv zeta. split.
  - intros H. repeat first_check H. by split.
  - intros []. repeat pass_check. done.
Qed.

Lemma scholarships_at_active s id :
  isActive (scholarships_at s id) = true →
  scholarships s !! id = Some (scholarships_at s id).
Proof. unfold scholarships_at. by destruct (scholarships s !! id). Qed.

Lemma claimants_snoc id l id' student amount timestamp :
  claimants id (l ++ [ScholarshipClaimed id' student amount timestamp]) =
    if bool_decide (id' = id) then claimants id l ++ [student] else claimants id l.
Proof.
  rewrite claimants_app. simpl. case_bool_decide; [done|]. by rewrite app_nil_r.
Qed.

Lemma claimedScholarship_ok x n :
  scholarshipOk x n →
  amountPerRecipient x ≤ remainingAmount x →
  tokenAddress x = 0 →
  scholarshipOk (claimedScholarship x) (S n).
Proof.
  intros [] Hshare Heth. unfold claimedScholarship. cbv zeta.
  destruct (_ || _) eqn:Hfull; split; simpl in *; try done; try lia.
  apply orb_false_iff in Hfull as [Hrem _].
  apply bool_decide_eq_false in Hrem. lia.
Qed.

Lemma claimed_inv ctx scholarshipId s :
  escrowInv s → claimCheck ctx scholarshipId s = None →
  escrowInv (claimed ctx scholarshipId s).
Proof.
  intros [] [? ? ? Hactive ? Hfirst ? ? ? ? ? ? ? ? ?]%claimCheck_None.
  pose proof (scholarships_at_active _ _ Hactive) as Hx.
  assert (msg_sender ctx ∉ claimants scholarshipId (logs s)) as Hnew.
  { rewrite <- inv_claims0, Hfirst. done. }
  unfold claimed. cbv zeta.
  split; unfold scholarshipClaims_at, totalClaimed_at, studentScholarships_at in *; simpl.
  - done.
  - done.
  - lia.
  - intros id x. destruct (decide (id = scholarshipId)) as [->|].
    + intros _. eauto.
    + rewrite lookup_insert_ne by done. eauto.
  - intros id. destruct (decide (id = scholarshipId)) as [->|].
    + by rewrite lookup_insert_eq.
    + rewrite lookup_insert_ne, claimants_snoc, bool_decide_eq_false_2 by done. eauto.
  - intros id x. rewrite claimants_snoc. destruct (decide (id = scholarshipId)) as [->|].
    + rewrite lookup_insert_eq, bool_decide_eq_true_2 by done. intros [= <-].
      rewrite length_app, Nat.add_1_r. apply claimedScholarship_ok; eauto.
    + rewrite lookup_insert_ne, bool_decide_eq_false_2 by done. eauto.
  - intros id student. rewrite claimants_snoc.
    destruct (decide ((scholarshipId, msg_sender ctx) = (id, student))) as [[= <- <-]|Hne].
    + rewrite lookup_insert_eq, bool_decide_eq_true_2 by done. simpl.
      split; [|done]. intros _. apply elem_of_app. right. by apply list_elem_of_singleton.
    + rewrite lookup_insert_ne by done. rewrite inv_claims0.
      case_bool_decide; [|done]. subst id. rewrite elem_of_app, list_elem_of_singleton.
      split; [by left|]. intros [ | -> ]; [done|]. done.
  - intros id. rewrite claimants_snoc. case_bool_decide; [|done]. subst id.
    apply NoDup_app. split_and!; [done| |apply NoDup_singleton].
    intros a Ha ->%list_elem_of_singleton. done.
  - intros student. rewrite paidTo_app. simpl.
    destruct (decide (msg_sender ctx = student)) as [<-|].
    + rewrite lookup_insert_eq, bool_decide_eq_true_2 by done. simpl.
      rewrite <- inv_total0. unfold scholarships_at. lia.
    + rewrite lookup_insert_ne, bool_decide_eq_false_2 by done.
      rewrite inv_total0. lia.
  - intros student. rewrite claimedBy_app. simpl.
    destruct (decide (msg_sender ctx = student)) as [<-|].
    + rewrite lookup_insert_eq, bool_decide_eq_true_2 by done. simpl.
      by rewrite <- inv_history0.
    + rewrite lookup_insert_ne, bool_decide_eq_false_2 by done.
      rewrite inv_history0. by rewrite app_nil_r.
Qed.

(** When [createScholarship] goes through. *)
Record creatable (ctx : Ctx) (name : string) (totalAmount maxRecipients deadline : uint256)
    (tokenAddress : address) (s : Storage) : Prop := {
  create_role : hasRole s SCHOLARSHIP_MANAGER_ROLE (msg_sender ctx) = true;
  create_unpaused : paused s = false;
  create_amount : totalAmount > 0;
  create_recipients : maxRecipients > 0;
  create_deadline : deadline > block_timestamp ctx;
  create_name : (0 < String.length name)%nat;
  create_funded : tokenAddress = 0 → msg_value ctx >= totalAmount;
  create_counter : ¬ scholarshipIdCounter s + 1 > MAX_UINT256
}.

Lemma createCheck_None ctx name totalAmount maxRecipients deadline tokenAddress s :
  createCheck ctx name totalAmount maxRecipients deadline tokenAddress s = None ↔
  creatable ctx name totalAmount maxRecipients deadline tokenAddress s.
Proof.
  unfold createCheck. split.
  - intros H. do 6 first_check H.
    destruct (bool_decide_reflect (tokenAddress = 0)); simpl in H.
    + repeat first_check H. by split.
    + repeat first_check H. by split.
  - intros []. do 6 pass_check.
    destruct (bool_decide_reflect (tokenAddress = 0)); simpl; repeat pass_check; auto.
Qed.

Lemma claimants_snoc_quiet id l e :
  isClaim e = false → claimants id (l ++ [e]) = claimants id l.
Proof.
  intros He. rewrite claimants_app, (claimants_quiet id [e]), app_nil_r; [done|].
  by constructor.
Qed.

Lemma paidTo_snoc_quiet student l e :
  isClaim e = false → paidTo student (l ++ [e]) = paidTo student l.
Proof.
  intros He. rewrite paidTo_app, (paidTo_quiet student [e]); [lia|]. by constructor.
Qed.

Lemma claimedBy_snoc_quiet student l e :
  isClaim e = false → claimedBy student (l ++ [e]) = claimedBy student l.
Proof.
  intros He. rewrite claimedBy_app, (claimedBy_quiet student [e]), app_nil_r; [done|].
  by constructor.
Qed.

Lemma created_inv ctx name description totalAmount maxRecipients deadline tokenAddress
    tokenSymbol criteria s :
  escrowInv s → isUint256 (msg_value ctx) → isUint256 totalAmount →
  createCheck ctx name totalAmount maxRecipients deadline tokenAddress s = None →
  escrowInv (created ctx name description totalAmount maxRecipients deadline tokenAddress
               tokenSymbol criteria s).
Proof.
  intros [] [? ?] [? ?] []%createCheck_None.
  unfold created. cbv zeta.
  split; unfold scholarshipClaims_at, totalClaimed_at, studentScholarships_at in *; simpl;
    intros;
    rewrite ?claimants_snoc_quiet, ?paidTo_snoc_quiet, ?claimedBy_snoc_quiet by done;
    eauto; try lia.
  - destruct (decide (id = scholarshipIdCounter s + 1)) as [->|]; [lia|].
    rewrite lookup_insert_ne in * by done.
    match goal with H : scholarships s !! _ = Some _ |- _ => apply inv_range0 in H end. lia.
  - destruct (decide (id = scholarshipIdCounter s + 1)) as [->|].
    + by rewrite lookup_insert_eq in *.
    + rewrite lookup_insert_ne in * by done. eauto.
  - destruct (decide (id = scholarshipIdCounter s + 1)) as [->|].
    + rewrite lookup_insert_eq in *. simplify_eq.
      destruct (scholarships s !! (scholarshipIdCounter s + 1)) as [y|] eqn:Hy.
      { apply inv_range0 in Hy. lia. }
      rewrite (inv_unwritten0 _ Hy). split; simpl; try done; lia.
    + rewrite lookup_insert_ne in * by done. eauto.
Qed.

Lemma revokeCheck_None ctx scholarshipId s :
  revokeCheck ctx scholarshipId s = None ↔
  msg_value ctx = 0 ∧ hasRole s ADMIN_ROLE (msg_sender ctx) = true ∧
  isActive (scholarships_at s scholarshipId) = true.
Proof.
  unfold revokeCheck. split.
  - intros H. repeat first_check H. done.
  - intros (? & ? & ?). repeat pass_check. done.
Qed.

Lemma revoked_inv ctx scholarshipId s :
  escrowInv s → revokeCheck ctx scholarshipId s = None →
  escrowInv (revokedStorage ctx scholarshipId s).
Proof.
  intros [] (_ & _ & Hactive)%revokeCheck_None.
  pose proof (scholarships_at_active _ _ Hactive) as Hx.
  unfold revokedStorage.
  split; unfold scholarshipClaims_at, totalClaimed_at, studentScholarships_at in *; simpl;
    intros;
    rewrite ?claimants_snoc_quiet, ?paidTo_snoc_quiet, ?claimedBy_snoc_quiet by done;
    eauto.
  - destruct (decide (id = scholarshipId)) as [->|]; [eauto|].
    rewrite lookup_insert_ne in * by done. eauto.
  - destruct (decide (id = scholarshipId)) as [->|].
    + by rewrite lookup_insert_eq in *.
    + rewrite lookup_insert_ne in * by done. eauto.
  - destruct (decide (id = scholarshipId)) as [->|].
    + rewrite lookup_insert_eq in *. simplify_eq.
      destruct (inv_scholarship0 _ _ Hx). split; simpl; done.
    + rewrite lookup_insert_ne in * by done. eauto.
Qed.

(** The calls that touch neither a scholarship nor a payout record. *)
Definition isFrameCall (c : Call) : bool :=
  match c with
  | CreateScholarship _ _ _ _ _ _ _ _ | ClaimScholarship _ | RevokeScholarship _ => false
  | _ => true
  end.

Ltac frame_logs l := exists l; split; [by rewrite <- ?app_assoc, ?app_nil_r | repeat constructor].

Lemma _grantRole_frame ctx role account s b s' :
  _grantRole ctx role account s = Done (b, s') → frame s s'.
Proof.
  destruct s as [c sch ss tc cl cr ro pa en ba lo].
  unfold _grantRole, hasRole. emunfold. simpl.
  destruct (default false (ro !! (role, account))); simpl; intros [= _ <-];
    split; simpl; try done.
  - frame_logs (@nil EscrowEvent).
  - frame_logs [RoleGranted role account (msg_sender ctx)].
Qed.

Lemma _revokeRole_frame ctx role account s b s' :
  _revokeRole ctx role account s = Done (b, s') → frame s s'.
Proof.
  destruct s as [c sch ss tc cl cr ro pa en ba lo].
  unfold _revokeRole, hasRole. emunfold. simpl.
  destruct (default false (ro !! (role, account))); simpl; intros [= _ <-];
    split; simpl; try done.
  - frame_logs [RoleRevoked role account (msg_sender ctx)].
  - frame_logs (@nil EscrowEvent).
Qed.

Lemma dispatch_frame ctx c s s' :
  isFrameCall c = true → isUint256 (msg_value ctx) →
  dispatch ctx c s = Done (tt, s') → frame s s'.
Proof.
  intros Hc [Hv _]. destruct c; try discriminate Hc; simpl.
  - rewrite depositFunds_run. destruct (paused s); [done|].
    case_bool_decide; [|done]. intros [= <-]. split; simpl; try done; [lia|].
    frame_logs [FundsDeposited (msg_sender ctx) (msg_value ctx) (block_timestamp ctx)].
  - rewrite withdrawFunds_run.
    destruct (withdrawCheck ctx amount s) eqn:Hcheck; [done|]. intros [= <-].
    unfold withdrawCheck in Hcheck. repeat first_check Hcheck.
    split; simpl; try done; [lia|].
    frame_logs [FundsWithdrawn (msg_sender ctx) amount (block_timestamp ctx)].
  - unfold pause, _pause. rewrite nonPayable_run. case_bool_decide; [|done].
    unfold mbind at 1, EM_bind at 1. rewrite escrow_onlyRole_run.
    destruct (hasRole _ _ _); [|done].
    unfold mbind at 1, EM_bind at 1. rewrite escrow_whenNotPaused_run.
    destruct (paused s); [done|]. intros [= <-]. split; simpl; try done.
    frame_logs [Paused (msg_sender ctx)].
  - unfold unpause, _unpause, whenPaused. rewrite nonPayable_run. case_bool_decide; [|done].
    unfold mbind at 1, EM_bind at 1. rewrite escrow_onlyRole_run.
    destruct (hasRole _ _ _); [|done]. emunfold.
    destruct (paused s); [|done]. intros [= <-]. split; simpl; try done.
    frame_logs [Unpaused (msg_sender ctx)].
  - rewrite receive_run. intros [= <-]. split; simpl; try done; [lia|].
    frame_logs [FundsDeposited (msg_sender ctx) (msg_value ctx) (block_timestamp ctx)].
  - unfold grantRole. rewrite nonPayable_run. case_bool_decide; [|done].
    unfold mbind at 1, EM_bind at 1. rewrite escrow_onlyRole_run.
    destruct (hasRole _ _ _); [|done].
    intros (b & s2 & Hg & [= <-])%bind_Done.
    eapply _grantRole_frame, Hg.
  - unfold revokeRole. rewrite nonPayable_run. case_bool_decide; [|done].
    unfold mbind at 1, EM_bind at 1. rewrite escrow_onlyRole_run.
    destruct (hasRole _ _ _); [|done].
    intros (b & s2 & Hg & [= <-])%bind_Done.
    eapply _revokeRole_frame, Hg.
  - unfold renounceRole. rewrite nonPayable_run. case_bool_decide; [|done].
    unfold mbind at 1, EM_bind at 1. case_bool_decide; [|done].
    intros (b & s2 & Hg & [= <-])%bind_Done.
    eapply _revokeRole_frame, Hg.
Qed.

(** What a committed transaction is: a creation, a claim, a revocation, or
    a call that leaves scholarships and payouts alone. *)
Lemma step_cases s s' :
  step s s' →
  (∃ ctx name description totalAmount maxRecipients deadline tokenAddress tokenSymbol criteria,
      isUint256 (msg_value ctx) ∧ isUint256 (block_timestamp ctx) ∧
      isUint256 totalAmount ∧ isUint256 maxRecipients ∧ isUint256 deadline ∧
      createCheck ctx name totalAmount maxRecipients deadline tokenAddress s = None ∧
      s' = created ctx name description totalAmount maxRecipients deadline tokenAddress
             tokenSymbol criteria s) ∨
  (∃ ctx scholarshipId,
      isUint256 (block_timestamp ctx) ∧
      claimCheck ctx scholarshipId s = None ∧ s' = claimed ctx scholarshipId s) ∨
  (∃ ctx scholarshipId,
      revokeCheck ctx scholarshipId s = None ∧ s' = revokedStorage ctx scholarshipId s) ∨
  frame s s'.
Proof.
  intros (ctx & c & (Hv & Ht & Hc) & H).
  destruct c; try (right; right; right; by eapply dispatch_frame; [| |exact H]).
  - left. simpl in H. unfold void in H.
    apply bind_Done in H as (id & s1 & H & [= <-]).
    rewrite createScholarship_run in H.
    destruct (createCheck _ _ _ _ _ _ _) eqn:Hcheck; [done|]. injection H as Hid <-.
    destruct Hc as (? & ? & ?). eauto 20.
  - right. left. simpl in H. rewrite claimScholarship_run in H.
    destruct (claimCheck _ _ _) eqn:Hcheck; [done|]. injection H as <-. eauto 10.
  - right. right. left. simpl in H. rewrite revokeScholarship_run in H.
    destruct (revokeCheck _ _ _) eqn:Hcheck; [done|]. injection H as <-. eauto.
Qed.

Lemma step_inv s s' : escrowInv s → step s s' → escrowInv s'.
Proof.
  intros Hinv [H|[H|[H|H]]]%step_cases.
  - destruct H as (ctx & n & d & t & m & dl & ta & ts & cr & ? & _ & ? & _ & _ & ? & ->).
    by apply created_inv.
  - destruct H as (ctx & id & _ & ? & ->). by apply claimed_inv.
  - destruct H as (ctx & id & ? & ->). by apply revoked_inv.
  - by eapply frame_inv.
Qed.

Lemma deployed_inv s : deployed s → escrowInv s.
Proof.
  intros (ctx & funds & Hfunds & H).
  unfold constructor in H.
  apply bind_Done in H as (b1 & s1 & H1 & H). apply _grantRole_frame in H1.
  apply bind_Done in H as (b2 & s2 & H2 & H). apply _grantRole_frame in H2.
  apply bind_Done in H as (b3 & s3 & H3 & [= <-]). apply _grantRole_frame in H3.
  eapply frame_inv; [|exact H3]. eapply frame_inv; [|exact H2].
  eapply frame_inv; [|exact H1].
  split; simpl; try done.
  - intros id student. unfold scholarshipClaims_at. simpl. rewrite lookup_empty. simpl.
    split; [done|]. by intros ?%elem_of_nil.
  - intros. apply NoDup_nil_2.
Qed.

Lemma reachable_escrowInv s : reachable s → escrowInv s.
Proof.
  intros (s0 & H0%deployed_inv & Hsteps).
  induction Hsteps as [|s1 s2 s3 Hstep _ IH]; [done|].
  apply IH. by eapply step_inv.
Qed.

(** ** A test scenario *)

Module Story.
Definition deployer : address := 1000.

(** Runs [m] and keeps the resulting storage; a revert keeps [s]. *)
Definition after {A} (m : EM A) (s : Storage) : Storage := (transact m s).2.

Definition ctx_deployer : Ctx := mkCtx deployer 0 100 (λ _, true) Scenario.s1.
Definition ctx_funding : Ctx := mkCtx deployer 10 100 (λ _, true) Scenario.s1.
Definition ctx_alice : Ctx := mkCtx Scenario.alice 0 200 (λ _, true) Scenario.s1.

(** One certificate is enough. *)
Definition merit : EligibilityCriteria := mkCriteria 0 [] [] 1 0 0 false.

Definition create_merit : Call :=
  CreateScholarship "Merit" "Top students" 10 3 1000 0 "ETH" merit.
Definition create_token : Call :=
  CreateScholarship "Token" "Paid in tokens" 50 5 1000 7777 "TKN" merit.

Definition e0 : Storage := after (constructor ctx_deployer) (emptyStorage 0).
Definition e1 : Storage := after (dispatch ctx_funding create_merit) e0.
Definition e2 : Storage := after (dispatch ctx_alice (ClaimScholarship 1)) e1.
Definition e3 : Storage := after (dispatch ctx_deployer create_token) e2.
Definition e4 : Storage := after (dispatch ctx_deployer (RevokeScholarship 1)) e3.
Definition e5 : Storage := after (dispatch ctx_funding DepositFunds) e4.
Definition e3_paused : Storage := after (dispatch ctx_deployer Pause) e3.

(** The registry after the administrator revoked alice's certificate. *)
Definition registry_revoked : State :=
  Scenario.after (revokeCertificate Scenario.env_admin 1) Scenario.s1.
End Story.

(** The same call, seen against another state of the registry. *)
Definition withRegistry (registry : State) (ctx : Ctx) : Ctx :=
  mkCtx (msg_sender ctx) (msg_value ctx) (block_timestamp ctx) (acceptsETH ctx) registry.

Lemma wellFormed_small ctx c :
  isUint256 (msg_value ctx) → isUint256 (block_timestamp ctx) →
  match c with
  | CreateScholarship _ _ totalAmount maxRecipients deadline _ _ _ =>
      isUint256 totalAmount ∧ isUint256 maxRecipients ∧ isUint256 deadline
  | WithdrawFunds amount => isUint256 amount
  | _ => True
  end → wellFormed ctx c.
Proof. by intros; split_and!. Qed.

Lemma isUint256_small x : 0 ≤ x ≤ 1000000 → isUint256 x.
Proof. unfold isUint256. assert (1000000 ≤ MAX_UINT256) by (vm_compute; discriminate). lia. Qed.

Lemma reachable_e0 : reachable Story.e0.
Proof.
  exists Story.e0. split; [|apply rtc_refl].
  exists Story.ctx_deployer, 0. split; [lia | vm_compute; reflexivity].
Defined.

Lemma escrow_reachable_step s s' : reachable s → step s s' → reachable s'.
Proof. intros (s0 & ? & ?) ?. exists s0. split; [done|]. by eapply rtc_r. Qed.

Ltac small_call :=
  apply wellFormed_small;
    [apply isUint256_small; simpl; lia
    |apply isUint256_small; simpl; lia
    |simpl; try done; split_and!; apply isUint256_small; lia].

Lemma step_e0_e1 : step Story.e0 Story.e1.
Proof.
  exists Story.ctx_funding, Story.create_merit.
  split; [small_call | vm_compute; reflexivity].
Defined.

Lemma step_e1_e2 : step Story.e1 Story.e2.
Proof.
  exists Story.ctx_alice, (ClaimScholarship 1).
  split; [small_call | vm_compute; reflexivity].
Defined.

Lemma step_e2_e3 : step Story.e2 Story.e3.
Proof.
  exists Story.ctx_deployer, Story.create_token.
  split; [small_call | vm_compute; reflexivity].
Defined.

Lemma step_e3_e4 : step Story.e3 Story.e4.
Proof.
  exists Story.ctx_deployer, (RevokeScholarship 1).
  split; [small_call | vm_compute; reflexivity].
Defined.

Lemma step_e4_e5 : step Story.e4 Story.e5.
Proof.
  exists Story.ctx_funding, DepositFunds.
  split; [small_call | vm_compute; reflexivity].
Defined.

Lemma reachable_e1 : reachable Story.e1.
Proof. exact (escrow_reachable_step _ _ reachable_e0 step_e0_e1). Defined.

Lemma reachable_e2 : reachable Story.e2.
Proof. exact (escrow_reachable_step _ _ reachable_e1 step_e1_e2). Defined.

Lemma reachable_e3 : reachable Story.e3.
Proof. exact (escrow_reachable_step _ _ reachable_e2 step_e2_e3). Defined.

Lemma reachable_e4 : reachable Story.e4.
Proof. exact (escrow_reachable_step _ _ reachable_e3 step_e3_e4). Defined.

(** ** Properties of the escrow *)

(** X10. In every state the deployed escrow can reach, each stored
    scholarship balances: what was claimed is the per-recipient amount
    times the number of [ScholarshipClaimed] events for it, claimed and
    remaining amounts add up to the total, the remaining amount is not
    negative, and an active scholarship has something left. *)
Theorem scholarship_accounting s scholarshipId x :
  reachable s → scholarships s !! scholarshipId = Some x →
  claimedAmount x =
    amountPerRecipient x * Z.of_nat (length (claimants scholarshipId (logs s))) ∧
  claimedAmount x + remainingAmount x = totalAmount x ∧
  0 ≤ remainingAmount x ∧
  (isActive x = true → 0 < remainingAmount x).
Proof.
  intros Hs%reachable_escrowInv Hx.
  destruct (inv_scholarship _ Hs _ _ Hx). done.
Qed.

Lemma scholarship_accounting_witness :
  claimedAmount (scholarships_at Story.e2 1) =
    amountPerRecipient (scholarships_at Story.e2 1)
    * Z.of_nat (length (claimants 1 (logs Story.e2))) ∧
  claimedAmount (scholarships_at Story.e2 1) + remainingAmount (scholarships_at Story.e2 1)
    = totalAmount (scholarships_at Story.e2 1) ∧
  0 ≤ remainingAmount (scholarships_at Story.e2 1) ∧
  (isActive (scholarships_at Story.e2 1) = true →
   0 < remainingAmount (scholarships_at Story.e2 1)).
Proof.
  apply (scholarship_accounting Story.e2 1 (scholarships_at Story.e2 1) reachable_e2).
  vm_compute. reflexivity.
Defined.

(** Case analysis on the first check of a chain that reported [e]. *)
Ltac failed_check H :=
  match type of H with
  | (if ?b then Some _ else _) = Some _ => destruct b eqn:?; simpl in H
  end.

Lemma claimCheck_exhausted ctx scholarshipId s e :
  claimCheck ctx scholarshipId s = Some e →
  e = Require "No funds remaining" ∨ e = Require "Scholarship fully claimed" →
  isActive (scholarships_at s scholarshipId) = true ∧
  ¬ (remainingAmount (scholarships_at s scholarshipId) > 0 ∧
     claimedAmount (scholarships_at s scholarshipId)
     < totalAmount (scholarships_at s scholarshipId)).
Proof.
  unfold claimCheck. cbv zeta. intros H He.
  do 3 (failed_check H; [destruct He; congruence|]).
  failed_check H; [destruct He; congruence|].
  split; [by destruct (isActive _)|].
  do 2 (failed_check H; [destruct He; congruence|]).
  failed_check H.
  { intros [? _]. by rewrite bool_decide_eq_true_2 in * by done. }
  failed_check H.
  { intros [_ ?]. by rewrite bool_decide_eq_true_2 in * by done. }
  repeat (failed_check H; [destruct He; congruence|]). done.
Qed.

(** X11. In a reachable state [claimScholarship] never reverts with
    "No funds remaining" or "Scholarship fully claimed": a scholarship
    that passed the activity check has funds left and is not fully
    claimed, so these two checks cannot fail. *)
Theorem claim_exhaustion_checks_never_fire ctx scholarshipId s :
  reachable s →
  claimScholarship ctx scholarshipId s ≠ Fail (Require "No funds remaining") ∧
  claimScholarship ctx scholarshipId s ≠ Fail (Require "Scholarship fully claimed").
Proof.
  intros Hs%reachable_escrowInv. rewrite claimScholarship_run.
  destruct (claimCheck ctx scholarshipId s) as [e|] eqn:Hcheck; [|done].
  assert (¬ (e = Require "No funds remaining" ∨ e = Require "Scholarship fully claimed"))
    as Hne; [|split; intros [= ->]; apply Hne; auto].
  intros He.
  destruct (claimCheck_exhausted _ _ _ _ Hcheck He) as [Hactive Hnot].
  pose proof (scholarships_at_active _ _ Hactive) as Hx.
  destruct (inv_scholarship _ Hs _ _ Hx) as [? ? ? ? ? ? Hleft ?].
  specialize (Hleft Hactive). apply Hnot. split; lia.
Qed.

Lemma claim_exhaustion_checks_never_fire_witness :
  claimScholarship Story.ctx_alice 1 Story.e2 ≠ Fail (Require "No funds remaining") ∧
  claimScholarship Story.ctx_alice 1 Story.e2 ≠ Fail (Require "Scholarship fully claimed").
Proof. exact (claim_exhaustion_checks_never_fire Story.ctx_alice 1 Story.e2 reachable_e2). Defined.

(** X12. The claims paid from a scholarship never add up to more than
    its total amount; when [maxRecipients] divides the total amount, at
    most [maxRecipients] students have claimed it. *)
Theorem recipients_bounded s scholarshipId x :
  reachable s → scholarships s !! scholarshipId = Some x →
  amountPerRecipient x * Z.of_nat (length (claimants scholarshipId (logs s)))
    ≤ totalAmount x ∧
  ((maxRecipients x | totalAmount x) →
   Z.of_nat (length (claimants scholarshipId (logs s))) ≤ maxRecipients x).
Proof.
  intros Hs%reachable_escrowInv Hx.
  destruct (inv_scholarship _ Hs _ _ Hx) as [? ? Hshare Hclaimed ? ? ? ?].
  split; [lia|]. intros [k Hk].
  rewrite Hk, Z.div_mul in Hshare by lia. nia.
Qed.

Lemma recipients_bounded_witness :
  amountPerRecipient (scholarships_at Story.e2 1)
    * Z.of_nat (length (claimants 1 (logs Story.e2)))
    ≤ totalAmount (scholarships_at Story.e2 1) ∧
  ((maxRecipients (scholarships_at Story.e2 1) | totalAmount (scholarships_at Story.e2 1)) →
   Z.of_nat (length (claimants 1 (logs Story.e2)))
     ≤ maxRecipients (scholarships_at Story.e2 1)).
Proof.
  apply (recipients_bounded Story.e2 1 (scholarships_at Story.e2 1) reachable_e2).
  vm_compute. reflexivity.
Defined.

(** X13. A scholarship created with a token address other than zero can
    never be claimed: every claim reverts, so in a reachable state
    nothing was ever claimed from it. *)
Theorem token_scholarship_unclaimable s scholarshipId x :
  reachable s → scholarships s !! scholarshipId = Some x → tokenAddress x ≠ 0 →
  claimedAmount x = 0 ∧ claimants scholarshipId (logs s) = [] ∧
  ∀ ctx, ∃ e, transact (claimScholarship ctx scholarshipId) s = (Fail e, s).
Proof.
  intros Hs%reachable_escrowInv Hx Htoken.
  destruct (inv_scholarship _ Hs _ _ Hx) as [? ? ? Hclaimed ? ? ? Hzero].
  specialize (Hzero Htoken). split_and!.
  - rewrite Hclaimed, Hzero. lia.
  - by apply nil_length_inv.
  - intros ctx.
    destruct (claimCheck ctx scholarshipId s) as [e|] eqn:Hcheck.
    + exists e. apply transact_Fail. by rewrite claimScholarship_run, Hcheck.
    + apply claimCheck_None in Hcheck as [].
      unfold scholarships_at in *. rewrite Hx in *. done.
Qed.

Lemma token_scholarship_unclaimable_witness :
  claimedAmount (scholarships_at Story.e3 2) = 0 ∧ claimants 2 (logs Story.e3) = [] ∧
  ∀ ctx, ∃ e, transact (claimScholarship ctx 2) Story.e3 = (Fail e, Story.e3).
Proof.
  apply (token_scholarship_unclaimable Story.e3 2 (scholarships_at Story.e3 2) reachable_e3).
  - vm_compute. reflexivity.
  - vm_compute. discriminate.
Defined.

Lemma inactive_frozen_step s s' scholarshipId x :
  escrowInv s → step s s' →
  scholarships s !! scholarshipId = Some x → isActive x = false →
  scholarships s' !! scholarshipId = Some x.
Proof.
  intros Hs [H|[H|[H|H]]]%step_cases Hx Hinactive.
  - destruct H as (ctx & n & d & t & m & dl & ta & ts & cr & _ & _ & _ & _ & _ & _ & ->).
    simpl. rewrite lookup_insert_ne; [done|].
    apply (inv_range _ Hs) in Hx. lia.
  - destruct H as (ctx & id & _ & []%claimCheck_None & ->). simpl.
    rewrite lookup_insert_ne; [done|]. intros ->.
    unfold scholarships_at in *. rewrite Hx in *. simpl in *. congruence.
  - destruct H as (ctx & id & (_ & _ & Hactive)%revokeCheck_None & ->). simpl.
    rewrite lookup_insert_ne; [done|]. intros ->.
    unfold scholarships_at in *. rewrite Hx in *. simpl in *. congruence.
  - by rewrite (frame_scholarships _ _ H).
Qed.

(** X14. Deactivation is final: once a stored scholarship is inactive
    (revoked, or marked inactive by the last claim), no later
    transaction changes any field of its record. *)
Theorem inactive_scholarship_frozen s s' scholarshipId x :
  reachable s → rtc step s s' →
  scholarships s !! scholarshipId = Some x → isActive x = false →
  scholarships s' !! scholarshipId = Some x.
Proof.
  intros Hs%reachable_escrowInv Hsteps Hx Hinactive.
  induction Hsteps as [|s1 s2 s3 Hstep _ IH]; [done|].
  apply IH; [by eapply step_inv | by eapply inactive_frozen_step].
Qed.

Lemma inactive_scholarship_frozen_witness :
  scholarships Story.e5 !! 1 = Some (scholarships_at Story.e4 1).
Proof.
  apply (inactive_scholarship_frozen Story.e4 Story.e5 1 _ reachable_e4
           (rtc_once _ _ step_e4_e5)).
  - vm_compute. reflexivity.
  - vm_compute. reflexivity.
Defined.

(** X15. A student is paid at most once from a scholarship: in a
    reachable state the [ScholarshipClaimed] events of a scholarship name
    pairwise different students, and these are exactly the students whose
    [scholarshipClaims] flag is set. *)
Theorem one_claim_per_student s scholarshipId :
  reachable s →
  NoDup (claimants scholarshipId (logs s)) ∧
  ∀ student,
    scholarshipClaims_at s scholarshipId student = true ↔
    student ∈ claimants scholarshipId (logs s).
Proof.
  intros Hs%reachable_escrowInv. split; [apply (inv_nodup _ Hs) | apply (inv_claims _ Hs)].
Qed.

Lemma one_claim_per_student_witness :
  NoDup (claimants 1 (logs Story.e2)) ∧
  ∀ student,
    scholarshipClaims_at Story.e2 1 student = true ↔
    student ∈ claimants 1 (logs Story.e2).
Proof. exact (one_claim_per_student Story.e2 1 reachable_e2). Defined.

(** X16. The per-student getters agree with the event log: in a
    reachable state [getTotalClaimed] returns the sum of the amounts of
    the student's [ScholarshipClaimed] events and [getStudentScholarships]
    returns their scholarship ids, oldest first. *)
Theorem payout_ledger s student :
  reachable s →
  getTotalClaimed student s = Done (paidTo student (logs s), s) ∧
  getStudentScholarships student s = Done (claimedBy student (logs s), s).
Proof.
  intros Hs%reachable_escrowInv. unfold getTotalClaimed, getStudentScholarships, gets.
  by rewrite (inv_total _ Hs), (inv_history _ Hs).
Qed.

Lemma payout_ledger_witness :
  getTotalClaimed Scenario.alice Story.e2
    = Done (paidTo Scenario.alice (logs Story.e2), Story.e2) ∧
  getStudentScholarships Scenario.alice Story.e2
    = Done (claimedBy Scenario.alice (logs Story.e2), Story.e2).
Proof. exact (payout_ledger Story.e2 Scenario.alice reachable_e2). Defined.

(** X17. When a claim goes through.  In a reachable state
    [claimScholarship] succeeds exactly when the call carries no value,
    the escrow is not paused, the scholarship is active and its deadline
    has not passed, the caller has not claimed it, holds at least
    [minCertificates] entries in the registry's index, the share fits the
    remaining amount, the scholarship pays in ETH, the escrow holds the
    share, the caller accepts the transfer and the caller's total does
    not overflow; the resulting storage is [claimed]. *)
Theorem claim_succeeds_iff ctx scholarshipId s s' :
  reachable s →
  let x := scholarships_at s scholarshipId in
  claimScholarship ctx scholarshipId s = Done (tt, s') ↔
  (msg_value ctx = 0 ∧ paused s = false ∧ isActive x = true ∧
   block_timestamp ctx ≤ deadline x ∧
   scholarshipClaims_at s scholarshipId (msg_sender ctx) = false ∧
   minCertificates (scholarshipCriteria_at s scholarshipId)
     ≤ Z.of_nat (length (studentCertificates_at (certificateNFT ctx) (msg_sender ctx))) ∧
   amountPerRecipient x ≤ remainingAmount x ∧
   tokenAddress x = 0 ∧
   amountPerRecipient x ≤ balance s ∧
   acceptsETH ctx (msg_sender ctx) = true ∧
   totalClaimed_at s (msg_sender ctx) + amountPerRecipient x ≤ MAX_UINT256) ∧
  s' = claimed ctx scholarshipId s.
Proof.
  intros Hs%reachable_escrowInv x. rewrite claimScholarship_run. split.
  - destruct (claimCheck ctx scholarshipId s) eqn:Hcheck; [done|].
    intros [= <-]. apply claimCheck_None in Hcheck as []. subst x.
    split_and!; try done; lia.
  - intros [(? & ? & Hactive & ? & ? & ? & ? & ? & ? & ? & ?) ->].
    pose proof (scholarships_at_active _ _ Hactive) as Hx.
    destruct (inv_scholarship _ Hs _ _ Hx) as [? ? ? ? ? ? Hleft ?].
    specialize (Hleft Hactive). subst x.
    assert (claimable ctx scholarshipId s) as Hok.
    { split; try done; try lia. apply (inv_entered _ Hs). }
    apply claimCheck_None in Hok. by rewrite Hok.
Qed.

Lemma claim_succeeds_iff_witness :
  claimScholarship Story.ctx_alice 1 Story.e1 = Done (tt, Story.e2).
Proof.
  apply (claim_succeeds_iff Story.ctx_alice 1 Story.e1 Story.e2 reachable_e1).
  split; [split_and!; vm_compute; (reflexivity || discriminate) | vm_compute; reflexivity].
Defined.

(** ** Eligibility and the registry *)

Lemma hasRequiredCertificates_run ctx student s :
  hasRequiredCertificates ctx student s =
    Done (bool_decide
            (Z.of_nat (length (studentCertificates_at (certificateNFT ctx) student)) > 0), s).
Proof. unfold hasRequiredCertificates, staticcall. by rewrite getStudentCertificates_run. Qed.

(** X18. Eligibility only counts the entries of the registry's
    per-student index, so no registry transaction takes it away: a student
    whom [isEligibleForScholarship] or [hasRequiredCertificates] accepts
    against one registry state is accepted against every later one, also
    after the certificates were revoked or transferred. *)
Theorem eligibility_survives_registry_steps ctx registry' scholarshipId student s :
  steps (certificateNFT ctx) registry' →
  (isEligibleForScholarship ctx scholarshipId student s = Done (true, s) →
   isEligibleForScholarship (withRegistry registry' ctx) scholarshipId student s
     = Done (true, s)) ∧
  (hasRequiredCertificates ctx student s = Done (true, s) →
   hasRequiredCertificates (withRegistry registry' ctx) student s = Done (true, s)).
Proof.
  intros Hsteps.
  pose proof (prefix_length _ _ (ext_index _ _ (steps_extends _ _ Hsteps) student)) as Hlen.
  rewrite !isEligibleForScholarship_run, !hasRequiredCertificates_run. simpl.
  split; intros [= H]; apply bool_decide_eq_true in H; do 2 f_equal;
    apply bool_decide_eq_true; lia.
Qed.

Lemma eligibility_survives_registry_steps_witness :
  (isEligibleForScholarship Story.ctx_alice 1 Scenario.alice Story.e1
     = Done (true, Story.e1) →
   isEligibleForScholarship (withRegistry Story.registry_revoked Story.ctx_alice) 1
     Scenario.alice Story.e1 = Done (true, Story.e1)) ∧
  (hasRequiredCertificates Story.ctx_alice Scenario.alice Story.e1
     = Done (true, Story.e1) →
   hasRequiredCertificates (withRegistry Story.registry_revoked Story.ctx_alice)
     Scenario.alice Story.e1 = Done (true, Story.e1)).
Proof.
  apply (eligibility_survives_registry_steps Story.ctx_alice Story.registry_revoked 1
           Scenario.alice Story.e1).
  apply rtc_once. exists Scenario.env_admin, (RevokeCertificate 1).
  split; [apply passive_admissible, noCode_passive | vm_compute; reflexivity].
Defined.

(** X19. A successful [createScholarship] returns the next id, which no
    scholarship used before; [getScholarship] then returns exactly the
    submitted data with nothing claimed, the full amount remaining and
    the scholarship active; the criteria are stored under the same id;
    the escrow keeps all of [msg.value], which for an ETH scholarship is
    at least the total amount. *)
Theorem create_then_get ctx name description totalAmount maxRecipients deadline tokenAddress
    tokenSymbol criteria s id s' :
  reachable s →
  createScholarship ctx name description totalAmount maxRecipients deadline tokenAddress
    tokenSymbol criteria s = Done (id, s') →
  id = scholarshipIdCounter s + 1 ∧
  scholarships s !! id = None ∧
  getScholarship id s' =
    Done (mkScholarship name description totalAmount 0 totalAmount maxRecipients
            (totalAmount / maxRecipients) (block_timestamp ctx) deadline true
            (msg_sender ctx) tokenAddress tokenSymbol, s') ∧
  scholarshipCriteria_at s' id = criteria ∧
  balance s' = balance s + msg_value ctx ∧
  (tokenAddress = 0 → totalAmount ≤ msg_value ctx).
Proof.
  intros Hs%reachable_escrowInv. rewrite createScholarship_run.
  destruct (createCheck _ _ _ _ _ _ _) eqn:Hcheck; [done|]. intros [= <- <-].
  apply createCheck_None in Hcheck as [? ? ? ? ? ? Hfunded ?].
  split_and!; try done.
  - destruct (scholarships s !! (scholarshipIdCounter s + 1)) eqn:Hx; [|done].
    apply (inv_range _ Hs) in Hx. lia.
  - unfold getScholarship, gets, scholarships_at, created. simpl.
    by rewrite lookup_insert_eq.
  - unfold scholarshipCriteria_at, created. simpl. by rewrite lookup_insert_eq.
  - intros Heth. specialize (Hfunded Heth). lia.
Qed.

Lemma create_then_get_witness :
  1 = scholarshipIdCounter Story.e0 + 1 ∧
  scholarships Story.e0 !! 1 = None ∧
  getScholarship 1 Story.e1 =
    Done (mkScholarship "Merit" "Top students" 10 0 10 3 (10 / 3) 100 1000 true
            Story.deployer 0 "ETH", Story.e1) ∧
  scholarshipCriteria_at Story.e1 1 = Story.merit ∧
  balance Story.e1 = balance Story.e0 + 10 ∧
  (0 = 0 → 10 ≤ 10).
Proof.
  apply (create_then_get Story.ctx_funding "Merit" "Top students" 10 3 1000 0 "ETH"
           Story.merit Story.e0 1 Story.e1 reachable_e0).
  vm_compute. reflexivity.
Defined.

(** X20. [withdrawFunds] succeeds exactly when the call carries no
    value, the caller holds ADMIN_ROLE, no guarded call is running, the
    amount is positive and at most the escrow's whole balance, and the
    caller accepts the transfer; it then takes the amount off the
    balance.  What active scholarships still owe is not part of the
    condition. *)
Theorem withdrawFunds_succeeds_iff ctx amount s s' :
  withdrawFunds ctx amount s = Done (tt, s') ↔
  (msg_value ctx = 0 ∧ hasRole s ADMIN_ROLE (msg_sender ctx) = true ∧
   entered s = false ∧ 0 < amount ≤ balance s ∧
   acceptsETH ctx (msg_sender ctx) = true) ∧
  s' = withdrawn ctx amount s.
Proof.
  rewrite withdrawFunds_run. split.
  - destruct (withdrawCheck ctx amount s) eqn:Hcheck; [done|]. intros [= <-].
    unfold withdrawCheck in Hcheck. repeat first_check Hcheck.
    split_and!; try done; lia.
  - intros [(? & ? & ? & ? & ?) ->].
    assert (withdrawCheck ctx amount s = None) as ->; [|done].
    unfold withdrawCheck. repeat pass_check. done.
Qed.

(** X21. The pause stops [createScholarship], [claimScholarship] and
    [depositFunds], but a plain transfer to the contract is still
    accepted while paused, and is recorded with the same
    [FundsDeposited] event a deposit would give. *)
Theorem pause_scope ctx s :
  paused s = true →
  (∀ name description totalAmount maxRecipients deadline tokenAddress tokenSymbol criteria,
     ∃ e, createScholarship ctx name description totalAmount maxRecipients deadline
            tokenAddress tokenSymbol criteria s = Fail e) ∧
  (∀ scholarshipId, ∃ e, claimScholarship ctx scholarshipId s = Fail e) ∧
  depositFunds ctx s = Fail EnforcedPause ∧
  receive ctx s = Done (tt, deposited ctx s).
Proof.
  intros Hp. split_and!.
  - intros. rewrite createScholarship_run.
    destruct (createCheck _ _ _ _ _ _ _) eqn:Hcheck; [eauto|].
    apply createCheck_None in Hcheck as []. congruence.
  - intros. rewrite claimScholarship_run.
    destruct (claimCheck _ _ _) eqn:Hcheck; [eauto|].
    apply claimCheck_None in Hcheck as []. congruence.
  - by rewrite depositFunds_run, Hp.
  - apply receive_run.
Qed.

Lemma pause_scope_witness :
  (∀ name description totalAmount maxRecipients deadline tokenAddress tokenSymbol criteria,
     ∃ e, createScholarship Story.ctx_funding name description totalAmount maxRecipients
            deadline tokenAddress tokenSymbol criteria Story.e3_paused = Fail e) ∧
  (∀ scholarshipId,
     ∃ e, claimScholarship Story.ctx_funding scholarshipId Story.e3_paused = Fail e) ∧
  depositFunds Story.ctx_funding Story.e3_paused = Fail EnforcedPause ∧
  receive Story.ctx_funding Story.e3_paused
    = Done (tt, deposited Story.ctx_funding Story.e3_paused).
Proof. apply (pause_scope Story.ctx_funding Story.e3_paused). vm_compute. reflexivity. Defined.

(** The storage the constructor leaves when [deployer] deploys to an
    address holding [funds]. *)
Definition genesisStorage (deployer : address) (funds : uint256) : Storage :=
  mkStorage 0 ∅ ∅ ∅ ∅ ∅
    (<[(SCHOLARSHIP_MANAGER_ROLE, deployer) := true]>
       (<[(ADMIN_ROLE, deployer) := true]>
          (<[(DEFAULT_ADMIN_ROLE, deployer) := true]> ∅)))
    false false funds
    [RoleGranted DEFAULT_ADMIN_ROLE deployer deployer;
     RoleGranted ADMIN_ROLE deployer deployer;
     RoleGranted SCHOLARSHIP_MANAGER_ROLE deployer deployer].

Lemma escrow_constructor_run ctx funds :
  constructor ctx (emptyStorage funds) = Done (tt, genesisStorage (msg_sender ctx) funds).
Proof.
  unfold constructor, _grantRole, hasRole, emptyStorage, genesisStorage. emunfold. simpl.
  rewrite lookup_empty. simpl.
  rewrite lookup_insert_ne, lookup_empty by done. simpl.
  rewrite !lookup_insert_ne, lookup_empty by done. simpl.
  done.
Qed.

(** X22. Right after deployment the deployer, and nobody else, holds
    DEFAULT_ADMIN_ROLE, ADMIN_ROLE and SCHOLARSHIP_MANAGER_ROLE; no other
    role is held by anyone, no scholarship exists and the escrow is not
    paused. *)
Theorem deployer_holds_all_roles s :
  deployed s →
  ∃ deployer,
    (∀ role account,
       hasRole s role account = true ↔
       account = deployer ∧
       (role = DEFAULT_ADMIN_ROLE ∨ role = ADMIN_ROLE ∨ role = SCHOLARSHIP_MANAGER_ROLE)) ∧
    scholarshipIdCounter s = 0 ∧ scholarships s = ∅ ∧ paused s = false.
Proof.
  intros (ctx & funds & _ & H). rewrite escrow_constructor_run in H. injection H as <-.
  exists (msg_sender ctx). split; [|done].
  intros role account. unfold hasRole, genesisStorage. simpl.
  destruct (decide ((SCHOLARSHIP_MANAGER_ROLE, msg_sender ctx) = (role, account)))
    as [[= <- <-]|].
  { rewrite lookup_insert_eq. simpl. split; [auto|done]. }
  rewrite lookup_insert_ne by done.
  destruct (decide ((ADMIN_ROLE, msg_sender ctx) = (role, account))) as [[= <- <-]|].
  { rewrite lookup_insert_eq. simpl. split; [auto|done]. }
  rewrite lookup_insert_ne by done.
  destruct (decide ((DEFAULT_ADMIN_ROLE, msg_sender ctx) = (role, account)))
    as [[= <- <-]|].
  { rewrite lookup_insert_eq. simpl. split; [auto|done]. }
  rewrite lookup_insert_ne, lookup_empty by done. simpl.
  split; [done|]. intros [-> [-> | [-> | ->]]]; congruence.
Qed.

Lemma deployer_holds_all_roles_witness :
  ∃ deployer,
    (∀ role account,
       hasRole Story.e0 role account = true ↔
       account = deployer ∧
       (role = DEFAULT_ADMIN_ROLE ∨ role = ADMIN_ROLE ∨ role = SCHOLARSHIP_MANAGER_ROLE)) ∧
    scholarshipIdCounter Story.e0 = 0 ∧ scholarships Story.e0 = ∅ ∧
    paused Story.e0 = false.
Proof.
  apply (deployer_holds_all_roles Story.e0).
  exists Story.ctx_deployer, 0. split; [lia | vm_compute; reflexivity].
Defined.

(** The role each entry point asks of its caller. *)
Definition roleNeeded (c : Call) : option EscrowRole :=
  match c with
  | CreateScholarship _ _ _ _ _ _ _ _ => Some SCHOLARSHIP_MANAGER_ROLE
  | RevokeScholarship _ | WithdrawFunds _ | Pause | Unpause => Some ADMIN_ROLE
  | GrantRole _ _ | RevokeRole _ _ => Some DEFAULT_ADMIN_ROLE
  | ClaimScholarship _ | DepositFunds | Receive | RenounceRole _ _ => None
  end.

(** The entry points declared [payable]. *)
Definition isPayable (c : Call) : bool :=
  match c with
  | CreateScholarship _ _ _ _ _ _ _ _ | DepositFunds | Receive => true
  | _ => false
  end.

(** X23. The role comes first: a call to a role-guarded entry point by an
    account without that role fails with
    [AccessControlUnauthorizedAccount] whatever the arguments and the
    pause state, provided a call to an entry point that is not payable
    carries no value.  Holding ADMIN_ROLE does not let an account create
    scholarships, nor does SCHOLARSHIP_MANAGER_ROLE let it revoke or
    withdraw. *)
Theorem escrow_role_comes_first ctx c role s :
  roleNeeded c = Some role →
  hasRole s role (msg_sender ctx) = false →
  (isPayable c = false → msg_value ctx = 0) →
  transact (dispatch ctx c) s =
    (Fail (AccessControlUnauthorizedAccount (msg_sender ctx) role), s).
Proof.
  intros Hrole Hhas Hvalue. apply transact_Fail.
  destruct c; simplify_eq/=.
  - unfold void. unfold mbind, EM_bind. rewrite createScholarship_run.
    unfold createCheck. by rewrite Hhas.
  - rewrite revokeScholarship_run. unfold revokeCheck.
    by rewrite bool_decide_eq_true_2, Hhas by auto.
  - rewrite withdrawFunds_run. unfold withdrawCheck.
    by rewrite bool_decide_eq_true_2, Hhas by auto.
  - unfold pause. rewrite nonPayable_run, bool_decide_eq_true_2 by auto.
    unfold mbind, EM_bind. by rewrite escrow_onlyRole_run, Hhas.
  - unfold unpause. rewrite nonPayable_run, bool_decide_eq_true_2 by auto.
    unfold mbind, EM_bind. by rewrite escrow_onlyRole_run, Hhas.
  - unfold grantRole. rewrite nonPayable_run, bool_decide_eq_true_2 by auto.
    unfold mbind, EM_bind. by rewrite escrow_onlyRole_run, Hhas.
  - unfold revokeRole. rewrite nonPayable_run, bool_decide_eq_true_2 by auto.
    unfold mbind, EM_bind. by rewrite escrow_onlyRole_run, Hhas.
Qed.

Lemma escrow_role_comes_first_witness :
  transact (dispatch Story.ctx_alice (WithdrawFunds 5)) Story.e2 =
    (Fail (AccessControlUnauthorizedAccount Scenario.alice ADMIN_ROLE), Story.e2).
Proof.
  apply (escrow_role_comes_first Story.ctx_alice (WithdrawFunds 5) ADMIN_ROLE Story.e2).
  - reflexivity.
  - vm_compute. reflexivity.
  - intros _. reflexivity.
Defined.

End Escrow.

(** * The registry's token transfers and deployment

    [CertificateNFT] inherits the ERC-721 transfer functions unchanged,
    and only [_mintBase] writes [studentCertificates]. *)

Module Handover.
Definition env_alice : Env := mkEnv Scenario.alice 0 1700000900 Scenario.noCode.

(** alice hands her certificate to bob. *)
Definition give : Call := TransferFrom Scenario.alice Scenario.bob 1.
Definition s1_given : State := Scenario.after (dispatch env_alice give) Scenario.s1.
End Handover.

(** The recipient and token of a transfer call. *)
Definition isTransfer (c : Call) : option (address * uint256) :=
  match c with
  | TransferFrom _ to tokenId | SafeTransferFrom _ to tokenId => Some (to, tokenId)
  | _ => None
  end.

Lemma _update_fields to tokenId auth s from s' :
  _update to tokenId auth s = Ok (from, s') →
  owners s' = <[tokenId := to]> (owners s) ∧
  studentCertificates s' = studentCertificates s ∧
  certConfigs s' = certConfigs s ∧
  tokenURIs s' = tokenURIs s.
Proof.
  unfold _update, _checkAuthorized, _approve. intros H.
  run_guards H; by injection H as <- <-.
Qed.

Lemma transferFrom_fields env from to tokenId s s' :
  transferFrom env from to tokenId s = Ok (tt, s') →
  to ≠ 0 ∧
  owners s' = <[tokenId := to]> (owners s) ∧
  studentCertificates s' = studentCertificates s ∧
  certConfigs s' = certConfigs s ∧
  tokenURIs s' = tokenURIs s.
Proof.
  unfold transferFrom. intros H.
  apply bind_Ok in H as ([] & s1 & H1 & H).
  unfold revertIf in H1. case_bool_decide; [done|]. injection H1 as <-.
  apply bind_Ok in H as (prev & s2 & H2 & H).
  unfold revertIf in H. destruct (negb _); [done|]. injection H as <-.
  split; [done|]. by eapply _update_fields.
Qed.

(** X24. Certificates can be transferred, and the per-student index does
    not follow: after a successful [transferFrom], or a successful
    [safeTransferFrom] whose recipient's hook does not call back into the
    registry, the token belongs to the (non-zero) recipient, but
    [getStudentCertificates] returns for every account what it returned
    before, and no token's URI, type, issuer, issue date or revocation
    flag has changed. *)
Theorem transfer_keeps_index env c to tokenId s s' :
  isTransfer c = Some (to, tokenId) →
  hookless c = true ∨ passive env →
  dispatch env c s = Ok (tt, s') →
  _ownerOf s' tokenId = to ∧ to ≠ 0 ∧
  (∀ student,
     getStudentCertificates student s' = Ok (studentCertificates_at s student, s')) ∧
  (∀ id, tokenRecord s' id = tokenRecord s id ∧ isRevokedAt s' id = isRevokedAt s id).
Proof.
  intros Hc Hhook H.
  assert (∃ from, transferFrom env from to tokenId s = Ok (tt, s')) as (from & Ht).
  { destruct c; simplify_eq/=; [eauto|].
    destruct Hhook as [?|Hpass]; [done|].
    unfold safeTransferFrom in H. apply bind_Ok in H as ([] & s1 & H1 & H).
    apply checkOnERC721Received_Ok, Hpass in H as <-. eauto. }
  apply transferFrom_fields in Ht as (Hto & Ho & Hs & Hcfg & Hu).
  split_and!; [|done| |].
  - unfold _ownerOf. by rewrite Ho, lookup_insert_eq.
  - intros student. rewrite getStudentCertificates_run.
    unfold studentCertificates_at. by rewrite Hs.
  - intros id. unfold tokenRecord, isRevokedAt, tokenURIs_at, certConfigs_at.
    by rewrite Hcfg, Hu.
Qed.

Lemma transfer_keeps_index_witness :
  _ownerOf Handover.s1_given 1 = Scenario.bob ∧ Scenario.bob ≠ 0 ∧
  (∀ student,
     getStudentCertificates student Handover.s1_given
       = Ok (studentCertificates_at Scenario.s1 student, Handover.s1_given)) ∧
  (∀ id, tokenRecord Handover.s1_given id = tokenRecord Scenario.s1 id ∧
         isRevokedAt Handover.s1_given id = isRevokedAt Scenario.s1 id).
Proof.
  apply (transfer_keeps_index Handover.env_alice Handover.give Scenario.bob 1
           Scenario.s1 Handover.s1_given).
  - reflexivity.
  - left. reflexivity.
  - vm_compute. reflexivity.
Defined.

(** X25. Right after deployment of the registry the deployer, and nobody
    else, holds DEFAULT_ADMIN_ROLE, ADMIN_ROLE and MINTER_ROLE; nobody
    holds VERIFIER_ROLE, so [verifyCertificateByVerifier] rejects every
    caller until the role is granted; no token exists and the registry
    is not paused. *)
Theorem registry_deployer_roles s :
  deployed s →
  ∃ deployer,
    (∀ role account,
       hasRole s role account = true ↔
       account = deployer ∧
       (role = DEFAULT_ADMIN_ROLE ∨ role = ADMIN_ROLE ∨ role = MINTER_ROLE)) ∧
    tokenIdCounter s = 0 ∧ paused s = false ∧
    ∀ env tokenId,
      transact (verifyCertificateByVerifier env tokenId) s
        = (Err (AccessControlUnauthorizedAccount (msg_sender env) VERIFIER_ROLE), s).
Proof.
  intros (deployer & ->)%deployed_genesis. exists deployer.
  assert (∀ role account,
            hasRole (genesis deployer) role account = true ↔
            account = deployer ∧
            (role = DEFAULT_ADMIN_ROLE ∨ role = ADMIN_ROLE ∨ role = MINTER_ROLE)) as Hroles.
  { intros role account. unfold hasRole, genesis. simpl.
    destruct (decide ((MINTER_ROLE, deployer) = (role, account))) as [[= <- <-]|].
    { rewrite lookup_insert_eq. simpl. split; [auto|done]. }
    rewrite lookup_insert_ne by done.
    destruct (decide ((ADMIN_ROLE, deployer) = (role, account))) as [[= <- <-]|].
    { rewrite lookup_insert_eq. simpl. split; [auto|done]. }
    rewrite lookup_insert_ne by done.
    destruct (decide ((DEFAULT_ADMIN_ROLE, deployer) = (role, account))) as [[= <- <-]|].
    { rewrite lookup_insert_eq. simpl. split; [auto|done]. }
    rewrite lookup_insert_ne, lookup_empty by done. simpl.
    split; [done|]. intros [-> [-> | [-> | ->]]]; congruence. }
  split_and!; try done.
  intros env tokenId. apply transact_Err.
  unfold verifyCertificateByVerifier, mbind, M_bind. rewrite onlyRole_run.
  destruct (hasRole _ _ _) eqn:Hv; [|done].
  apply Hroles in Hv as [_ [?|[?|?]]]; congruence.
Qed.

Lemma registry_deployer_roles_witness :
  ∃ deployer,
    (∀ role account,
       hasRole Scenario.s0 role account = true ↔
       account = deployer ∧
       (role = DEFAULT_ADMIN_ROLE ∨ role = ADMIN_ROLE ∨ role = MINTER_ROLE)) ∧
    tokenIdCounter Scenario.s0 = 0 ∧ paused Scenario.s0 = false ∧
    ∀ env tokenId,
      transact (verifyCertificateByVerifier env tokenId) Scenario.s0
        = (Err (AccessControlUnauthorizedAccount (msg_sender env) VERIFIER_ROLE),
           Scenario.s0).
Proof.
  apply (registry_deployer_roles Scenario.s0).
  exists Scenario.env_admin. vm_compute. reflexivity.
Defined.
